(** * Statement parsers: a shallow embedding of the six line grammars

    The repository holds six Python scripts (app/api/parsers/*.py), one per
    statement layout.  Each reads the text of the pages of a document, walks
    over its lines with regular expressions and appends transaction records
    to a list.  This file embeds the text-level part of each script:

    - Python text is a list of characters ([pystr]); characters are the code
      points U+0000..U+00FF, which is where the character classes of the
      scripts ([\d], [\s], [A-Za-z]) and [str.strip] are modelled exactly;
    - the patterns are values of [regex], run by a backtracking matcher that
      follows the priorities of Python's [re] (greedy and lazy repetition,
      ordered alternation, numbered groups);
    - [float(...)] is the exact decimal value of its argument as a rational
      (the binary64 rounding of Python is not modelled), [None] standing for
      the [ValueError] raised on a malformed numeral;
    - [datetime.strptime] is the regular expression that CPython's
      [_strptime] builds from the format, followed by calendar validation;
    - [uuid.uuid4] is a supply [uuid4 : nat -> pystr] giving the value of the
      k-th call of the run. *)

From Stdlib Require Import String.
From Stdlib Require Import Ascii List Bool Arith ZArith QArith Lia.
Import ListNotations.

Close Scope Q_scope.
Open Scope nat_scope.
Open Scope list_scope.

Set Implicit Arguments.

(** ** Python text *)

Definition pystr := list ascii.

(** String literals of the scripts. *)
Definition py (s : String.string) : pystr := String.list_ascii_of_string s.
Arguments py s%_string.

Definition code (a : ascii) : nat := nat_of_ascii a.

Definition in_range (lo hi : nat) (a : ascii) : bool :=
  (lo <=? code a) && (code a <=? hi).

(** [\d]: the only decimal digits below U+0100 are 0-9. *)
Definition is_digit (a : ascii) : bool := in_range 48 57 a.

(** [\s] and [str.isspace]: TAB LF VT FF CR, FS GS RS US, SPACE, NEL, NBSP. *)
Definition is_space (a : ascii) : bool :=
  in_range 9 13 a || in_range 28 32 a
  || Nat.eqb (code a) 133 || Nat.eqb (code a) 160.

Definition is_upper (a : ascii) : bool := in_range 65 90 a.
Definition is_lower (a : ascii) : bool := in_range 97 122 a.
(** [[A-Za-z]] *)
Definition is_alpha (a : ascii) : bool := is_upper a || is_lower a.

(** The characters of [str.isnumeric] below U+0100: the digits, the
    superscripts 2 3 1 and the fractions 1/4 1/2 3/4. *)
Definition is_numeric_char (a : ascii) : bool :=
  is_digit a || Nat.eqb (code a) 178 || Nat.eqb (code a) 179
  || Nat.eqb (code a) 185 || in_range 188 190 a.

Definition is_char (c : ascii) (a : ascii) : bool := Ascii.eqb c a.

Definition newline : ascii := ascii_of_nat 10.

(** [.] without DOTALL *)
Definition not_newline (a : ascii) : bool := negb (is_char newline a).

Fixpoint lstrip (s : pystr) : pystr :=
  match s with
  | a :: s' => if is_space a then lstrip s' else s
  | [] => []
  end.

Definition rstrip (s : pystr) : pystr := rev (lstrip (rev s)).

(** [s.strip()] *)
Definition strip (s : pystr) : pystr := rstrip (lstrip s).

(** [s.zfill(2)] on a text that carries no sign, as the day groups do. *)
Definition zfill2 (s : pystr) : pystr :=
  repeat "0"%char (2 - length s) ++ s.

(** [s.replace(",", "")] *)
Definition remove_commas (s : pystr) : pystr :=
  filter (fun a => negb (is_char ","%char a)) s.

Fixpoint starts_with (p s : pystr) : bool :=
  match p, s with
  | [], _ => true
  | a :: p', b :: s' => Ascii.eqb a b && starts_with p' s'
  | _ :: _, [] => false
  end.

(** [s.find(p)]: the lowest index at which [p] occurs. *)
Fixpoint find (p s : pystr) : option nat :=
  if starts_with p s then Some 0
  else match s with
       | [] => None
       | _ :: s' => option_map S (find p s')
       end.

(** [p in s] *)
Definition contains (p s : pystr) : bool :=
  match find p s with Some _ => true | None => false end.

(** [s.rfind(p)]: the highest index at which [p] occurs. *)
Fixpoint rfind (p s : pystr) : option nat :=
  match s with
  | [] => if starts_with p [] then Some 0 else None
  | _ :: s' =>
      match rfind p s' with
      | Some i => Some (S i)
      | None => if starts_with p s then Some 0 else None
      end
  end.

(** [s[:i]] where [i] is the result of [rfind]; Python's -1 (not found)
    slices off the last character. *)
Definition slice_to (s : pystr) (i : option nat) : pystr :=
  match i with
  | Some n => firstn n s
  | None => removelast s
  end.

(** [s.isnumeric()] *)
Definition isnumeric (s : pystr) : bool :=
  match s with
  | [] => false
  | _ => forallb is_numeric_char s
  end.

(** [sep.join(parts)] *)
Fixpoint join (sep : pystr) (parts : list pystr) : pystr :=
  match parts with
  | [] => []
  | [p] => p
  | p :: rest => p ++ sep ++ join sep rest
  end.

(** [s.split("\n")] *)
Fixpoint split_nl_aux (cur : pystr) (s : pystr) : list pystr :=
  match s with
  | [] => [rev cur]
  | a :: s' =>
      if is_char newline a then rev cur :: split_nl_aux [] s'
      else split_nl_aux (a :: cur) s'
  end.

Definition split_nl (s : pystr) : list pystr := split_nl_aux [] s.

(** Line boundaries of [str.splitlines] below U+0100:
    LF VT FF CR FS GS RS NEL, with CR LF counted once. *)
Definition is_linebreak (a : ascii) : bool :=
  in_range 10 13 a || in_range 28 30 a || Nat.eqb (code a) 133.

Fixpoint splitlines_aux (cur : pystr) (s : pystr) : list pystr :=
  match s with
  | [] => match cur with [] => [] | _ => [rev cur] end
  | a :: s' =>
      if is_linebreak a then
        rev cur ::
        match s' with
        | b :: s'' =>
            if Nat.eqb (code a) 13 && Nat.eqb (code b) 10
            then splitlines_aux [] s''
            else splitlines_aux [] s'
        | [] => []
        end
      else splitlines_aux (a :: cur) s'
  end.

(** [s.splitlines()] *)
Definition splitlines (s : pystr) : list pystr := splitlines_aux [] s.

(** ** Regular expressions

    The fragment of Python's [re] that the six scripts use.  Counted
    repetitions are spelled out with [Cat] and [Opt]; [Rep true r] is the
    greedy [r*], [Rep false r] the lazy [r*?]. *)

Inductive regex : Type :=
| Eps : regex
| Cls : (ascii -> bool) -> regex
| Cat : regex -> regex -> regex
| Alt : regex -> regex -> regex
| Rep : bool -> regex -> regex
| Grp : nat -> regex -> regex
| Bol : regex
| Eol : regex.

(** The text of the groups that took part in a match, latest first. *)
Definition caps := list (nat * pystr).

Fixpoint group (n : nat) (c : caps) : option pystr :=
  match c with
  | [] => None
  | (m, w) :: c' => if Nat.eqb n m then Some w else group n c'
  end.

(** [$] without MULTILINE: at the end, or before a final newline. *)
Definition at_eol (s : pystr) : bool :=
  match s with
  | [] => true
  | [a] => is_char newline a
  | _ => false
  end.

(** The loop of a repetition, over the matcher [body] of what is repeated:
    the greedy loop tries one more turn before it goes on with [k], the lazy
    loop goes on with [k] first.  A turn that matches the empty text is not
    taken, so the length of the text bounds the number [n] of turns. *)
Fixpoint rep_loop
    (body : nat -> pystr -> caps ->
            (nat -> pystr -> caps -> option (nat * caps)) ->
            option (nat * caps))
    (greedy : bool) (k : nat -> pystr -> caps -> option (nat * caps))
    (n : nat) (i : nat) (s : pystr) (c : caps) : option (nat * caps) :=
  match n with
  | 0 => k i s c
  | S n' =>
      if greedy then
        match body i s c
                (fun i' s' c' =>
                   if i <? i' then rep_loop body greedy k n' i' s' c'
                   else None) with
        | Some x => Some x
        | None => k i s c
        end
      else
        match k i s c with
        | Some x => Some x
        | None =>
            body i s c
              (fun i' s' c' =>
                 if i <? i' then rep_loop body greedy k n' i' s' c'
                 else None)
        end
  end.

(** The matcher walks the pattern and calls [k] on what is left of the
    subject; [None] makes it backtrack to the latest choice.  [i] is the
    index of [s] in the subject. *)
Fixpoint run (r : regex) (i : nat) (s : pystr) (c : caps)
    (k : nat -> pystr -> caps -> option (nat * caps)) : option (nat * caps) :=
  match r with
  | Eps => k i s c
  | Cls p =>
      match s with
      | a :: s' => if p a then k (S i) s' c else None
      | [] => None
      end
  | Cat r1 r2 => run r1 i s c (fun i' s' c' => run r2 i' s' c' k)
  | Alt r1 r2 =>
      match run r1 i s c k with
      | Some x => Some x
      | None => run r2 i s c k
      end
  | Rep greedy r1 => rep_loop (run r1) greedy k (length s) i s c
  | Grp n r1 =>
      run r1 i s c (fun i' s' c' => k i' s' ((n, firstn (i' - i) s) :: c'))
  | Bol => if Nat.eqb i 0 then k i s c else None
  | Eol => if at_eol s then k i s c else None
  end.

Definition accept (i : nat) (s : pystr) (c : caps) : option (nat * caps) :=
  Some (i, c).

(** One attempt at index [i], where [s] is the subject from [i] on: the end
    index of the match and its groups. *)
Definition match_at (r : regex) (i : nat) (s : pystr) : option (nat * caps) :=
  run r i s [] accept.

(** [r+], [r?], [r{n}] and literals. *)
Definition Plus (r : regex) : regex := Cat r (Rep true r).
Definition Opt (r : regex) : regex := Alt r Eps.
Fixpoint Times (n : nat) (r : regex) : regex :=
  match n with
  | 0 => Eps
  | 1 => r
  | S n' => Cat r (Times n' r)
  end.
Fixpoint Lit (s : pystr) : regex :=
  match s with
  | [] => Eps
  | [a] => Cls (is_char a)
  | a :: s' => Cat (Cls (is_char a)) (Lit s')
  end.
(** [r{1,2}] and [r{1,3}], greedy. *)
Definition Upto2 (r : regex) : regex := Cat r (Opt r).
Definition Upto3 (r : regex) : regex := Cat r (Opt (Cat r (Opt r))).
(** A list of alternatives [r1|r2|...]. *)
Fixpoint Alts (rs : list regex) : regex :=
  match rs with
  | [] => Cls (fun _ => false)
  | [r] => r
  | r :: rs' => Alt r (Alts rs')
  end.
(** A sequence [r1 r2 ...]. *)
Fixpoint Seq (rs : list regex) : regex :=
  match rs with
  | [] => Eps
  | [r] => r
  | r :: rs' => Cat r (Seq rs')
  end.

Definition digit : regex := Cls is_digit.
Definition space : regex := Cls is_space.
Definition dot : regex := Cls not_newline.

(** A match object: where the match starts and ends, and its groups. *)
Record rmatch : Type := mk_rmatch {
  m_start : nat;
  m_end : nat;
  m_groups : caps
}.

(** [pattern.match(s)] *)
Definition re_match (r : regex) (s : pystr) : option rmatch :=
  match match_at r 0 s with
  | Some (e, c) => Some (mk_rmatch 0 e c)
  | None => None
  end.

(** The scan shared by [search], [findall], [finditer] and [sub]: try the
    pattern at [i], then further right.  None of the patterns scanned for
    matches the empty text; after an empty match the scan moves on by one
    character. *)
Fixpoint scan (r : regex) (fuel : nat) (i : nat) (s : pystr) : list rmatch :=
  match fuel with
  | 0 => []
  | S fuel' =>
      match match_at r i s with
      | Some (e, c) =>
          mk_rmatch i e c ::
          (if i <? e then scan r fuel' e (skipn (e - i) s)
           else match s with
                | [] => []
                | _ :: s' => scan r fuel' (S i) s'
                end)
      | None =>
          match s with
          | [] => []
          | _ :: s' => scan r fuel' (S i) s'
          end
      end
  end.

(** [pattern.finditer(s)] *)
Definition finditer (r : regex) (s : pystr) : list rmatch :=
  scan r (S (length s)) 0 s.

(** [pattern.search(s)] *)
Definition re_search (r : regex) (s : pystr) : option rmatch :=
  hd_error (finditer r s).

(** [m.group(0)] for a match in [s] *)
Definition group0 (s : pystr) (m : rmatch) : pystr :=
  firstn (m_end m - m_start m) (skipn (m_start m) s).

(** [findall] for a pattern without groups: the matched texts. *)
Definition findall0 (r : regex) (s : pystr) : list pystr :=
  map (group0 s) (finditer r s).

(** [findall] for a pattern with the single group 1. *)
Definition findall1 (r : regex) (s : pystr) : list pystr :=
  map (fun m => match group 1 (m_groups m) with
                | Some w => w
                | None => []
                end) (finditer r s).

(** [re.sub(r, repl, s)] for a pattern that matches no empty text. *)
Fixpoint sub_from (repl : pystr) (ms : list rmatch)
    (i : nat) (s : pystr) : pystr :=
  match ms with
  | [] => s
  | m :: ms' =>
      firstn (m_start m - i) s ++ repl ++
      sub_from repl ms' (m_end m) (skipn (m_end m - i) s)
  end.

Definition re_sub (r : regex) (repl : pystr) (s : pystr) : pystr :=
  sub_from repl (finditer r s) 0 s.

(** ** Numbers *)

Definition digit_val (a : ascii) : N := N.of_nat (code a - 48).

(** [int(s)] on a text of decimal digits. *)
Definition int_of (s : pystr) : N :=
  fold_left (fun acc a => (10 * acc + digit_val a)%N) s 0%N.

Fixpoint span (p : ascii -> bool) (s : pystr) : pystr * pystr :=
  match s with
  | a :: s' =>
      if p a then let (l, r) := span p s' in (a :: l, r) else ([], s)
  | [] => ([], [])
  end.

(** The value of the unsigned numeral made of the integer digits [ip] and
    the fraction digits [fp]. *)
Definition decimal (ip fp : pystr) : Q :=
  Qred (Z.of_N (int_of (ip ++ fp)) # Z.to_pos (10 ^ Z.of_nat (length fp))).

(** [float(s)] for an unsigned numeral: digits with at most one point and
    at least one digit; anything else raises ValueError. *)
Definition unsigned_float (s : pystr) : option Q :=
  let (ip, rest) := span is_digit s in
  match rest with
  | [] => match ip with [] => None | _ => Some (decimal ip []) end
  | a :: fp =>
      if is_char "."%char a && forallb is_digit fp
         && negb (Nat.eqb (length ip + length fp) 0)
      then Some (decimal ip fp)
      else None
  end.

(** [float(s)] on the texts the numeric groups of the patterns capture:
    digits, points and a leading sign.  (Exponents, blanks, underscores,
    [inf] and [nan] are not characters of such a text.) *)
Definition float (s : pystr) : option Q :=
  match s with
  | a :: s' =>
      if is_char "-"%char a then option_map Qopp (unsigned_float s')
      else if is_char "+"%char a then unsigned_float s'
      else unsigned_float s
  | [] => None
  end.

(** ** Dates *)

Definition is_leap (y : N) : bool :=
  ((y mod 4 =? 0) && negb (y mod 100 =? 0) || (y mod 400 =? 0))%N.

Definition days_in_month (y m : N) : N :=
  match m with
  | 1 | 3 | 5 | 7 | 8 | 10 | 12 => 31
  | 4 | 6 | 9 | 11 => 30
  | 2 => if is_leap y then 29 else 28
  | _ => 0
  end%N.

(** What the constructor of [datetime.date] accepts. *)
Definition valid_date (y m d : N) : bool :=
  ((1 <=? y) && (y <=? 9999) && (1 <=? m) && (m <=? 12)
   && (1 <=? d) && (d <=? days_in_month y m))%N.

Record pydate : Type := mk_date { year : N; month : N; day : N }.

Definition digit_char (n : N) : ascii := ascii_of_N (48 + n mod 10).

Definition pad2 (n : N) : pystr := [digit_char (n / 10); digit_char n].
Definition pad4 (n : N) : pystr :=
  [digit_char (n / 1000); digit_char (n / 100); digit_char (n / 10);
   digit_char n].

Fixpoint drop_zeros (s : pystr) : pystr :=
  match s with
  | a :: s' => if is_char "0" a then drop_zeros s' else s
  | [] => []
  end.

(** [%Y] as the C library of the deployment prints it: the year of a date
    (1..9999) in decimal, four digits from the year 1000 on and not padded
    below. *)
Definition year_text (y : N) : pystr := drop_zeros (pad4 y).

(** [d.strftime("%Y-%m-%d")] *)
Definition strftime_iso (d : pydate) : pystr :=
  year_text (year d) ++ py "-" ++ pad2 (month d) ++ py "-" ++ pad2 (day d).

(** The directives of [_strptime.TimeRE], with the group that records each
    field: 1 day, 2 month number, 3 month name, 4 two-digit year, 5 year. *)
Definition range (lo hi : ascii) : regex :=
  Cls (fun a => in_range (code lo) (code hi) a).
Definition chr (c : ascii) : regex := Cls (is_char c).

(** [3[0-1]|[1-2]\d|0[1-9]|[1-9]| [1-9]] *)
Definition dir_d : regex :=
  Grp 1 (Alts [Cat (chr "3") (range "0" "1");
               Cat (range "1" "2") digit;
               Cat (chr "0") (range "1" "9");
               range "1" "9";
               Cat (chr " ") (range "1" "9")]).

(** [1[0-2]|0[1-9]|[1-9]] *)
Definition dir_m : regex :=
  Grp 2 (Alts [Cat (chr "1") (range "0" "2");
               Cat (chr "0") (range "1" "9");
               range "1" "9"]).

Definition lower (a : ascii) : ascii :=
  if is_upper a then ascii_of_nat (code a + 32) else a.

(** A literal under IGNORECASE. *)
Fixpoint LitI (s : pystr) : regex :=
  match s with
  | [] => Eps
  | [a] => Cls (fun b => is_char a (lower b))
  | a :: s' => Cat (Cls (fun b => is_char a (lower b))) (LitI s')
  end.

Definition month_abbr : list pystr :=
  map py ["jan"; "feb"; "mar"; "apr"; "may"; "jun";
          "jul"; "aug"; "sep"; "oct"; "nov"; "dec"]%string.

(** [jan|feb|...|dec] under IGNORECASE (the C locale) *)
Definition dir_b : regex := Grp 3 (Alts (map LitI month_abbr)).
Definition dir_y : regex := Grp 4 (Cat digit digit).
Definition dir_Y : regex := Grp 5 (Times 4 digit).

Fixpoint index_of (w : pystr) (l : list pystr) (n : nat) : option nat :=
  match l with
  | [] => None
  | x :: l' =>
      if list_eq_dec ascii_dec w x then Some n else index_of w l' (S n)
  end.

(** The fields of a successful match, as [_strptime] converts them. *)
Definition strptime_fields (c : caps) : option pydate :=
  let y :=
    match group 5 c, group 4 c with
    | Some w, _ => Some (int_of w)
    | None, Some w =>
        let v := int_of w in
        Some (if (v <=? 68)%N then (v + 2000)%N else (v + 1900)%N)
    | None, None => None
    end in
  let m :=
    match group 2 c, group 3 c with
    | Some w, _ => Some (int_of w)
    | None, Some w =>
        option_map N.of_nat (index_of (map lower w) month_abbr 1)
    | None, None => None
    end in
  let d := option_map (fun w => int_of (lstrip w)) (group 1 c) in
  match y, m, d with
  | Some y, Some m, Some d =>
      if valid_date y m d then Some (mk_date y m d) else None
  | _, _, _ => None
  end.

(** [datetime.strptime(s, fmt)] where [fmt_re] is the pattern built from
    [fmt]: the pattern must match at the start and use up the text, and the
    fields must form a date; [None] is ValueError. *)
Definition strptime (fmt_re : regex) (s : pystr) : option pydate :=
  match re_match fmt_re s with
  | Some m =>
      if Nat.eqb (m_end m) (length s) then strptime_fields (m_groups m)
      else None
  | None => None
  end.

(** ["%Y-%m-%d"], ["%d/%m/%Y"], ["%d/%m/%y"] and ["%d %b %y"] (a blank of
    the format stands for [\s+]). *)
Definition fmt_Y_m_d : regex := Seq [dir_Y; chr "-"; dir_m; chr "-"; dir_d].
Definition fmt_d_m_Y : regex := Seq [dir_d; chr "/"; dir_m; chr "/"; dir_Y].
Definition fmt_d_m_y : regex := Seq [dir_d; chr "/"; dir_m; chr "/"; dir_y].
Definition fmt_d_b_y : regex :=
  Seq [dir_d; Plus space; dir_b; Plus space; dir_y].

(** ** Transactions and the shared plumbing of the scripts *)

Record txn : Type := mk_txn {
  id : pystr;
  date : pystr;
  description : pystr;
  amount : Q
}.

(** A run of a script: the list it prints, or an exception that ends the
    run without output (exit status 1). *)
Inductive outcome (A : Type) : Type :=
| Done : A -> outcome A
| Raised : outcome A.
Arguments Raised {A}.

Definition bind {A B : Type} (x : outcome A) (f : A -> outcome B)
  : outcome B :=
  match x with
  | Done a => f a
  | Raised => Raised
  end.

(** [for x in xs: acc = body(acc, x)], stopping at the first exception. *)
Fixpoint for_each {A S : Type} (body : S -> A -> outcome S) (xs : list A)
    (acc : S) : outcome S :=
  match xs with
  | [] => Done acc
  | x :: xs' => bind (body acc x) (for_each body xs')
  end.

(** [m.group(n)] of a group that takes part in every match. *)
Definition grp (n : nat) (m : rmatch) : pystr :=
  match group n (m_groups m) with
  | Some w => w
  | None => []
  end.

(** [full_text += text + "\n"] over the pages that have text. *)
Definition full_text (pages : list pystr) : pystr :=
  flat_map (fun text => match text with
                        | [] => []
                        | _ => text ++ [newline]
                        end) pages.

(** [dict.get(key, default)] *)
Fixpoint dict_get (d : list (pystr * pystr)) (key default : pystr) : pystr :=
  match d with
  | [] => default
  | (k, v) :: d' =>
      if list_eq_dec ascii_dec key k then v else dict_get d' key default
  end.

(** [d[key]], KeyError being [None]. *)
Fixpoint dict_lookup (d : list (pystr * pystr)) (key : pystr)
  : option pystr :=
  match d with
  | [] => None
  | (k, v) :: d' =>
      if list_eq_dec ascii_dec key k then Some v else dict_lookup d' key
  end.

Definition pairs (l : list (string * string)) : list (pystr * pystr) :=
  map (fun kv => (py (fst kv), py (snd kv))) l.

(** [[\d,.]] and [[\d,]] *)
Definition num_char : regex :=
  Cls (fun a => is_digit a || is_char "," a || is_char "." a).
Definition digit_comma : regex :=
  Cls (fun a => is_digit a || is_char "," a).
Definition alpha : regex := Cls is_alpha.
Definition upper : regex := Cls is_upper.

(** [\d{1,3}(?:,\d{3})*\.\d{2}]: the decimal token with thousands
    separators. *)
Definition decimal_token : regex :=
  Seq [Upto3 digit; Rep true (Cat (chr ",") (Times 3 digit));
       chr "."; Times 2 digit].

(** [transactions.append({"id": str(uuid.uuid4()), ...})], where [uuid4 k]
    is the text of the k-th call of [uuid.uuid4()] in the run: every script
    draws one identifier per appended record and nowhere else, so the record
    appended to a list of [k] records holds the k-th draw. *)
Definition append (uuid4 : nat -> pystr) (transactions : list txn)
    (d desc : pystr) (a : Q) : list txn :=
  transactions ++ [mk_txn (uuid4 (length transactions)) d desc a].

(** *** local.py *)
Module Local.

Definition year_fallback : pystr := py "2023".

(** [^(\d{1,2})\s+([A-Za-z]{3})\s+([A-Z]{2})\s+(.*?)\s+([\d,.]+)?\s*
     ([\d,.]+)?\s*([\d,.]+)?\s*$] *)
Definition date_pattern : regex :=
  Seq [Bol;
       Grp 1 (Upto2 digit); Plus space;
       Grp 2 (Times 3 alpha); Plus space;
       Grp 3 (Times 2 upper); Plus space;
       Grp 4 (Rep false dot); Plus space;
       Opt (Grp 5 (Plus num_char)); Rep true space;
       Opt (Grp 6 (Plus num_char)); Rep true space;
       Opt (Grp 7 (Plus num_char)); Rep true space;
       Eol].

(** [^(\d{1,2})\s+([A-Za-z]{3})\s+(.*?)\s+([\d,.]+)\s*$] *)
Definition fallback_pattern : regex :=
  Seq [Bol;
       Grp 1 (Upto2 digit); Plus space;
       Grp 2 (Times 3 alpha); Plus space;
       Grp 3 (Rep false dot); Plus space;
       Grp 4 (Plus num_char); Rep true space;
       Eol].

Definition month_map : list (pystr * pystr) :=
  pairs [("Jan", "01"); ("Feb", "02"); ("Mar", "03"); ("Apr", "04");
         ("May", "05"); ("Jun", "06"); ("Jul", "07"); ("Aug", "08");
         ("Sep", "09"); ("Oct", "10"); ("Nov", "11"); ("Dec", "12")]%string.

Section Run.

Variable uuid4 : nat -> pystr.

(** The date of a matched line: [None] is the [continue] of the
    [except] branch. *)
Definition parsed_date (m : rmatch) : option pystr :=
  let day := zfill2 (grp 1 m) in
  let month := dict_get month_map (grp 2 m) (py "01") in
  let date_str := year_fallback ++ py "-" ++ month ++ py "-" ++ day in
  option_map strftime_iso (strptime fmt_Y_m_d date_str).

(** The body of the primary loop (lines 62-89). *)
Definition primary_step (transactions : list txn) (line : pystr)
  : outcome (list txn) :=
  match re_match date_pattern (strip line) with
  | Some m =>
      match parsed_date m with
      | None => Done transactions
      | Some d =>
          let desc := strip (grp 4 m) in
          match group 5 (m_groups m), group 6 (m_groups m) with
          | Some money_out, _ =>
              match float (remove_commas money_out) with
              | Some v => Done (append uuid4 transactions d desc (- v)%Q)
              | None => Raised
              end
          | None, Some money_in =>
              match float (remove_commas money_in) with
              | Some v => Done (append uuid4 transactions d desc v)
              | None => Raised
              end
          | None, None => Done transactions
          end
      end
  | None => Done transactions
  end.

(** The body of the fallback loop (lines 93-112). *)
Definition fallback_step (transactions : list txn) (line : pystr)
  : outcome (list txn) :=
  match re_match fallback_pattern (strip line) with
  | Some m =>
      match parsed_date m with
      | None => Done transactions
      | Some d =>
          let desc := strip (grp 3 m) in
          match float (remove_commas (grp 4 m)) with
          | Some v => Done (append uuid4 transactions d desc (- v)%Q)
          | None => Raised
          end
      end
  | None => Done transactions
  end.

Definition primary_pass (lines : list pystr) : outcome (list txn) :=
  for_each primary_step lines [].

Definition fallback_pass (lines : list pystr) : outcome (list txn) :=
  for_each fallback_step lines [].

(** The two passes over the lines (lines 62-112): [if not transactions]
    decides on the fallback. *)
Definition parse_lines (lines : list pystr) : outcome (list txn) :=
  bind (primary_pass lines)
       (fun transactions =>
          match transactions with
          | [] => for_each fallback_step lines transactions
          | _ :: _ => Done transactions
          end).

Definition parse (pages : list pystr) : outcome (list txn) :=
  parse_lines (splitlines (full_text pages)).

End Run.

End Local.

(** *** parse_pdf_amex.py *)
Module Amex.

Definition month_map : list (pystr * pystr) :=
  pairs [("January", "01"); ("February", "02"); ("March", "03");
         ("April", "04"); ("May", "05"); ("June", "06"); ("July", "07");
         ("August", "08"); ("September", "09"); ("October", "10");
         ("November", "11"); ("December", "12")]%string.

(** [^(January|...|December)(\d{1,2})\s+(.+?)\s+(\d+\.\d{2})$] *)
Definition date_line_pattern : regex :=
  Seq [Bol;
       Grp 1 (Alts (map (fun kv => Lit (fst kv)) month_map));
       Grp 2 (Upto2 digit); Plus space;
       Grp 3 (Cat dot (Rep false dot)); Plus space;
       Grp 4 (Seq [Plus digit; chr "."; Times 2 digit]);
       Eol].

Definition marker : pystr := py "Reference:".

(** [next_line.split("Reference:")[1]] for a line that holds the marker:
    the text between its first occurrence and the next one. *)
Definition after_marker (next_line : pystr) : pystr :=
  match find marker next_line with
  | Some i =>
      let rest := skipn (i + length marker) next_line in
      match find marker rest with
      | Some j => firstn j rest
      | None => rest
      end
  | None => []
  end.

Section Run.

Variable uuid4 : nat -> pystr.

(** One turn of the [while] loop (lines 49-81) at the line [line], with the
    lines after it in [rest]: the turn looks at the next line for a
    reference and leaves it to the next turn. *)
Definition step (transactions : list txn) (line : pystr) (rest : list pystr)
  : outcome (list txn) :=
  match re_match date_line_pattern (strip line) with
  | Some m =>
      let day := zfill2 (grp 2 m) in
      let desc := strip (grp 3 m) in
      match float (grp 4 m), dict_lookup month_map (grp 1 m) with
      | Some a, Some mm =>
          let date_str := py "2025-" ++ mm ++ py "-" ++ day in
          let reference_line :=
            match rest with
            | next :: _ =>
                let next_line := strip next in
                if contains marker next_line
                then strip (after_marker next_line)
                else []
            | [] => []
            end in
          let full_description :=
            match reference_line with
            | [] => desc
            | _ => desc ++ py " Ref:" ++ reference_line
            end in
          Done (append uuid4 transactions date_str full_description (- a)%Q)
      | _, _ => Raised
      end
  | None => Done transactions
  end.

Fixpoint loop (transactions : list txn) (lines : list pystr)
  : outcome (list txn) :=
  match lines with
  | [] => Done transactions
  | line :: rest => bind (step transactions line rest) (fun t => loop t rest)
  end.

Definition parse_lines (lines : list pystr) : outcome (list txn) :=
  loop [] lines.

Definition parse (pages : list pystr) : outcome (list txn) :=
  parse_lines (splitlines (full_text pages)).

End Run.

End Amex.

(** *** parse_pdf_anz.py *)
Module Anz.

(** The groups of [pattern]: 1 the whole row, 2 date_processed,
    3 date_transaction, 4 card, 5 description, 6 amount, 7 credit_label,
    8 balance. *)
Definition slash_date : regex :=
  Seq [Times 2 digit; chr "/"; Times 2 digit; chr "/"; Times 4 digit].

(** [[\d,]+\.\d{2}] *)
Definition money : regex := Seq [Plus digit_comma; chr "."; Times 2 digit].

Definition pattern : regex :=
  Grp 1 (Seq [Grp 2 slash_date; Plus space;
              Grp 3 slash_date; Plus space;
              Grp 4 (Times 4 digit); Plus space;
              Grp 5 (Rep false dot); Plus space;
              Opt (chr "$"); Grp 6 money; Rep true space;
              Opt (Grp 7 (Lit (py "CR"))); Plus space;
              Opt (chr "$"); Grp 8 money]).

Section Run.

Variable uuid4 : nat -> pystr.

(** The body of the loop over the matches (lines 41-57); both [strptime]
    and [float] sit under the one [try] of the script. *)
Definition step (transactions : list txn) (m : rmatch)
  : outcome (list txn) :=
  let raw_date := grp 3 m in
  match strptime fmt_d_m_Y raw_date with
  | Some date_obj =>
      let date_iso := strftime_iso date_obj in
      match float (remove_commas (grp 6 m)) with
      | Some a =>
          let signed_amount :=
            match group 7 (m_groups m) with
            | Some _ => a
            | None => (- a)%Q
            end in
          Done (append uuid4 transactions date_iso (strip (grp 5 m))
                       signed_amount)
      | None => Raised
      end
  | None => Raised
  end.

Definition parse_text (text : pystr) : outcome (list txn) :=
  for_each step (finditer pattern text) [].

Definition parse (pages : list pystr) : outcome (list txn) :=
  parse_text (full_text pages).

End Run.

End Anz.

(** *** parse_pdf_cba.py *)
Module Cba.

(** [^(\d{1,2})\s+([A-Za-z]+)\s+(\d{4})] *)
Definition date_pattern : regex :=
  Seq [Bol; Grp 1 (Upto2 digit); Plus space;
       Grp 2 (Plus alpha); Plus space;
       Grp 3 (Times 4 digit)].

(** [(-?\d{1,3}(?:,\d{3})*(?:\.\d{2}))] *)
Definition amount_pattern : regex :=
  Grp 1 (Cat (Opt (chr "-")) decimal_token).

Definition MONTH_MAP : list (pystr * pystr) := Amex.month_map.

(** [f"{year}-{MONTH_MAP.get(month, '01')}-{day.zfill(2)}"] *)
Definition date_iso (date_match : rmatch) : pystr :=
  let day := grp 1 date_match in
  let month := grp 2 date_match in
  let year := grp 3 date_match in
  year ++ py "-" ++ dict_get MONTH_MAP month (py "01") ++ py "-"
       ++ zfill2 day.

(** [line[date_match.end():].strip()] *)
Definition remaining (line : pystr) (date_match : rmatch) : pystr :=
  strip (skipn (m_end date_match) line).

(** The test of line 40. *)
Definition is_balance_line (line : pystr) : bool :=
  contains (py "OPENING BALANCE") line || contains (py "CLOSING BALANCE") line.

(** [amounts[-1]] when [amounts] is not empty. *)
Definition last_amount (rem : pystr) : option pystr :=
  let amounts := findall1 amount_pattern rem in
  match amounts with
  | [] => None
  | _ => Some (last amounts [])
  end.

Section Run.

Variable uuid4 : nat -> pystr.

(** The balance-marker branch (lines 40-55). *)
Definition balance_row (transactions : list txn) (line : pystr) : list txn :=
  let d :=
    match re_search date_pattern line with
    | Some date_match => date_iso date_match
    | None => []
    end in
  let desc :=
    if contains (py "OPENING") line then py "OPENING BALANCE"
    else py "CLOSING BALANCE" in
  append uuid4 transactions d desc 0%Q.

(** The transaction branch (lines 57-83). *)
Definition transaction_row (transactions : list txn) (line : pystr)
  : outcome (list txn) :=
  match re_match date_pattern line with
  | Some date_match =>
      let rem := remaining line date_match in
      match last_amount rem with
      | Some tok =>
          match float (remove_commas tok) with
          | Some a =>
              let last_amount_pos := rfind tok rem in
              let desc := strip (slice_to rem last_amount_pos) in
              Done (append uuid4 transactions (date_iso date_match) desc
                           (- a)%Q)
          | None => Raised
          end
      | None =>
          Done (append uuid4 transactions (date_iso date_match) rem (- 0)%Q)
      end
  | None => Done transactions
  end.

(** The body of the loop over the lines of a page (lines 36-83). *)
Definition step (transactions : list txn) (l : pystr) : outcome (list txn) :=
  let line := strip l in
  if is_balance_line line then Done (balance_row transactions line)
  else transaction_row transactions line.

Definition parse_lines (lines : list pystr) : outcome (list txn) :=
  for_each step lines [].

(** The loop over the pages (lines 30-35). *)
Definition page_step (transactions : list txn) (text : pystr)
  : outcome (list txn) :=
  match text with
  | [] => Done transactions
  | _ => for_each step (splitlines text) transactions
  end.

Definition parse (pages : list pystr) : outcome (list txn) :=
  for_each page_step pages [].

End Run.

End Cba.

(** *** parse_pdf_westpac.py *)
Module Westpac.

(** [^\s*(\d{1,2}\s+[A-Za-z]{3}\s+\d{2})\s+(R)] where [R] is the greedy
    [.*] *)
Definition line_start_pattern : regex :=
  Seq [Bol; Rep true space;
       Grp 1 (Seq [Upto2 digit; Plus space; Times 3 alpha; Plus space;
                   Times 2 digit]);
       Plus space;
       Grp 2 (Rep true dot)].

(** [([\d,]+\.\d{2})] *)
Definition amount_pattern : regex := Grp 1 Anz.money.

(** [\s{2,}] *)
Definition blanks : regex := Seq [space; space; Rep true space].

(** Lines 41-45: the text before the last amount, or the placeholder. *)
Definition raw_description (rest_of_line amount_str : pystr) : pystr :=
  let last_amount_pos := rfind amount_str rest_of_line in
  let desc := strip (slice_to rest_of_line last_amount_pos) in
  match desc with
  | [] => py "-"
  | _ => if isnumeric desc then py "-" else desc
  end.

(** Line 60: [re.sub(r'\s{2,}', ' ', description)] *)
Definition clean (desc : pystr) : pystr := re_sub blanks (py " ") desc.

Section Run.

Variable uuid4 : nat -> pystr.

(** The body of the loop over the lines of a page (lines 30-62). *)
Definition step (transactions : list txn) (line : pystr)
  : outcome (list txn) :=
  match re_match line_start_pattern line with
  | None => Done transactions
  | Some line_match =>
      let date_str := grp 1 line_match in
      let rest_of_line := grp 2 line_match in
      let amounts_found := findall1 amount_pattern rest_of_line in
      match amounts_found with
      | [] => Done transactions
      | _ =>
          let amount_str := last amounts_found [] in
          let desc := raw_description rest_of_line amount_str in
          match strptime fmt_d_b_y date_str with
          | None => Done transactions
          | Some date_obj =>
              match float (remove_commas amount_str) with
              | Some a =>
                  let a' :=
                    if negb (contains (py "CRED VOUCHER") desc)
                    then (a * (-1 # 1))%Q else a in
                  Done (append uuid4 transactions (strftime_iso date_obj)
                               (clean desc) a')
              | None => Raised
              end
          end
      end
  end.

(** The body of [for page_num in [2, 3, 4]] (lines 22-62). *)
Definition page_step (pages : list pystr) (transactions : list txn)
    (page_num : nat) : outcome (list txn) :=
  match nth_error pages page_num with
  | None => Done transactions
  | Some text =>
      match text with
      | [] => Done transactions
      | _ => for_each step (split_nl text) transactions
      end
  end.

Definition parse (pages : list pystr) : outcome (list txn) :=
  for_each (page_step pages) [2; 3; 4] [].

End Run.

End Westpac.

(** *** parse_pdf_westpac_credit_card.py *)
Module WestpacCard.

(** [^(\d{2}/\d{2}/\d{2})\s+(R)] where [R] is the greedy [.*] *)
Definition date_pattern : regex :=
  Seq [Bol;
       Grp 1 (Seq [Times 2 digit; chr "/"; Times 2 digit; chr "/";
                   Times 2 digit]);
       Plus space;
       Grp 2 (Rep true dot)].

(** [re.findall(r"\d{1,3}(?:,\d{3})*\.\d{2}", line)] *)
Definition amount_tokens (line : pystr) : list pystr :=
  findall0 decimal_token line.

(** The test of line 49: at least two decimal tokens. *)
Definition is_amounts_line (line : pystr) : bool :=
  2 <=? length (amount_tokens line).

(** The inner [while True] loop (lines 44-55), started with the lines that
    follow the operative line: the description parts, the amounts line
    (empty when the lines run out first) and the lines left for the outer
    loop. *)
Fixpoint accumulate (description_parts : list pystr) (following : list pystr)
  : list pystr * pystr * list pystr :=
  match following with
  | [] => (description_parts, [], [])
  | next :: rest =>
      let next_line := strip next in
      if is_amounts_line next_line then (description_parts, next_line, rest)
      else accumulate (description_parts ++ [next_line]) rest
  end.

(** Lines 59-70: the debit and the credit slot. *)
Definition slots (amounts : list pystr) (full_description : pystr)
  : pystr * pystr :=
  match amounts with
  | [debit; credit; _] => (debit, credit)
  | [amt; _] =>
      if contains (py "Deposit") full_description
         || contains (py "Refund") full_description
      then ([], amt)
      else (amt, [])
  | _ => ([], [])
  end.

Section Run.

Variable uuid4 : nat -> pystr.

(** Lines 59-86: the record built from the description and the tokens of
    the amounts line, or none ([else: i += 1; continue]). *)
Definition settle (transactions : list txn) (parsed_date : pystr)
    (full_description : pystr) (amounts : list pystr) : outcome (list txn) :=
  let (debit, credit) := slots amounts full_description in
  match debit, credit with
  | _ :: _, _ =>
      match float (remove_commas debit) with
      | Some a =>
          Done (append uuid4 transactions parsed_date full_description
                       (- a)%Q)
      | None => Raised
      end
  | [], _ :: _ =>
      match float (remove_commas credit) with
      | Some a =>
          Done (append uuid4 transactions parsed_date full_description a)
      | None => Raised
      end
  | [], [] => Done transactions
  end.

(** Lines 41-86 for an operative line with date [parsed_date] and text
    [first] after the date: the list after the turn and the lines left. *)
Definition assemble (transactions : list txn) (parsed_date first : pystr)
    (following : list pystr) : outcome (list txn) * list pystr :=
  let '(description_parts, amounts_line, rest) :=
    accumulate [strip first] following in
  let full_description := join (py " ") description_parts in
  (settle transactions parsed_date full_description
          (amount_tokens amounts_line), rest).

(** The outer [while i < len(lines)] loop (lines 30-88); [lines] is
    [lines[i:]].  A turn uses up at least one line, so [fuel] turns are
    enough for [fuel] lines. *)
Fixpoint loop (fuel : nat) (transactions : list txn) (lines : list pystr)
  : outcome (list txn) :=
  match fuel, lines with
  | _, [] => Done transactions
  | 0, _ :: _ => Done transactions
  | S fuel', l :: following =>
      let line := strip l in
      match re_match date_pattern line with
      | Some m =>
          match option_map strftime_iso (strptime fmt_d_m_y (grp 1 m)) with
          | None => loop fuel' transactions following
          | Some parsed_date =>
              let (res, rest) :=
                assemble transactions parsed_date (grp 2 m) following in
              bind res (fun t => loop fuel' t rest)
          end
      | None => loop fuel' transactions following
      end
  end.

Definition parse_lines (lines : list pystr) : outcome (list txn) :=
  loop (length lines) [] lines.

Definition parse (pages : list pystr) : outcome (list txn) :=
  parse_lines (splitlines (full_text pages)).

End Run.

End WestpacCard.

(** ** Vocabulary of the statements *)

(** The texts a pattern can match, whatever the priorities of the matcher;
    anchors and groups match what their body matches. *)
Inductive lang : regex -> pystr -> Prop :=
| lang_eps : lang Eps []
| lang_cls : forall p a, p a = true -> lang (Cls p) [a]
| lang_cat : forall r1 r2 w1 w2,
    lang r1 w1 -> lang r2 w2 -> lang (Cat r1 r2) (w1 ++ w2)
| lang_alt_l : forall r1 r2 w, lang r1 w -> lang (Alt r1 r2) w
| lang_alt_r : forall r1 r2 w, lang r2 w -> lang (Alt r1 r2) w
| lang_rep_nil : forall g r, lang (Rep g r) []
| lang_rep_cons : forall g r w1 w2,
    lang r w1 -> lang (Rep g r) w2 -> lang (Rep g r) (w1 ++ w2)
| lang_grp : forall n r w, lang r w -> lang (Grp n r) w
| lang_bol : lang Bol []
| lang_eol : lang Eol [].

(** [G n w]: a property of the text [w] of group [n].  [groups_ok G r]: the
    body of every group [n] of [r] matches only texts with [G n]. *)
Fixpoint groups_ok (G : nat -> pystr -> Prop) (r : regex) : Prop :=
  match r with
  | Cat r1 r2 | Alt r1 r2 => groups_ok G r1 /\ groups_ok G r2
  | Rep _ r1 => groups_ok G r1
  | Grp n r1 => (forall w, lang r1 w -> G n w) /\ groups_ok G r1
  | Eps | Cls _ | Bol | Eol => True
  end.

Definition caps_ok (G : nat -> pystr -> Prop) (c : caps) : Prop :=
  forall n w, In (n, w) c -> G n w.

(** [chars_ok P r]: every character class of [r] holds characters with
    [P] only. *)
Fixpoint chars_ok (P : ascii -> Prop) (r : regex) : Prop :=
  match r with
  | Cls p => forall a, p a = true -> P a
  | Cat r1 r2 | Alt r1 r2 => chars_ok P r1 /\ chars_ok P r2
  | Rep _ r1 | Grp _ r1 => chars_ok P r1
  | Eps | Bol | Eol => True
  end.

(** The value of a decimal token: [float(tok.replace(",", ""))], and 0
    where [float] raises. *)
Definition token_value (tok : pystr) : Q :=
  match float (remove_commas tok) with
  | Some v => v
  | None => 0%Q
  end.

Definition digit_or_comma (a : ascii) : Prop :=
  is_digit a = true \/ is_char "," a = true.

(** What a record holds apart from its identifier. *)
Definition content (t : txn) : pystr * pystr * Q :=
  (date t, description t, amount t).

Definition outcome_map {A B : Type} (f : A -> B) (x : outcome A)
  : outcome B :=
  match x with
  | Done a => Done (f a)
  | Raised => Raised
  end.

(** The first [n] draws of the identifier supply. *)
Definition draws (uuid4 : nat -> pystr) (n : nat) : list pystr :=
  map uuid4 (seq 0 n).

(** Two lists of records that agree on everything but the identifiers. *)
Definition same_content (l1 l2 : list txn) : Prop :=
  map content l1 = map content l2.

(** The identifiers of a list are the first draws of the supply, in order. *)
Definition ids_drawn (uuid4 : nat -> pystr) (l : list txn) : Prop :=
  map id l = draws uuid4 (length l).

(** Two runs end alike: both raise, or both print lists related by [R]. *)
Definition rel_out {A B : Type} (R : A -> B -> Prop)
    (x : outcome A) (y : outcome B) : Prop :=
  match x, y with
  | Done a, Done b => R a b
  | Raised, Raised => True
  | _, _ => False
  end.

(** A property of the list a run prints, if it prints one. *)
Definition when_done {A : Type} (P : A -> Prop) (x : outcome A) : Prop :=
  match x with
  | Done a => P a
  | Raised => True
  end.

(** A script, as a function of the identifier supply and of its input,
    prints the same records whatever the supply, identifiers apart, and the
    identifiers it prints are the draws of the supply in order. *)
Definition deterministic_modulo_id {X : Type}
    (script : (nat -> pystr) -> X -> outcome (list txn)) : Prop :=
  (forall uuid4 uuid4' x,
     rel_out same_content (script uuid4 x) (script uuid4' x)) /\
  (forall uuid4 x, when_done (ids_drawn uuid4) (script uuid4 x)).

(** [sets n r]: group [n] takes part in every match of [r]. *)
Fixpoint sets (n : nat) (r : regex) : bool :=
  match r with
  | Grp m r1 => Nat.eqb n m || sets n r1
  | Cat r1 r2 => sets n r1 || sets n r2
  | Alt r1 r2 => sets n r1 && sets n r2
  | Eps | Cls _ | Rep _ _ | Bol | Eol => false
  end.

(** The groups of [c] are groups of [c']. *)
Definition caps_le (c c' : caps) : Prop :=
  forall n, group n c <> None -> group n c' <> None.

(** [reachable i s i' s']: the text [s'] at index [i'] is what is left of
    the text [s] at index [i] after some characters; the matcher calls its
    continuation on such texts only. *)
Definition reachable (i : nat) (s : pystr) (i' : nat) (s' : pystr) : Prop :=
  i' + length s' = i + length s /\ i <= i'.

(** The continuation that refuses every match. *)
Definition fail (i : nat) (s : pystr) (c : caps) : option (nat * caps) :=
  None.

Definition no_minus (a : ascii) : Prop := is_char "-" a = false.

(** The number of blanks a text starts with. *)
Fixpoint lead (s : pystr) : nat :=
  match s with
  | a :: s' => if is_space a then S (lead s') else 0
  | [] => 0
  end.

(** What [re.sub(r'\s{2,}', ' ', s)] comes to: a run of two blanks or more
    gives one space, any other character is kept. *)
Fixpoint squeeze (fuel : nat) (s : pystr) : pystr :=
  match fuel with
  | 0 => s
  | S fuel' =>
      if 2 <=? lead s then " "%char :: squeeze fuel' (lstrip s)
      else match s with
           | [] => []
           | a :: s' => a :: squeeze fuel' s'
           end
  end.

(** A text that does not start, or end, with a blank. *)
Definition starts_clean (s : pystr) : Prop :=
  match s with
  | a :: _ => is_space a = false
  | [] => True
  end.

Fixpoint ends_clean (s : pystr) : Prop :=
  match s with
  | [] => True
  | [a] => is_space a = false
  | _ :: s' => ends_clean s'
  end.

(** A text without two blanks in a row. *)
Fixpoint single_spaced (s : pystr) : Prop :=
  match s with
  | a :: s' =>
      match s' with
      | b :: _ => ~ (is_space a = true /\ is_space b = true)
      | [] => True
      end /\ single_spaced s'
  | [] => True
  end.

(** A description as the Westpac script prints it: not empty, not made of
    digits only, trimmed, and without a run of blanks. *)
Definition tidy (desc : pystr) : Prop :=
  desc <> [] /\ isnumeric desc = false /\ strip desc = desc /\
  single_spaced desc.

(** A list of records none of which has a positive amount. *)
Definition debits (l : list txn) : Prop :=
  Forall (fun t => (amount t <= 0)%Q) l.

(** A text of the form dddd-dd-dd, each d a character of [\d]. *)
Definition iso_shaped (s : pystr) : bool :=
  match s with
  | [y1; y2; y3; y4; h1; m1; m2; h2; d1; d2] =>
      forallb is_digit [y1; y2; y3; y4; m1; m2; d1; d2]
      && is_char "-" h1 && is_char "-" h2
  | _ => false
  end.

(** A list of records whose dates are calendar dates, written dddd-dd-dd,
    of a year between [lo] and [hi]. *)
Definition dated_within (lo hi : N) (l : list txn) : Prop :=
  Forall (fun t =>
            exists d,
              date t = strftime_iso d /\
              valid_date (year d) (month d) (day d) = true /\
              (lo <= year d <= hi)%N /\
              iso_shaped (date t) = true) l.

(** A list of records whose descriptions are trimmed. *)
Definition trimmed_descriptions (l : list txn) : Prop :=
  Forall (fun t => strip (description t) = description t) l.

(** The content of [l1] is [pre] followed by the content of [l2]. *)
Definition content_after (pre : list (pystr * pystr * Q))
    (l1 l2 : list txn) : Prop :=
  map content l1 = pre ++ map content l2.

(** [mentions n r]: the pattern [r] has a group numbered [n]. *)
Fixpoint mentions (n : nat) (r : regex) : bool :=
  match r with
  | Grp m r1 => Nat.eqb n m || mentions n r1
  | Cat r1 r2 | Alt r1 r2 => mentions n r1 || mentions n r2
  | Rep _ r1 => mentions n r1
  | Eps | Cls _ | Bol | Eol => false
  end.

(** [pattern.match(s)] finds a match. *)
Definition matches (r : regex) (s : pystr) : bool :=
  match re_match r s with
  | Some _ => true
  | None => false
  end.

(** The lines that match [r] once they are trimmed. *)
Definition matched_lines (r : regex) (lines : list pystr) : list pystr :=
  filter (fun l => matches r (strip l)) lines.

(** The lines of a CBA page that are rows: balance lines and dated lines. *)
Definition cba_rows (lines : list pystr) : list pystr :=
  filter (fun l => Cba.is_balance_line (strip l)
                   || matches Cba.date_pattern (strip l)) lines.

(** What the matcher goes on with after a part of a pattern. *)
Definition kont : Type := nat -> pystr -> caps -> option (nat * caps).

(** Where [k] finds a match, whatever the groups so far, [k'] finds one. *)
Definition wins_le (k k' : kont) : Prop :=
  forall i s c c', k i s c <> None -> k' i s c' <> None.

(** Whether [k] finds a match does not depend on the groups so far. *)
Definition blind (k : kont) : Prop := wins_le k k.

(** [k] still finds a match after one blank less. *)
Definition blank_shift (k : kont) : Prop :=
  forall i a u c c',
    is_space a = true -> k i (a :: u) c <> None -> k (S i) u c' <> None.

(** The parts of the tail of [Local.date_pattern]: the end of the line,
    [\s*] and the optional numeral [([\d,.]+)?] of group [n], each before
    what follows it. *)
Definition at_end : kont := fun i s c => run Eol i s c accept.
Definition after_blanks (k : kont) : kont :=
  fun i s c => run (Rep true space) i s c k.
Definition with_numeral (n : nat) (k : kont) : kont :=
  fun i s c => run (Opt (Grp n (Plus num_char))) i s c k.

(** The tail of [Local.date_pattern] from the Money Out column on. *)
Definition local_tail : kont :=
  with_numeral 5
    (after_blanks
       (with_numeral 6 (after_blanks (with_numeral 7 (after_blanks at_end))))).

(** The date of an Amex record: 2025, a value of [month_map], and the day
    as the pattern took it, one or two characters of [\d], padded with a
    zero to two characters. *)
Definition amex_dated (d : pystr) : Prop :=
  exists mm day,
    In mm (map snd Amex.month_map) /\ lang (Upto2 digit) day /\
    d = py "2025-" ++ mm ++ py "-" ++ zfill2 day.

(** The date of a dated CBA row: the year as the pattern took it, four
    characters of [\d], a value of [MONTH_MAP] or the default 01, and the
    day as the pattern took it, padded to two characters. *)
Definition cba_dated (d : pystr) : Prop :=
  exists year mm day,
    lang (Times 4 digit) year /\
    (mm = py "01" \/ In mm (map snd Cba.MONTH_MAP)) /\
    lang (Upto2 digit) day /\
    d = year ++ py "-" ++ mm ++ py "-" ++ zfill2 day.

(** A supply of identifiers for the examples. *)
Definition sample_uuid4 (k : nat) : pystr :=
  py "00000000-0000-4000-8000-" ++ pad4 (N.of_nat k).

(** * Properties *)

Arguments is_char : simpl never.
Arguments is_digit : simpl never.
Arguments is_space : simpl never.
Arguments is_numeric_char : simpl never.

(** ** The matcher is sound for [lang] *)

Lemma rep_loop_sound G g r
    (body : nat -> pystr -> caps ->
            (nat -> pystr -> caps -> option (nat * caps)) ->
            option (nat * caps)) :
  (forall i s c k x, body i s c k = Some x ->
     exists w s' c', s = w ++ s' /\ lang r w /\
       (caps_ok G c -> caps_ok G c') /\ k (i + length w) s' c' = Some x) ->
  forall k n i s c x, rep_loop body g k n i s c = Some x ->
    exists w s' c', s = w ++ s' /\ lang (Rep g r) w /\
      (caps_ok G c -> caps_ok G c') /\ k (i + length w) s' c' = Some x.
Proof.
  intros Hbody k n.
  assert (Hstop : forall i s c x, k i s c = Some x ->
            exists w s' c', s = w ++ s' /\ lang (Rep g r) w /\
              (caps_ok G c -> caps_ok G c') /\
              k (i + length w) s' c' = Some x).
  { intros i s c x Hk. exists [], s, c. simpl. rewrite Nat.add_0_r.
    repeat split; auto. constructor. }
  induction n as [|n IH]; intros i s c x H; simpl in H.
  - now apply Hstop.
  - assert (Hturn : forall y,
              body i s c
                (fun i' s' c' =>
                   if i <? i' then rep_loop body g k n i' s' c' else None)
              = Some y ->
              exists w s' c', s = w ++ s' /\ lang (Rep g r) w /\
                (caps_ok G c -> caps_ok G c') /\
                k (i + length w) s' c' = Some y).
    { intros y Hy. apply Hbody in Hy.
      destruct Hy as (w1 & s1 & c1 & -> & Hw1 & Hc1 & Hy).
      destruct (i <? i + length w1); [|discriminate].
      apply IH in Hy. destruct Hy as (w2 & s2 & c2 & -> & Hw2 & Hc2 & Hy).
      exists (w1 ++ w2), s2, c2. rewrite length_app, Nat.add_assoc.
      repeat split; auto.
      - now rewrite app_assoc.
      - now constructor. }
    destruct g.
    + destruct (body i s c _) as [y|] eqn:E.
      * inversion H; subst. now apply Hturn.
      * now apply Hstop.
    + destruct (k i s c) as [y|] eqn:E.
      * inversion H; subst. now apply Hstop.
      * now apply Hturn.
Qed.

Lemma run_sound G r :
  groups_ok G r ->
  forall i s c k x, run r i s c k = Some x ->
    exists w s' c', s = w ++ s' /\ lang r w /\
      (caps_ok G c -> caps_ok G c') /\ k (i + length w) s' c' = Some x.
Proof.
  induction r as [|p|r1 IH1 r2 IH2|r1 IH1 r2 IH2|g r1 IH1|n r1 IH1| |];
    simpl; intros HG i s c k x H.
  - exists [], s, c. simpl. rewrite Nat.add_0_r.
    repeat split; auto. constructor.
  - destruct s as [|a s']; [discriminate|].
    destruct (p a) eqn:Hp; [|discriminate].
    exists [a], s', c. simpl. rewrite Nat.add_1_r.
    repeat split; auto. now constructor.
  - destruct HG as [HG1 HG2].
    apply (IH1 HG1) in H. destruct H as (w1 & s1 & c1 & -> & Hw1 & Hc1 & H).
    apply (IH2 HG2) in H. destruct H as (w2 & s2 & c2 & -> & Hw2 & Hc2 & H).
    exists (w1 ++ w2), s2, c2. rewrite length_app, Nat.add_assoc.
    repeat split; auto.
    + now rewrite app_assoc.
    + now constructor.
  - destruct HG as [HG1 HG2].
    destruct (run r1 i s c k) as [y|] eqn:E.
    + inversion H; subst.
      apply (IH1 HG1) in E. destruct E as (w & s' & c' & -> & Hw & Hc & E).
      exists w, s', c'. repeat split; auto. now apply lang_alt_l.
    + apply (IH2 HG2) in H. destruct H as (w & s' & c' & -> & Hw & Hc & H).
      exists w, s', c'. repeat split; auto. now apply lang_alt_r.
  - eapply rep_loop_sound; eauto.
  - destruct HG as [HG0 HG1].
    apply (IH1 HG1) in H. destruct H as (w & s' & c' & -> & Hw & Hc & H).
    exists w, s', ((n, firstn (i + length w - i) (w ++ s')) :: c').
    repeat split; auto.
    + now constructor.
    + intros Hok m v [Hin|Hin].
      * inversion Hin; subst.
        replace (i + length w - i) with (length w + 0) by lia.
        rewrite firstn_app_2. simpl. rewrite app_nil_r. now apply HG0.
      * now apply (Hc Hok).
  - destruct (Nat.eqb i 0); [|discriminate].
    exists [], s, c. simpl. rewrite Nat.add_0_r.
    repeat split; auto. constructor.
  - destruct (at_eol s); [|discriminate].
    exists [], s, c. simpl. rewrite Nat.add_0_r.
    repeat split; auto. constructor.
Qed.

Lemma match_at_sound G r i s e c :
  groups_ok G r -> match_at r i s = Some (e, c) ->
  exists w s', s = w ++ s' /\ lang r w /\ e = i + length w /\ caps_ok G c.
Proof.
  intros HG H. unfold match_at in H.
  apply (run_sound G r HG) in H.
  destruct H as (w & s' & c' & -> & Hw & Hc & H).
  unfold accept in H. inversion H; subst.
  exists w, s'. repeat split; auto. apply Hc. intros n v [].
Qed.

Lemma group_in n c w : group n c = Some w -> In (n, w) c.
Proof.
  induction c as [|[m v] c IH]; simpl; [discriminate|].
  destruct (Nat.eqb_spec n m).
  - intros H. inversion H; subst. now left.
  - intros H. right. now apply IH.
Qed.

(** A group of a successful [match] holds a text of its body. *)
Lemma re_match_group G r s m n w :
  groups_ok G r -> re_match r s = Some m ->
  group n (m_groups m) = Some w -> G n w.
Proof.
  intros HG H Hg. unfold re_match in H.
  destruct (match_at r 0 s) as [[e c]|] eqn:E; [|discriminate].
  inversion H; subst. simpl in Hg.
  destruct (match_at_sound G r 0 s HG E) as (_ & _ & _ & _ & _ & Hc).
  apply Hc. now apply group_in.
Qed.

(** Every match of a scan starts at or after [i], covers a text of the
    pattern, and holds groups of the pattern. *)
Lemma scan_sound G r :
  groups_ok G r ->
  forall fuel i s m, In m (scan r fuel i s) ->
    i <= m_start m /\
    exists w s', skipn (m_start m - i) s = w ++ s' /\ lang r w /\
      m_end m = m_start m + length w /\ caps_ok G (m_groups m).
Proof.
  intros HG. induction fuel as [|fuel IH]; intros i s m Hin; simpl in Hin.
  - destruct Hin.
  - assert (Hskip : forall a s', s = a :: s' ->
              In m (scan r fuel (S i) s') ->
              i <= m_start m /\
              exists w s'', skipn (m_start m - i) s = w ++ s'' /\ lang r w /\
                m_end m = m_start m + length w /\ caps_ok G (m_groups m)).
    { intros a s' -> H. apply IH in H.
      destruct H as (Hle & w & s'' & Hs & Hw & He & Hc).
      split; [lia|]. exists w, s''. repeat split; auto.
      replace (m_start m - i) with (S (m_start m - S i)) by lia.
      exact Hs. }
    destruct (match_at r i s) as [[e c]|] eqn:E.
    + destruct (match_at_sound G r i s HG E) as (w & s' & Hs & Hw & He & Hc).
      destruct Hin as [<-|Hin].
      * simpl. split; [lia|]. rewrite Nat.sub_diag. simpl.
        exists w, s'. repeat split; auto.
      * destruct (Nat.ltb_spec i e).
        -- apply IH in Hin.
           destruct Hin as (Hle & w' & s'' & Hs' & Hw' & He' & Hc').
           split; [lia|]. exists w', s''. repeat split; auto.
           rewrite skipn_skipn in Hs'.
           replace (m_start m - i) with (m_start m - e + (e - i)) by lia.
           exact Hs'.
        -- destruct s as [|a s0]; [destruct Hin|]. now apply (Hskip a s0).
    + destruct s as [|a s0]; [destruct Hin|]. now apply (Hskip a s0).
Qed.

Lemma groups_ok_True r : groups_ok (fun _ _ => True) r.
Proof. induction r; simpl; auto. Qed.

(** [findall] with a pattern without groups returns texts of the pattern. *)
Lemma findall0_lang r s w : In w (findall0 r s) -> lang r w.
Proof.
  unfold findall0, finditer. intros H. apply in_map_iff in H.
  destruct H as (m & <- & Hin).
  apply (scan_sound _ r (groups_ok_True r)) in Hin.
  destruct Hin as (_ & w & s' & Hs & Hw & He & _).
  unfold group0. rewrite Nat.sub_0_r in Hs. rewrite Hs, He.
  replace (m_start m + length w - m_start m) with (length w + 0) by lia.
  rewrite firstn_app_2. simpl. now rewrite app_nil_r.
Qed.

Lemma groups_ok_weaken (G G' : nat -> pystr -> Prop) r :
  (forall n w, G n w -> G' n w) -> groups_ok G r -> groups_ok G' r.
Proof.
  intros HGG'. induction r; simpl; intuition.
Qed.

(** [findall] with a pattern that is one group returns texts of its body. *)
Lemma findall1_lang r s w :
  groups_ok (fun _ _ => False) r ->
  In w (findall1 (Grp 1 r) s) -> lang r w.
Proof.
  unfold findall1, finditer. intros HG0 H. apply in_map_iff in H.
  destruct H as (m & <- & Hin).
  set (G := fun (n : nat) (v : pystr) => n = 1 -> lang r v).
  assert (HG : groups_ok G (Grp 1 r)).
  { simpl. split; [now intros v Hv _|].
    apply (groups_ok_weaken (fun _ _ => False)); auto. now intros n v []. }
  assert (Hin' := Hin).
  apply (scan_sound G _ HG) in Hin.
  destruct Hin as (_ & v & s' & _ & _ & _ & Hc).
  destruct (group 1 (m_groups m)) as [u|] eqn:E.
  - apply group_in in E. now apply (Hc 1 u E).
  - (* the outer group takes part in every match *)
    exfalso. clear - Hin' E.
    assert (Hgrp : forall fuel i s0, In m (scan (Grp 1 r) fuel i s0) ->
                     group 1 (m_groups m) <> None).
    { induction fuel as [|fuel IH]; intros i s0 H; simpl in H; [destruct H|].
      destruct (match_at (Grp 1 r) i s0) as [[e c]|] eqn:Em.
      - destruct H as [<-|H].
        + simpl. unfold match_at in Em. simpl in Em.
          apply (run_sound _ r (groups_ok_True r)) in Em.
          destruct Em as (w & s1 & c1 & _ & _ & _ & Em).
          unfold accept in Em. inversion Em; subst. simpl. discriminate.
        + destruct (i <? e); [now apply IH in H|].
          destruct s0; [destruct H|now apply IH in H].
      - destruct s0; [destruct H|now apply IH in H]. }
    now apply Hgrp in Hin'.
Qed.

(** ** The fuel of the matcher is enough *)

Lemma rep_loop_ext g
    (body : nat -> pystr -> caps ->
            (nat -> pystr -> caps -> option (nat * caps)) ->
            option (nat * caps)) :
  (forall i s c k1 k2,
     (forall i' s' c', reachable i s i' s' -> k1 i' s' c' = k2 i' s' c') ->
     body i s c k1 = body i s c k2) ->
  forall n i s c k1 k2,
    (forall i' s' c', reachable i s i' s' -> k1 i' s' c' = k2 i' s' c') ->
    rep_loop body g k1 n i s c = rep_loop body g k2 n i s c.
Proof.
  intros Hbody. induction n as [|n IH]; intros i s c k1 k2 Hk; simpl.
  - apply Hk. split; auto.
  - assert (Hturn :
      body i s c
        (fun i' s' c' =>
           if i <? i' then rep_loop body g k1 n i' s' c' else None)
      = body i s c
          (fun i' s' c' =>
             if i <? i' then rep_loop body g k2 n i' s' c' else None)).
    { apply Hbody. intros i' s' c' [He Hle].
      destruct (i <? i'); auto. apply IH.
      intros i'' s'' c'' [He' Hle']. apply Hk. split; lia. }
    rewrite Hturn, (Hk i s c) by (split; auto). reflexivity.
Qed.

Lemma run_ext r :
  forall i s c k1 k2,
    (forall i' s' c', reachable i s i' s' -> k1 i' s' c' = k2 i' s' c') ->
    run r i s c k1 = run r i s c k2.
Proof.
  induction r as [|p|r1 IH1 r2 IH2|r1 IH1 r2 IH2|g r1 IH1|m r1 IH1| |];
    simpl; intros i s c k1 k2 Hk.
  - apply Hk. split; auto.
  - destruct s as [|a s']; auto. destruct (p a); auto.
    apply Hk. split; simpl; lia.
  - apply IH1. intros i' s' c' [He Hle]. apply IH2.
    intros i'' s'' c'' [He' Hle']. apply Hk. split; lia.
  - rewrite (IH1 i s c k1 k2 Hk), (IH2 i s c k1 k2 Hk). reflexivity.
  - apply rep_loop_ext; auto.
  - apply IH1. intros i' s' c' Hr. now apply Hk.
  - destruct (Nat.eqb i 0); auto. apply Hk. split; auto.
  - destruct (at_eol s); auto. apply Hk. split; auto.
Qed.

Lemma rep_loop_fail g
    (body : nat -> pystr -> caps ->
            (nat -> pystr -> caps -> option (nat * caps)) ->
            option (nat * caps)) :
  (forall i s c k1 k2,
     (forall i' s' c', reachable i s i' s' -> k1 i' s' c' = k2 i' s' c') ->
     body i s c k1 = body i s c k2) ->
  (forall i s c, body i s c fail = None) ->
  forall n i s c, rep_loop body g fail n i s c = None.
Proof.
  intros Hext Hbody. induction n as [|n IH]; intros i s c; simpl; auto.
  assert (Hturn :
    body i s c
      (fun i' s' c' =>
         if i <? i' then rep_loop body g fail n i' s' c' else None) = None).
  { transitivity (body i s c fail); [|apply Hbody].
    apply Hext. intros i' s' c' _. destruct (i <? i'); auto. }
  rewrite Hturn. destruct g; reflexivity.
Qed.

Lemma run_fail r : forall i s c, run r i s c fail = None.
Proof.
  induction r as [|p|r1 IH1 r2 IH2|r1 IH1 r2 IH2|g r1 IH1|m r1 IH1| |];
    simpl; intros i s c.
  - reflexivity.
  - destruct s as [|a s']; auto. destruct (p a); auto.
  - transitivity (run r1 i s c fail); [|apply IH1].
    apply run_ext. intros i' s' c' _. apply IH2.
  - now rewrite IH1, IH2.
  - apply rep_loop_fail; auto. intros. now apply run_ext.
  - transitivity (run r1 i s c fail); [|apply IH1].
    apply run_ext. reflexivity.
  - destruct (Nat.eqb i 0); auto.
  - destruct (at_eol s); auto.
Qed.

(** At the end of the text a repetition has no turn left to take. *)
Lemma rep_loop_nil r g k n i c :
  rep_loop (run r) g k n i [] c = k i [] c.
Proof.
  destruct n as [|n]; simpl; auto.
  assert (Hturn :
    run r i [] c
      (fun i' s' c' =>
         if i <? i' then rep_loop (run r) g k n i' s' c' else None) = None).
  { transitivity (run r i [] c fail); [|apply run_fail].
    apply run_ext. intros i' s' c' [He Hle]. simpl in He.
    replace (i <? i') with false; auto.
    symmetry. apply Nat.ltb_ge. lia. }
  rewrite Hturn. destruct g; auto. destruct (k i [] c); auto.
Qed.

(** The loop of a repetition stops for lack of text, never for lack of
    fuel: the length of the text is fuel enough. *)
Lemma rep_loop_fuel r g k :
  forall n1 n2 i s c,
    length s <= n1 -> length s <= n2 ->
    rep_loop (run r) g k n1 i s c = rep_loop (run r) g k n2 i s c.
Proof.
  induction n1 as [|n1 IH]; intros n2 i s c H1 H2.
  - destruct s; [|simpl in H1; lia]. now rewrite !rep_loop_nil.
  - destruct n2 as [|n2].
    + destruct s; [|simpl in H2; lia]. now rewrite !rep_loop_nil.
    + simpl.
      assert (Hturn :
        run r i s c
          (fun i' s' c' =>
             if i <? i' then rep_loop (run r) g k n1 i' s' c' else None)
        = run r i s c
            (fun i' s' c' =>
               if i <? i' then rep_loop (run r) g k n2 i' s' c' else None)).
      { apply run_ext. intros i' s' c' [He Hle].
        destruct (Nat.ltb_spec i i'); auto. apply IH; lia. }
      now rewrite Hturn.
Qed.

(** A scan stops for lack of text as well. *)
Lemma scan_fuel r :
  forall f1 f2 i s,
    length s < f1 -> length s < f2 -> scan r f1 i s = scan r f2 i s.
Proof.
  induction f1 as [|f1 IH]; intros f2 i s H1 H2; [lia|].
  destruct f2 as [|f2]; [lia|]. simpl.
  destruct (match_at r i s) as [[e c]|] eqn:E.
  - destruct (match_at_sound _ r i s (groups_ok_True r) E)
      as (w & s' & Hs & _ & He & _).
    assert (Hw : length s = length w + length s')
      by (rewrite Hs; apply length_app).
    f_equal. destruct (Nat.ltb_spec i e).
    + apply IH; rewrite length_skipn; lia.
    + destruct s as [|a s0]; auto. apply IH; simpl in *; lia.
  - destruct s as [|a s0]; auto. apply IH; simpl in *; lia.
Qed.

Lemma lang_chars P r w : chars_ok P r -> lang r w -> Forall P w.
Proof.
  intros HP H. induction H; simpl in HP; auto.
  - destruct HP. apply Forall_app. split; auto.
  - destruct HP. auto.
  - destruct HP. auto.
  - apply Forall_app. split; auto.
Qed.

(** ** Numerals *)

Ltac ascii_cases a := destruct a as [[] [] [] [] [] [] [] []].

Lemma digit_not_mark a :
  is_digit a = true ->
  is_char "," a = false /\ is_char "-" a = false /\
  is_char "+" a = false /\ is_char "." a = false.
Proof.
  intros H. ascii_cases a; vm_compute in H; try discriminate H;
    vm_compute; auto.
Qed.

Lemma span_digits ds rest :
  Forall (fun a => is_digit a = true) ds ->
  match rest with [] => True | a :: _ => is_digit a = false end ->
  span is_digit (ds ++ rest) = (ds, rest).
Proof.
  intros Hds Hrest. induction Hds as [|a ds Ha _ IH]; simpl.
  - destruct rest as [|b rest]; [reflexivity|]. simpl. now rewrite Hrest.
  - now rewrite Ha, IH.
Qed.

Lemma decimal_nonneg ip fp : (0 <= decimal ip fp)%Q.
Proof.
  unfold decimal. rewrite Qred_correct. unfold Qle. simpl. lia.
Qed.

Lemma unsigned_float_nonneg s v : unsigned_float s = Some v -> (0 <= v)%Q.
Proof.
  unfold unsigned_float. destruct (span is_digit s) as [ip rest].
  destruct rest as [|a fp].
  - destruct ip; [discriminate|]. intros H. inversion H. apply decimal_nonneg.
  - destruct (_ && _); [|discriminate].
    intros H. inversion H. apply decimal_nonneg.
Qed.

(** A numeral that does not start with a minus sign has a value that is
    not negative. *)
Lemma float_nonneg s v :
  float s = Some v ->
  match s with a :: _ => is_char "-" a = false | [] => True end ->
  (0 <= v)%Q.
Proof.
  unfold float. destruct s as [|a s']; [discriminate|]. intros H Ha.
  rewrite Ha in H. destruct (is_char "+" a); now apply unsigned_float_nonneg in H.
Qed.

Lemma unsigned_float_point ds fp :
  Forall (fun a => is_digit a = true) ds ->
  Forall (fun a => is_digit a = true) fp ->
  length ds + length fp <> 0 ->
  unsigned_float (ds ++ "."%char :: fp) = Some (decimal ds fp).
Proof.
  intros Hds Hfp Hlen. unfold unsigned_float.
  rewrite span_digits; auto.
  replace (forallb is_digit fp) with true
    by (symmetry; apply forallb_forall; now apply Forall_forall).
  destruct (Nat.eqb_spec (length ds + length fp) 0); [contradiction|].
  reflexivity.
Qed.

Lemma float_point ds fp :
  Forall (fun a => is_digit a = true) ds ->
  Forall (fun a => is_digit a = true) fp ->
  length ds + length fp <> 0 ->
  float (ds ++ "."%char :: fp) = Some (decimal ds fp).
Proof.
  intros Hds Hfp Hlen.
  rewrite <- (unsigned_float_point Hds Hfp Hlen).
  destruct ds as [|a ds]; [reflexivity|].
  inversion Hds; subst.
  destruct (digit_not_mark a) as (_ & Hm & Hp & _); auto.
  unfold float. cbn [app]. now rewrite Hm, Hp.
Qed.

Lemma remove_commas_digits pre :
  Forall digit_or_comma pre ->
  Forall (fun a => is_digit a = true) (remove_commas pre).
Proof.
  intros H. induction H as [|a pre Ha _ IH]; simpl; [constructor|].
  fold (remove_commas pre). destruct (is_char "," a) eqn:E; simpl; auto.
  constructor; auto. destruct Ha as [Ha|Ha]; [auto|congruence].
Qed.

(** The numerals of the statements: digits and commas, a point and two
    digits.  [float] accepts them once the commas are gone. *)
Lemma float_money pre d1 d2 :
  Forall digit_or_comma pre ->
  is_digit d1 = true -> is_digit d2 = true ->
  float (remove_commas (pre ++ ["."%char; d1; d2]))
  = Some (decimal (remove_commas pre) [d1; d2]).
Proof.
  intros Hpre H1 H2. unfold remove_commas. rewrite filter_app.
  fold (remove_commas pre).
  destruct (digit_not_mark d1) as (C1 & _); auto.
  destruct (digit_not_mark d2) as (C2 & _); auto.
  simpl. rewrite C1, C2. simpl.
  apply float_point.
  - now apply remove_commas_digits.
  - repeat constructor; auto.
  - simpl. lia.
Qed.

Lemma lang_cls_inv p w : lang (Cls p) w -> exists a, w = [a] /\ p a = true.
Proof. intros H. inversion H; subst. eauto. Qed.

Lemma lang_cat_inv r1 r2 w :
  lang (Cat r1 r2) w -> exists w1 w2, w = w1 ++ w2 /\ lang r1 w1 /\ lang r2 w2.
Proof. intros H. inversion H; subst. eauto. Qed.

(** The tail [\.\d{2}] of the numerals. *)
Lemma lang_point_two w :
  lang (Cat (chr ".") (Cat digit digit)) w ->
  exists d1 d2, w = ["."%char; d1; d2] /\
    is_digit d1 = true /\ is_digit d2 = true.
Proof.
  intros H.
  apply lang_cat_inv in H. destruct H as (w1 & w2 & -> & H1 & H2).
  apply lang_cat_inv in H2. destruct H2 as (w3 & w4 & -> & H3 & H4).
  apply lang_cls_inv in H1, H3, H4.
  destruct H1 as (a & -> & Ha), H3 as (d1 & -> & Hd1), H4 as (d2 & -> & Hd2).
  exists d1, d2. repeat split; auto.
  unfold is_char in Ha. apply Ascii.eqb_eq in Ha. now subst.
Qed.

Lemma decimal_token_chars :
  chars_ok digit_or_comma (Cat (Upto3 digit)
                              (Rep true (Cat (chr ",") (Times 3 digit)))).
Proof.
  unfold digit_or_comma. simpl. repeat split; intros a Ha; auto.
Qed.

(** A decimal token is digits and commas that start with a digit, then a
    point and two digits. *)
Lemma decimal_token_shape w :
  lang decimal_token w ->
  exists d pre d1 d2, w = (d :: pre) ++ ["."%char; d1; d2] /\
    is_digit d = true /\ Forall digit_or_comma pre /\
    is_digit d1 = true /\ is_digit d2 = true.
Proof.
  intros H. unfold decimal_token in H. simpl in H.
  apply lang_cat_inv in H. destruct H as (w1 & w' & -> & H1 & H).
  apply lang_cat_inv in H. destruct H as (w2 & w3 & -> & H2 & H3).
  apply lang_point_two in H3. destruct H3 as (d1 & d2 & -> & Hd1 & Hd2).
  assert (Hc : Forall digit_or_comma (w1 ++ w2)).
  { apply (lang_chars digit_or_comma) with (1 := decimal_token_chars).
    now constructor. }
  unfold Upto3 in H1.
  apply lang_cat_inv in H1. destruct H1 as (u & u' & -> & Hu & _).
  apply lang_cls_inv in Hu. destruct Hu as (d & -> & Hd).
  simpl in Hc. inversion Hc; subst.
  exists d, (u' ++ w2), d1, d2. rewrite app_assoc. repeat split; auto.
Qed.

(** [float] accepts every decimal token, with a value that is not
    negative. *)
Lemma decimal_token_float w :
  lang decimal_token w ->
  float (remove_commas w) = Some (token_value w) /\ (0 <= token_value w)%Q.
Proof.
  intros H. apply decimal_token_shape in H.
  destruct H as (d & pre & d1 & d2 & -> & Hd & Hpre & Hd1 & Hd2).
  assert (Hf := float_money (pre := d :: pre) d1 d2).
  unfold token_value. rewrite Hf; auto.
  - split; [reflexivity|apply decimal_nonneg].
  - constructor; auto. now left.
Qed.

Lemma money_chars : chars_ok digit_or_comma (Plus digit_comma).
Proof.
  unfold digit_or_comma. simpl.
  repeat split; intros a Ha; now apply orb_true_iff in Ha.
Qed.

(** The same for the numerals [[\d,]+\.\d{2}]. *)
Lemma money_float w :
  lang Anz.money w ->
  float (remove_commas w) = Some (token_value w) /\ (0 <= token_value w)%Q.
Proof.
  intros H. unfold Anz.money in H. simpl in H.
  apply lang_cat_inv in H. destruct H as (pre & w' & -> & H1 & H).
  apply lang_point_two in H. destruct H as (d1 & d2 & -> & Hd1 & Hd2).
  assert (Hpre : Forall digit_or_comma pre)
    by (apply (lang_chars digit_or_comma) with (1 := money_chars); auto).
  unfold token_value. rewrite float_money; auto.
  split; [reflexivity|apply decimal_nonneg].
Qed.

(** ** Loops *)

Lemma for_each_inv {A S : Type} (I : S -> Prop)
    (body : S -> A -> outcome S) xs :
  (forall acc x, In x xs -> I acc -> when_done I (body acc x)) ->
  forall acc, I acc -> when_done I (for_each body xs acc).
Proof.
  induction xs as [|x xs IH]; simpl; intros Hbody acc Hacc; auto.
  assert (Hx := Hbody acc x (or_introl eq_refl) Hacc).
  destruct (body acc x) as [acc'|]; simpl in *; auto.
Qed.

Lemma for_each_rel {A S T : Type} (R : S -> T -> Prop)
    (body1 : S -> A -> outcome S) (body2 : T -> A -> outcome T) xs :
  (forall a b x, R a b -> rel_out R (body1 a x) (body2 b x)) ->
  forall a b, R a b -> rel_out R (for_each body1 xs a) (for_each body2 xs b).
Proof.
  intros Hbody. induction xs as [|x xs IH]; simpl; intros a b Hab; auto.
  assert (Hx := Hbody a b x Hab).
  destruct (body1 a x), (body2 b x); simpl in *; auto; contradiction.
Qed.

Lemma for_each_app {A S : Type} (body : S -> A -> outcome S) xs ys acc :
  for_each body (xs ++ ys) acc
  = bind (for_each body xs acc) (for_each body ys).
Proof.
  revert acc. induction xs as [|x xs IH]; simpl; intros acc; auto.
  destruct (body acc x); simpl; auto.
Qed.

(** ** Identifiers *)

Lemma append_same_content u1 u2 l1 l2 d e a :
  same_content l1 l2 ->
  same_content (append u1 l1 d e a) (append u2 l2 d e a).
Proof.
  unfold same_content, append. intros H. rewrite !map_app, H. reflexivity.
Qed.

Lemma append_ids_drawn u l d e a :
  ids_drawn u l -> ids_drawn u (append u l d e a).
Proof.
  unfold ids_drawn, append, draws. intros H.
  rewrite map_app, length_app, H. simpl.
  rewrite Nat.add_1_r, seq_S, map_app. reflexivity.
Qed.

Lemma same_content_nil : same_content [] [].
Proof. reflexivity. Qed.

Lemma ids_drawn_nil u : ids_drawn u [].
Proof. reflexivity. Qed.

Create HintDb ids.
#[local] Hint Resolve append_same_content append_ids_drawn
  same_content_nil ids_drawn_nil : ids.

(** Take apart the tests of a loop body; what is left is a list that the
    body returns as it is or with one record appended. *)
Ltac body_cases :=
  repeat match goal with
         | |- context [match ?e with _ => _ end] => destruct e
         end;
  simpl; auto with ids.

Section Identifiers.

Variables uuid4 uuid4' : nat -> pystr.

Lemma local_primary_rel a b line :
  same_content a b ->
  rel_out same_content (Local.primary_step uuid4 a line)
                       (Local.primary_step uuid4' b line).
Proof. intros H. unfold Local.primary_step. body_cases. Qed.

Lemma local_fallback_rel a b line :
  same_content a b ->
  rel_out same_content (Local.fallback_step uuid4 a line)
                       (Local.fallback_step uuid4' b line).
Proof. intros H. unfold Local.fallback_step. body_cases. Qed.

Lemma local_primary_ids a line :
  ids_drawn uuid4 a -> when_done (ids_drawn uuid4) (Local.primary_step uuid4 a line).
Proof. intros H. unfold Local.primary_step. body_cases. Qed.

Lemma local_fallback_ids a line :
  ids_drawn uuid4 a -> when_done (ids_drawn uuid4) (Local.fallback_step uuid4 a line).
Proof. intros H. unfold Local.fallback_step. body_cases. Qed.

Lemma same_content_nil_inv a b :
  same_content a b -> (a = [] <-> b = []).
Proof.
  unfold same_content. destruct a, b; simpl; intros H;
    split; intros E; try discriminate; auto.
Qed.

Lemma local_rel lines :
  rel_out same_content (Local.parse_lines uuid4 lines)
                       (Local.parse_lines uuid4' lines).
Proof.
  unfold Local.parse_lines, Local.primary_pass.
  assert (H := @for_each_rel _ _ _ same_content
                 (Local.primary_step uuid4) (Local.primary_step uuid4')
                 lines local_primary_rel [] [] same_content_nil).
  destruct (for_each (Local.primary_step uuid4) lines []) as [a|],
           (for_each (Local.primary_step uuid4') lines []) as [b|];
    simpl in H; try contradiction; simpl; auto.
  destruct a as [|t a], b as [|t' b]; simpl; auto; try discriminate H.
  apply for_each_rel; auto. apply local_fallback_rel.
Qed.

Lemma local_ids lines :
  when_done (ids_drawn uuid4) (Local.parse_lines uuid4 lines).
Proof.
  unfold Local.parse_lines, Local.primary_pass.
  assert (H := @for_each_inv _ _ (ids_drawn uuid4)
                 (Local.primary_step uuid4) lines
                 (fun a x _ => @local_primary_ids a x)
                 [] (ids_drawn_nil uuid4)).
  destruct (for_each (Local.primary_step uuid4) lines []) as [a|];
    simpl in *; auto.
  destruct a as [|t a]; simpl; auto.
  apply for_each_inv; auto. intros acc x _. apply local_fallback_ids.
Qed.

Lemma amex_step_rel a b line rest :
  same_content a b ->
  rel_out same_content (Amex.step uuid4 a line rest)
                       (Amex.step uuid4' b line rest).
Proof. intros H. unfold Amex.step. body_cases. Qed.

Lemma amex_step_ids a line rest :
  ids_drawn uuid4 a ->
  when_done (ids_drawn uuid4) (Amex.step uuid4 a line rest).
Proof. intros H. unfold Amex.step. body_cases. Qed.

Lemma amex_loop_rel lines :
  forall a b, same_content a b ->
  rel_out same_content (Amex.loop uuid4 a lines) (Amex.loop uuid4' b lines).
Proof.
  induction lines as [|line rest IH]; simpl; intros a b H; auto.
  assert (Hs := amex_step_rel line rest H).
  destruct (Amex.step uuid4 a line rest), (Amex.step uuid4' b line rest);
    simpl in *; auto; contradiction.
Qed.

Lemma amex_loop_ids lines :
  forall a, ids_drawn uuid4 a ->
  when_done (ids_drawn uuid4) (Amex.loop uuid4 a lines).
Proof.
  induction lines as [|line rest IH]; simpl; intros a H; auto.
  assert (Hs := amex_step_ids line rest H).
  destruct (Amex.step uuid4 a line rest); simpl in *; auto.
Qed.

Lemma anz_step_rel a b m :
  same_content a b ->
  rel_out same_content (Anz.step uuid4 a m) (Anz.step uuid4' b m).
Proof. intros H. unfold Anz.step. body_cases. Qed.

Lemma anz_step_ids a m :
  ids_drawn uuid4 a -> when_done (ids_drawn uuid4) (Anz.step uuid4 a m).
Proof. intros H. unfold Anz.step. body_cases. Qed.

Lemma cba_step_rel a b l :
  same_content a b ->
  rel_out same_content (Cba.step uuid4 a l) (Cba.step uuid4' b l).
Proof.
  intros H. unfold Cba.step, Cba.transaction_row, Cba.balance_row.
  body_cases.
Qed.

Lemma cba_step_ids a l :
  ids_drawn uuid4 a -> when_done (ids_drawn uuid4) (Cba.step uuid4 a l).
Proof.
  intros H. unfold Cba.step, Cba.transaction_row, Cba.balance_row.
  body_cases.
Qed.

Lemma cba_page_rel a b text :
  same_content a b ->
  rel_out same_content (Cba.page_step uuid4 a text)
                       (Cba.page_step uuid4' b text).
Proof.
  intros H. unfold Cba.page_step. destruct text; simpl; auto.
  apply for_each_rel; auto. apply cba_step_rel.
Qed.

Lemma cba_page_ids a text :
  ids_drawn uuid4 a -> when_done (ids_drawn uuid4) (Cba.page_step uuid4 a text).
Proof.
  intros H. unfold Cba.page_step. destruct text; simpl; auto.
  apply for_each_inv; auto. intros acc x _. apply cba_step_ids.
Qed.

Lemma westpac_step_rel a b line :
  same_content a b ->
  rel_out same_content (Westpac.step uuid4 a line)
                       (Westpac.step uuid4' b line).
Proof. intros H. unfold Westpac.step. body_cases. Qed.

Lemma westpac_step_ids a line :
  ids_drawn uuid4 a -> when_done (ids_drawn uuid4) (Westpac.step uuid4 a line).
Proof. intros H. unfold Westpac.step. body_cases. Qed.

Lemma westpac_page_rel pages a b n :
  same_content a b ->
  rel_out same_content (Westpac.page_step uuid4 pages a n)
                       (Westpac.page_step uuid4' pages b n).
Proof.
  intros H. unfold Westpac.page_step.
  destruct (nth_error pages n) as [[|c text]|]; simpl; auto.
  apply for_each_rel; auto. apply westpac_step_rel.
Qed.

Lemma westpac_page_ids pages a n :
  ids_drawn uuid4 a ->
  when_done (ids_drawn uuid4) (Westpac.page_step uuid4 pages a n).
Proof.
  intros H. unfold Westpac.page_step.
  destruct (nth_error pages n) as [[|c text]|]; simpl; auto.
  apply for_each_inv; auto. intros acc x _. apply westpac_step_ids.
Qed.

Lemma card_settle_rel a b d desc amounts :
  same_content a b ->
  rel_out same_content (WestpacCard.settle uuid4 a d desc amounts)
                       (WestpacCard.settle uuid4' b d desc amounts).
Proof. intros H. unfold WestpacCard.settle. body_cases. Qed.

Lemma card_settle_ids a d desc amounts :
  ids_drawn uuid4 a ->
  when_done (ids_drawn uuid4) (WestpacCard.settle uuid4 a d desc amounts).
Proof. intros H. unfold WestpacCard.settle. body_cases. Qed.

Lemma card_loop_rel fuel :
  forall lines a b, same_content a b ->
  rel_out same_content (WestpacCard.loop uuid4 fuel a lines)
                       (WestpacCard.loop uuid4' fuel b lines).
Proof.
  induction fuel as [|fuel IH]; intros [|l following] a b H; simpl; auto.
  destruct (re_match _ _) as [m|]; auto.
  destruct (option_map _ _) as [d|]; auto.
  unfold WestpacCard.assemble.
  destruct (WestpacCard.accumulate _ _) as [[parts al] rest].
  assert (Hs := card_settle_rel d (join (py " ") parts)
                  (WestpacCard.amount_tokens al) H).
  destruct (WestpacCard.settle uuid4 a _ _ _),
           (WestpacCard.settle uuid4' b _ _ _);
    simpl in *; auto; contradiction.
Qed.

Lemma card_loop_ids fuel :
  forall lines a, ids_drawn uuid4 a ->
  when_done (ids_drawn uuid4) (WestpacCard.loop uuid4 fuel a lines).
Proof.
  induction fuel as [|fuel IH]; intros [|l following] a H; simpl; auto.
  destruct (re_match _ _) as [m|]; auto.
  destruct (option_map _ _) as [d|]; auto.
  unfold WestpacCard.assemble.
  destruct (WestpacCard.accumulate _ _) as [[parts al] rest].
  assert (Hs := card_settle_ids d (join (py " ") parts)
                  (WestpacCard.amount_tokens al) H).
  destruct (WestpacCard.settle uuid4 a _ _ _); simpl in *; auto.
Qed.

End Identifiers.

(** ** Determinism (C9) *)

(** C9. Two runs of a script on the same input print the same records in
    the same order, field by field, except for the identifiers; the
    identifiers of a run are the successive draws of [uuid4], whatever the
    records hold.  This holds for the six scripts: on the lines of the
    document for local, Amex and the Westpac card script, on the text for
    ANZ, on the pages for CBA and Westpac. *)
Theorem determinism_modulo_id :
  deterministic_modulo_id Local.parse_lines /\
  deterministic_modulo_id Amex.parse_lines /\
  deterministic_modulo_id Anz.parse_text /\
  deterministic_modulo_id Cba.parse /\
  deterministic_modulo_id Westpac.parse /\
  deterministic_modulo_id WestpacCard.parse_lines.
Proof.
  unfold deterministic_modulo_id. repeat split; intros.
  - apply local_rel.
  - apply local_ids.
  - apply amex_loop_rel. reflexivity.
  - apply amex_loop_ids. reflexivity.
  - apply for_each_rel; [|reflexivity]. intros. now apply anz_step_rel.
  - apply for_each_inv; [|reflexivity]. intros. now apply anz_step_ids.
  - apply for_each_rel; [|reflexivity]. intros. now apply cba_page_rel.
  - apply for_each_inv; [|reflexivity]. intros. now apply cba_page_ids.
  - apply for_each_rel; [|reflexivity]. intros. now apply westpac_page_rel.
  - apply for_each_inv; [|reflexivity]. intros. now apply westpac_page_ids.
  - apply card_loop_rel. reflexivity.
  - apply card_loop_ids. reflexivity.
Qed.

(** ** The pages of the Westpac script (C10) *)

(** C10. The Westpac script reads the pages at the zero-based indices 2, 3
    and 4 and no other: two documents that agree on these three pages give
    the same run, whatever their other pages hold; in particular a document
    of two pages gives the empty list. *)
Theorem westpac_reads_pages_2_3_4 :
  forall (uuid4 : nat -> pystr) (pages pages' : list pystr),
    nth_error pages 2 = nth_error pages' 2 ->
    nth_error pages 3 = nth_error pages' 3 ->
    nth_error pages 4 = nth_error pages' 4 ->
    Westpac.parse uuid4 pages = Westpac.parse uuid4 pages'
    /\ (length pages <= 2 -> Westpac.parse uuid4 pages = Done []).
Proof.
  intros uuid4 pages pages' H2 H3 H4. split.
  - unfold Westpac.parse. simpl. unfold Westpac.page_step.
    rewrite H2, H3, H4. reflexivity.
  - intros Hlen. unfold Westpac.parse. simpl. unfold Westpac.page_step.
    assert (E2 : nth_error pages 2 = None) by (apply nth_error_None; lia).
    assert (E3 : nth_error pages 3 = None) by (apply nth_error_None; lia).
    assert (E4 : nth_error pages 4 = None) by (apply nth_error_None; lia).
    rewrite E2, E3, E4. reflexivity.
Qed.

(** Two documents whose first two pages and sixth page differ (and hold
    lines of the Westpac layout) but whose pages 2 to 4 agree. *)
Lemma westpac_reads_pages_2_3_4_witness :
  Westpac.parse sample_uuid4
    [py "1 Jan 24 RENT 900.00"; py "2 Jan 24 FEES 3.00";
     py "3 Jan 24 COFFEE 4.50"; py ""; py "5 Jan 24 TRAIN 2.24";
     py "6 Jan 24 LATE 1.00"]
  = Westpac.parse sample_uuid4
      [py ""; py "9 Feb 24 OTHER 7.00";
       py "3 Jan 24 COFFEE 4.50"; py ""; py "5 Jan 24 TRAIN 2.24"].
Proof.
  apply (westpac_reads_pages_2_3_4 sample_uuid4
           [py "1 Jan 24 RENT 900.00"; py "2 Jan 24 FEES 3.00";
            py "3 Jan 24 COFFEE 4.50"; py ""; py "5 Jan 24 TRAIN 2.24";
            py "6 Jan 24 LATE 1.00"]
           [py ""; py "9 Feb 24 OTHER 7.00";
            py "3 Jan 24 COFFEE 4.50"; py ""; py "5 Jan 24 TRAIN 2.24"]);
    reflexivity.
Defined.

(** ** The fallback pass of local.py (C3) *)

Lemma num_char_no_minus :
  chars_ok no_minus (Plus num_char).
Proof.
  assert (H : forall a,
            is_digit a || is_char "," a || is_char "." a = true ->
            no_minus a).
  { intros a H. unfold no_minus.
    ascii_cases a; vm_compute in H; try discriminate H; reflexivity. }
  simpl. auto.
Qed.

(** The amount group of the fallback pattern holds no minus sign. *)
Lemma fallback_amount_group s m :
  re_match Local.fallback_pattern s = Some m -> Forall no_minus (grp 4 m).
Proof.
  intros H. unfold grp.
  destruct (group 4 (m_groups m)) as [w|] eqn:E; [|constructor].
  set (G := fun (n : nat) (w : pystr) => n = 4 -> Forall no_minus w).
  assert (HG : groups_ok G Local.fallback_pattern).
  { unfold G. simpl. repeat split; try (intros; discriminate).
    intros v Hv _. apply (lang_chars no_minus) with (2 := Hv).
    exact num_char_no_minus. }
  exact (@re_match_group G _ _ _ _ _ HG H E eq_refl).
Qed.

Lemma float_no_minus w v :
  Forall no_minus w -> float (remove_commas w) = Some v -> (0 <= v)%Q.
Proof.
  intros Hw Hf. apply (float_nonneg _ Hf).
  assert (H : Forall no_minus (remove_commas w)).
  { apply Forall_forall. intros a Ha. apply filter_In in Ha.
    destruct Ha as [Ha _]. now apply (proj1 (Forall_forall _ _) Hw). }
  destruct (remove_commas w); auto. now inversion H.
Qed.

Lemma debits_append u l d e v :
  debits l -> (0 <= v)%Q -> debits (append u l d e (- v)%Q).
Proof.
  intros Hl Hv. apply Forall_app. split; auto.
  constructor; [|constructor]. simpl.
  apply Qopp_le_compat in Hv. exact Hv.
Qed.

Lemma fallback_step_debits u acc line :
  debits acc -> when_done debits (Local.fallback_step u acc line).
Proof.
  intros Hacc. unfold Local.fallback_step.
  destruct (re_match Local.fallback_pattern (strip line)) as [m|] eqn:Em;
    simpl; auto.
  destruct (Local.parsed_date m); simpl; auto.
  destruct (float (remove_commas (grp 4 m))) as [v|] eqn:Ef; simpl; auto.
  apply debits_append; auto.
  apply (float_no_minus (w := grp 4 m)); auto.
  now apply fallback_amount_group with (s := strip line).
Qed.

(** C3, as the code has it.  The fallback pass runs exactly when the
    primary pass over all the lines has appended nothing: then the run is
    the fallback pass alone, and otherwise it is the primary pass alone (so
    the two never mix; a primary pass that raises ends the run).  Every
    record of the fallback pass has an amount that is negative or zero: it
    is the negated value of a numeral without sign. *)
Theorem local_fallback_pass :
  forall (uuid4 : nat -> pystr) (lines : list pystr),
    (Local.primary_pass uuid4 lines = Done [] ->
     Local.parse_lines uuid4 lines = Local.fallback_pass uuid4 lines) /\
    (forall t ts, Local.primary_pass uuid4 lines = Done (t :: ts) ->
     Local.parse_lines uuid4 lines = Done (t :: ts)) /\
    (Local.primary_pass uuid4 lines = Raised ->
     Local.parse_lines uuid4 lines = Raised) /\
    (forall ts, Local.fallback_pass uuid4 lines = Done ts ->
     forall t, In t ts -> (amount t <= 0)%Q).
Proof.
  intros uuid4 lines. unfold Local.parse_lines. repeat split.
  - intros ->. reflexivity.
  - intros t ts ->. reflexivity.
  - intros ->. reflexivity.
  - intros ts Hts t Hin.
    assert (H := @for_each_inv _ _ debits (Local.fallback_step uuid4) lines
                   (fun a x _ => @fallback_step_debits uuid4 a x)
                   [] (Forall_nil _)).
    unfold Local.fallback_pass in Hts. rewrite Hts in H. simpl in H.
    now apply (proj1 (Forall_forall _ _) H).
Qed.

(** One line of the fallback layout only, with the amount 12.50. *)
Lemma local_fallback_pass_witness :
  Local.parse_lines sample_uuid4 [py "14 Mar EFTPOS BAKERY 12.50"]
  = Local.fallback_pass sample_uuid4 [py "14 Mar EFTPOS BAKERY 12.50"]
  /\ (forall t,
        In t [mk_txn (sample_uuid4 0) (py "2023-03-14") (py "EFTPOS BAKERY")
                     (- (25 # 2))%Q] ->
        (amount t <= 0)%Q).
Proof.
  destruct (local_fallback_pass sample_uuid4
              [py "14 Mar EFTPOS BAKERY 12.50"]) as (H1 & _ & _ & H4).
  split.
  - apply H1. vm_compute. reflexivity.
  - apply H4. vm_compute. reflexivity.
Defined.

(** C3 as stated fails: the fallback pass gives the line "1 Jan foo 0" the
    amount zero, which is not strictly negative. *)
Lemma local_fallback_zero_amount :
  Local.primary_pass sample_uuid4 [py "1 Jan foo 0"] = Done [] /\
  exists t,
    Local.parse_lines sample_uuid4 [py "1 Jan foo 0"] = Done [t] /\
    ~ (amount t < 0)%Q.
Proof.
  split; [vm_compute; reflexivity|].
  eexists. split; [vm_compute; reflexivity|].
  simpl. intros H. discriminate H.
Qed.

(** ** Continuation lines and amount slots of the card script (C4-C6) *)

Lemma accumulate_until_amounts parts frags amt rest :
  Forall (fun f => WestpacCard.is_amounts_line (strip f) = false) frags ->
  WestpacCard.is_amounts_line (strip amt) = true ->
  WestpacCard.accumulate parts (frags ++ amt :: rest)
  = (parts ++ map strip frags, strip amt, rest).
Proof.
  intros Hfrags Hamt. revert parts.
  induction Hfrags as [|f frags Hf _ IH]; intros parts; simpl.
  - now rewrite Hamt, app_nil_r.
  - rewrite Hf, IH, <- app_assoc. reflexivity.
Qed.

Lemma accumulate_rest parts following :
  length (snd (WestpacCard.accumulate parts following)) <= length following.
Proof.
  revert parts. induction following as [|next rest IH]; intros parts; simpl.
  - auto.
  - destruct (WestpacCard.is_amounts_line (strip next)); simpl; auto.
Qed.

(** The outer loop of the card script has fuel enough: more fuel than lines
    changes nothing. *)
Lemma card_loop_fuel uuid4 :
  forall fuel fuel' lines acc,
    length lines <= fuel -> length lines <= fuel' ->
    WestpacCard.loop uuid4 fuel acc lines
    = WestpacCard.loop uuid4 fuel' acc lines.
Proof.
  induction fuel as [|fuel IH]; intros fuel' [|l following] acc H H';
    simpl in *; try lia.
  - destruct fuel'; reflexivity.
  - destruct fuel'; reflexivity.
  - destruct fuel' as [|fuel']; [lia|]. simpl.
    destruct (re_match _ _) as [m|]; [|apply IH; lia].
    destruct (option_map _ _) as [d|]; [|apply IH; lia].
    unfold WestpacCard.assemble.
    assert (Hrest := accumulate_rest [strip (grp 2 m)] following).
    destruct (WestpacCard.accumulate _ _) as [[parts al] rest].
    simpl in Hrest.
    destruct (WestpacCard.settle _ _ _ _ _); simpl; auto.
    apply IH; lia.
Qed.

Lemma amount_token_float line tok :
  In tok (WestpacCard.amount_tokens line) ->
  float (remove_commas tok) = Some (token_value tok) /\
  (0 <= token_value tok)%Q /\ tok <> [].
Proof.
  intros H. apply findall0_lang in H.
  destruct (decimal_token_float H) as [Hf Hv]. repeat split; auto.
  apply decimal_token_shape in H.
  destruct H as (d & pre & d1 & d2 & -> & _). discriminate.
Qed.

(** C4. Once an operative line has matched (with a date that parses), each
    following line is appended, stripped, to the description parts up to
    the first line with at least two decimal tokens; that line is the
    amounts line and is no part of the description; the parts are joined
    with one space, and the loop goes on after the amounts line.  The
    fragments A, B, C followed by the amounts line "10.00 90.00" give the
    description "A B C" and the amount -10.00. *)
Theorem card_continuation :
  (forall (uuid4 : nat -> pystr) fuel transactions line m date_obj
          frags amt rest,
     re_match WestpacCard.date_pattern (strip line) = Some m ->
     strptime fmt_d_m_y (grp 1 m) = Some date_obj ->
     Forall (fun f => WestpacCard.is_amounts_line (strip f) = false) frags ->
     WestpacCard.is_amounts_line (strip amt) = true ->
     WestpacCard.loop uuid4 (S fuel) transactions
       (line :: frags ++ amt :: rest)
     = bind (WestpacCard.settle uuid4 transactions (strftime_iso date_obj)
               (join (py " ") (strip (grp 2 m) :: map strip frags))
               (WestpacCard.amount_tokens (strip amt)))
            (fun t => WestpacCard.loop uuid4 fuel t rest)) /\
  WestpacCard.parse_lines sample_uuid4
    [py "01/02/24 A"; py "B"; py "C"; py "10.00 90.00"]
  = Done [mk_txn (sample_uuid4 0) (py "2024-02-01") (py "A B C")
                 (- (10 # 1))%Q].
Proof.
  split.
  - intros uuid4 fuel transactions line m date_obj frags amt rest
           Hm Hd Hfrags Hamt.
    simpl. rewrite Hm, Hd. simpl. unfold WestpacCard.assemble.
    rewrite accumulate_until_amounts; auto.
  - vm_compute. reflexivity.
Qed.

(** The operative line "01/02/24 A", the fragments B and C and the amounts
    line "10.00 90.00", followed by one more line. *)
Lemma card_continuation_witness :
  WestpacCard.loop sample_uuid4 5 []
    (py "01/02/24 A" :: [py "B"; py "C"] ++ py "10.00 90.00" :: [py "end"])
  = bind (WestpacCard.settle sample_uuid4 [] (py "2024-02-01")
            (join (py " ") (py "A" :: map strip [py "B"; py "C"]))
            (WestpacCard.amount_tokens (strip (py "10.00 90.00"))))
         (fun t => WestpacCard.loop sample_uuid4 4 t [py "end"]).
Proof.
  destruct card_continuation as [H _].
  apply (H sample_uuid4 4 [] (py "01/02/24 A")
           (mk_rmatch 0 10 [(2, py "A"); (1, py "01/02/24")])
           (mk_date 2024 2 1) [py "B"; py "C"] (py "10.00 90.00")
           [py "end"]).
  - vm_compute. reflexivity.
  - vm_compute. reflexivity.
  - repeat constructor.
  - vm_compute. reflexivity.
Defined.

(** *** Groups that take part in every match *)

Lemma caps_le_refl c : caps_le c c.
Proof. intros n H. exact H. Qed.

Lemma caps_le_trans c1 c2 c3 : caps_le c1 c2 -> caps_le c2 c3 -> caps_le c1 c3.
Proof. intros H12 H23 n H. auto. Qed.

Lemma caps_le_cons n w c : caps_le c ((n, w) :: c).
Proof.
  intros m H. simpl. destruct (Nat.eqb m n); [discriminate|exact H].
Qed.

Lemma rep_loop_groups g
    (body : nat -> pystr -> caps ->
            (nat -> pystr -> caps -> option (nat * caps)) ->
            option (nat * caps)) :
  (forall i s c k x, body i s c k = Some x ->
     exists i' s' c', caps_le c c' /\ k i' s' c' = Some x) ->
  forall k n i s c x, rep_loop body g k n i s c = Some x ->
    exists i' s' c', caps_le c c' /\ k i' s' c' = Some x.
Proof.
  intros Hbody k n.
  induction n as [|n IH]; intros i s c x H; simpl in H.
  - exists i, s, c. split; [apply caps_le_refl|exact H].
  - assert (Hturn : forall y,
              body i s c
                (fun i' s' c' =>
                   if i <? i' then rep_loop body g k n i' s' c' else None)
              = Some y ->
              exists i' s' c', caps_le c c' /\ k i' s' c' = Some y).
    { intros y Hy. apply Hbody in Hy.
      destruct Hy as (i1 & s1 & c1 & Hc1 & Hy).
      destruct (i <? i1); [|discriminate].
      apply IH in Hy. destruct Hy as (i2 & s2 & c2 & Hc2 & Hy).
      exists i2, s2, c2. split; auto. now apply caps_le_trans with c1. }
    destruct g.
    + destruct (body i s c _) as [y|] eqn:E.
      * inversion H; subst. now apply Hturn.
      * exists i, s, c. split; [apply caps_le_refl|exact H].
    + destruct (k i s c) as [y|] eqn:E.
      * inversion H; subst. exists i, s, c.
        split; [apply caps_le_refl|exact E].
      * now apply Hturn.
Qed.

Lemma run_groups r :
  forall i s c k x, run r i s c k = Some x ->
    exists i' s' c', caps_le c c' /\
      (forall n, sets n r = true -> group n c' <> None) /\
      k i' s' c' = Some x.
Proof.
  induction r as [|p|r1 IH1 r2 IH2|r1 IH1 r2 IH2|g r1 IH1|m r1 IH1| |];
    simpl; intros i s c k x H.
  - exists i, s, c. repeat split; auto using caps_le_refl. discriminate.
  - destruct s as [|a s']; [discriminate|].
    destruct (p a); [|discriminate].
    exists (S i), s', c. repeat split; auto using caps_le_refl. discriminate.
  - apply IH1 in H. destruct H as (i1 & s1 & c1 & Hc1 & Hs1 & H).
    apply IH2 in H. destruct H as (i2 & s2 & c2 & Hc2 & Hs2 & H).
    exists i2, s2, c2. repeat split; auto.
    + now apply caps_le_trans with c1.
    + intros n Hn. apply orb_true_iff in Hn. destruct Hn; auto.
  - destruct (run r1 i s c k) as [y|] eqn:E.
    + inversion H; subst. apply IH1 in E.
      destruct E as (i1 & s1 & c1 & Hc1 & Hs1 & E).
      exists i1, s1, c1. repeat split; auto.
      intros n Hn. apply andb_true_iff in Hn. destruct Hn; auto.
    + apply IH2 in H. destruct H as (i1 & s1 & c1 & Hc1 & Hs1 & H).
      exists i1, s1, c1. repeat split; auto.
      intros n Hn. apply andb_true_iff in Hn. destruct Hn; auto.
  - apply rep_loop_groups in H.
    + destruct H as (i1 & s1 & c1 & Hc1 & H).
      exists i1, s1, c1. repeat split; auto. discriminate.
    + intros i0 s0 c0 k0 x0 H0. apply IH1 in H0.
      destruct H0 as (i1 & s1 & c1 & Hc1 & _ & H0). eauto.
  - apply IH1 in H. destruct H as (i1 & s1 & c1 & Hc1 & Hs1 & H).
    exists i1, s1, ((m, firstn (i1 - i) s) :: c1). repeat split; auto.
    + apply caps_le_trans with c1; auto. apply caps_le_cons.
    + intros n Hn. simpl. destruct (Nat.eqb n m) eqn:E; [discriminate|].
      simpl in Hn. auto.
  - destruct (Nat.eqb i 0); [|discriminate].
    exists i, s, c. repeat split; auto using caps_le_refl. discriminate.
  - destruct (at_eol s); [|discriminate].
    exists i, s, c. repeat split; auto using caps_le_refl. discriminate.
Qed.

Lemma match_at_groups r i s e c n :
  match_at r i s = Some (e, c) -> sets n r = true -> group n c <> None.
Proof.
  intros H Hn. unfold match_at in H. apply run_groups in H.
  destruct H as (i' & s' & c' & _ & Hs & H).
  unfold accept in H. inversion H; subst. auto.
Qed.

Lemma scan_groups r n :
  sets n r = true ->
  forall fuel i s m, In m (scan r fuel i s) -> group n (m_groups m) <> None.
Proof.
  intros Hn. induction fuel as [|fuel IH]; intros i s m H; simpl in H.
  - destruct H.
  - destruct (match_at r i s) as [[e c]|] eqn:E.
    + destruct H as [<-|H].
      * simpl. now apply (@match_at_groups r i s e c n E).
      * destruct (i <? e); [now apply IH in H|].
        destruct s; [destruct H|now apply IH in H].
    + destruct s; [destruct H|now apply IH in H].
Qed.

Lemma settle_two uuid4 transactions d desc line a b :
  WestpacCard.amount_tokens line = [a; b] ->
  WestpacCard.settle uuid4 transactions d desc
    (WestpacCard.amount_tokens line)
  = Done (append uuid4 transactions d desc
            (if contains (py "Deposit") desc || contains (py "Refund") desc
             then token_value a else (- token_value a)%Q)).
Proof.
  intros H.
  destruct (@amount_token_float line a) as (Hf & _ & Ha);
    [rewrite H; now left|].
  rewrite H. unfold WestpacCard.settle, WestpacCard.slots.
  destruct (contains (py "Deposit") desc || contains (py "Refund") desc);
    destruct a as [|x a']; try contradiction; now rewrite Hf.
Qed.

Lemma settle_three uuid4 transactions d desc line a b c :
  WestpacCard.amount_tokens line = [a; b; c] ->
  WestpacCard.settle uuid4 transactions d desc
    (WestpacCard.amount_tokens line)
  = Done (append uuid4 transactions d desc (- token_value a)%Q).
Proof.
  intros H.
  destruct (@amount_token_float line a) as (Hf & _ & Ha);
    [rewrite H; now left|].
  rewrite H. unfold WestpacCard.settle, WestpacCard.slots.
  destruct a as [|x a']; try contradiction; now rewrite Hf.
Qed.

(** The amount group of a row of the ANZ pattern takes part in the match
    and holds a numeral. *)
Lemma anz_amount_group text m :
  In m (finditer Anz.pattern text) ->
  float (remove_commas (grp 6 m)) = Some (token_value (grp 6 m)) /\
  (0 <= token_value (grp 6 m))%Q.
Proof.
  intros H. unfold finditer in H.
  assert (Hset : group 6 (m_groups m) <> None).
  { apply (@scan_groups Anz.pattern 6 eq_refl _ _ _ _ H). }
  set (G := fun (n : nat) (w : pystr) => n = 6 -> lang Anz.money w).
  assert (HG : groups_ok G Anz.pattern).
  { unfold G. simpl. repeat split; try (intros; discriminate). auto. }
  apply (scan_sound G _ HG) in H.
  destruct H as (_ & _ & _ & _ & _ & _ & Hc).
  unfold grp. destruct (group 6 (m_groups m)) as [w|] eqn:E;
    [|contradiction].
  apply group_in in E. apply money_float. now apply (Hc 6 w E).
Qed.

(** C5, as the code has it.  On an amounts line with exactly two decimal
    tokens the card script takes the first token as the amount: with its
    value as it is (a credit) when the description holds "Deposit" or
    "Refund", negated (a debit) otherwise; the value of a token is never
    negative, so the amount is positive or zero in the first case and
    negative or zero in the second, and nothing but the description and the
    first token decides (the card script reads no marker).  In the ANZ
    script the marker CR next to the amount decides alone: with it the
    amount is the value of the numeral, without it the negated value,
    whatever the description holds. *)
Theorem two_token_sign :
  (forall (uuid4 : nat -> pystr) transactions d desc line a b,
     WestpacCard.amount_tokens line = [a; b] ->
     WestpacCard.settle uuid4 transactions d desc
       (WestpacCard.amount_tokens line)
     = Done (append uuid4 transactions d desc
               (if contains (py "Deposit") desc
                   || contains (py "Refund") desc
                then token_value a else (- token_value a)%Q))
     /\ (0 <= token_value a)%Q) /\
  (forall (uuid4 : nat -> pystr) text transactions m,
     In m (finditer Anz.pattern text) ->
     Anz.step uuid4 transactions m
     = match strptime fmt_d_m_Y (grp 3 m) with
       | Some date_obj =>
           Done (append uuid4 transactions (strftime_iso date_obj)
                   (strip (grp 5 m))
                   match group 7 (m_groups m) with
                   | Some _ => token_value (grp 6 m)
                   | None => (- token_value (grp 6 m))%Q
                   end)
       | None => Raised
       end
     /\ (0 <= token_value (grp 6 m))%Q).
Proof.
  split.
  - intros uuid4 transactions d desc line a b H. split.
    + now apply settle_two with (b := b).
    + apply (@amount_token_float line a). rewrite H. now left.
  - intros uuid4 text transactions m H.
    destruct (anz_amount_group _ _ H) as [Hf Hv]. split; auto.
    unfold Anz.step. now rewrite Hf.
Qed.

(** An amounts line with two tokens under a description with "Refund", and
    a row of the ANZ layout with the marker CR. *)
Lemma two_token_sign_witness :
  (WestpacCard.settle sample_uuid4 [] (py "2024-02-01") (py "Refund SHOP")
     (WestpacCard.amount_tokens (py "1,210.00 90.00"))
   = Done [mk_txn (sample_uuid4 0) (py "2024-02-01") (py "Refund SHOP")
                  (1210 # 1)%Q]
   /\ (0 <= token_value (py "1,210.00"))%Q) /\
  exists m,
    In m (finditer Anz.pattern
            (py "01/02/2024 03/02/2024 1234 COFFEE SHOP $4.50CR $120.00")) /\
    Anz.step sample_uuid4 [] m
    = Done [mk_txn (sample_uuid4 0) (py "2024-02-03") (py "COFFEE SHOP")
                   (9 # 2)%Q].
Proof.
  destruct two_token_sign as [H1 H2]. split.
  - destruct (H1 sample_uuid4 [] (py "2024-02-01") (py "Refund SHOP")
                (py "1,210.00 90.00") (py "1,210.00") (py "90.00"))
      as [Hs Hv].
    + vm_compute. reflexivity.
    + split; [exact Hs|exact Hv].
  - destruct (finditer Anz.pattern
                (py "01/02/2024 03/02/2024 1234 COFFEE SHOP $4.50CR $120.00"))
      as [|m ms] eqn:E; [vm_compute in E; discriminate E|].
    exists m. split; [now left|].
    assert (Hin : In m (finditer Anz.pattern
              (py "01/02/2024 03/02/2024 1234 COFFEE SHOP $4.50CR $120.00")))
      by (rewrite E; now left).
    destruct (H2 sample_uuid4 _ [] m Hin) as [Hs _].
    rewrite Hs. vm_compute in E. inversion E; subst. vm_compute. reflexivity.
Defined.

(** C5 as stated fails.  A credit of the card script whose first token is
    0.00 has the amount zero, which is not positive; the card script takes
    the line "10.00CR 90.00" for a debit of 10.00 although the marker CR
    stands next to the amount; and an ANZ row with the amount 0.00CR has
    the amount zero. *)
Lemma two_token_zero_and_marker :
  (exists t,
     WestpacCard.parse_lines sample_uuid4
       [py "01/02/24 Refund SHOP"; py "0.00 90.00"] = Done [t] /\
     description t = py "Refund SHOP" /\ (amount t == 0)%Q) /\
  (exists t,
     WestpacCard.parse_lines sample_uuid4
       [py "01/02/24 SHOP"; py "10.00CR 90.00"] = Done [t] /\
     description t = py "SHOP" /\ (amount t == - (10 # 1))%Q) /\
  (exists t,
     Anz.parse sample_uuid4
       [py "01/02/2024 01/02/2024 1234 SHOP 0.00CR 120.00"] = Done [t] /\
     description t = py "SHOP" /\ (amount t == 0)%Q).
Proof.
  split; [|split].
  - eexists. split; [vm_compute; reflexivity|]. split; reflexivity.
  - eexists. split; [vm_compute; reflexivity|]. split; reflexivity.
  - eexists. split; [vm_compute; reflexivity|]. split; reflexivity.
Qed.

(** C6, as the code has it.  On an amounts line with exactly three decimal
    tokens the card script takes them as debit, credit and balance: the
    debit and credit slots are the first two tokens, the first of them that
    is not empty is the debit (a token is never empty), so the amount is the
    negated value of the first token, negative or zero, whatever the second
    token is, and the second and third tokens are in no field of the
    record.  A row of the ANZ script holds two numerals, the amount and the
    balance: the record has the date, the description and the amount with
    the sign that the marker CR gives it, and the balance is in no field.
    The ANZ row "01/02/2024 01/02/2024 1234 COFFEE SHOP 4.50 120.00" gives
    the date 2024-02-01, the description "COFFEE SHOP" and the amount -4.50;
    the balance 120.00 is not kept. *)
Theorem three_token_slots :
  (forall (uuid4 : nat -> pystr) transactions d desc line a b c,
     WestpacCard.amount_tokens line = [a; b; c] ->
     WestpacCard.slots (WestpacCard.amount_tokens line) desc = (a, b) /\
     a <> [] /\ (0 <= token_value a)%Q /\
     WestpacCard.settle uuid4 transactions d desc
       (WestpacCard.amount_tokens line)
     = Done (append uuid4 transactions d desc (- token_value a)%Q) /\
     (- token_value a <= 0)%Q) /\
  (forall (uuid4 : nat -> pystr) text transactions m date_obj,
     In m (finditer Anz.pattern text) ->
     strptime fmt_d_m_Y (grp 3 m) = Some date_obj ->
     Anz.step uuid4 transactions m
     = Done (append uuid4 transactions (strftime_iso date_obj)
               (strip (grp 5 m))
               match group 7 (m_groups m) with
               | Some _ => token_value (grp 6 m)
               | None => (- token_value (grp 6 m))%Q
               end)) /\
  exists t,
    Anz.parse sample_uuid4
      [py "01/02/2024 01/02/2024 1234 COFFEE SHOP 4.50 120.00"]
    = Done [t] /\
    id t = sample_uuid4 0 /\
    date t = py "2024-02-01" /\
    description t = py "COFFEE SHOP" /\
    (amount t == - 4.5)%Q.
Proof.
  split; [|split].
  - intros uuid4 transactions d desc line a b c H.
    destruct (@amount_token_float line a) as (_ & Hv & Ha);
      [rewrite H; now left|].
    repeat split; auto.
    + now rewrite H.
    + now apply settle_three with (b := b) (c := c).
    + apply Qopp_le_compat in Hv. exact Hv.
  - intros uuid4 text transactions m date_obj H Hd.
    destruct (anz_amount_group _ _ H) as [Hf _].
    unfold Anz.step. now rewrite Hd, Hf.
  - eexists. split; [vm_compute; reflexivity|].
    repeat split; reflexivity.
Qed.

(** An amounts line with three tokens. *)
Lemma three_token_slots_witness :
  WestpacCard.settle sample_uuid4 [] (py "1969-03-02") (py "Q")
    (WestpacCard.amount_tokens (py "1.00 2.00 3.00"))
  = Done [mk_txn (sample_uuid4 0) (py "1969-03-02") (py "Q") (- (1 # 1))%Q].
Proof.
  destruct three_token_slots as [H _].
  destruct (H sample_uuid4 [] (py "1969-03-02") (py "Q")
              (py "1.00 2.00 3.00") (py "1.00") (py "2.00") (py "3.00"))
    as (_ & _ & _ & H1 & _).
  - vm_compute. reflexivity.
  - exact H1.
Defined.

(** C6 as stated fails.  With the tokens 0.00, 25.00 and 100.00 the debit
    slot holds 0.00, which is not empty: the amount is zero, not negative,
    and the credit of 25.00 is not used. *)
Lemma three_token_zero_debit :
  exists t,
    WestpacCard.parse_lines sample_uuid4
      [py "01/02/24 SHOP"; py "0.00 25.00 100.00"] = Done [t] /\
    description t = py "SHOP" /\ (amount t == 0)%Q.
Proof.
  eexists. split; [vm_compute; reflexivity|]. split; reflexivity.
Qed.

(** ** Description cleanup of the Westpac script (C8) *)

(** The greedy [\s*] at the end of a pattern takes all the blanks. *)
Lemma rep_space_greedy n :
  forall i s c, length s <= n ->
    rep_loop (run space) true accept n i s c = Some (i + lead s, c).
Proof.
  induction n as [|n IH]; intros i s c Hlen; simpl.
  - destruct s; [|simpl in Hlen; lia]. simpl. now rewrite Nat.add_0_r.
  - destruct s as [|a s']; simpl.
    + now rewrite Nat.add_0_r.
    + destruct (is_space a) eqn:Ea.
      * replace (i <? S i) with true by (symmetry; apply Nat.ltb_lt; lia).
        rewrite IH by (simpl in Hlen; lia).
        now rewrite Nat.add_succ_r.
      * unfold accept. now rewrite Nat.add_0_r.
Qed.

(** [\s{2,}] matches at a run of two blanks or more, and takes the run. *)
Lemma blanks_match i s :
  match_at Westpac.blanks i s
  = if 2 <=? lead s then Some (i + lead s, []) else None.
Proof.
  unfold match_at, Westpac.blanks. simpl.
  destruct s as [|a [|b s2]]; simpl; auto.
  - destruct (is_space a); reflexivity.
  - destruct (is_space a); [|reflexivity].
    destruct (is_space b); [|reflexivity].
    rewrite rep_space_greedy by lia. simpl.
    now rewrite !Nat.add_succ_r.
Qed.

Lemma skipn_lead s : skipn (lead s) s = lstrip s.
Proof.
  induction s as [|a s IH]; simpl; auto.
  destruct (is_space a); simpl; auto.
Qed.

Lemma sub_from_shift r repl fuel i a s :
  sub_from repl (scan r fuel (S i) s) i (a :: s)
  = a :: sub_from repl (scan r fuel (S i) s) (S i) s.
Proof.
  assert (H := fun m => @scan_sound _ r (groups_ok_True r) fuel (S i) s m).
  destruct (scan r fuel (S i) s) as [|m ms]; simpl; auto.
  destruct (H m (or_introl eq_refl)) as (Hle & w & _ & _ & _ & He & _).
  replace (m_start m - i) with (S (m_start m - S i)) by lia.
  replace (m_end m - i) with (S (m_end m - S i)) by lia.
  reflexivity.
Qed.

Lemma sub_blanks_squeeze fuel :
  forall i s,
    sub_from (py " ") (scan Westpac.blanks fuel i s) i s = squeeze fuel s.
Proof.
  induction fuel as [|fuel IH]; intros i s; [reflexivity|].
  cbn [scan squeeze]. rewrite blanks_match.
  destruct (2 <=? lead s) eqn:H.
  - apply Nat.leb_le in H.
    replace (i <? i + lead s) with true
      by (symmetry; apply Nat.ltb_lt; lia).
    cbn [sub_from m_start m_end]. rewrite Nat.sub_diag.
    replace (i + lead s - i) with (lead s) by lia.
    rewrite skipn_lead, IH. reflexivity.
  - destruct s as [|a s']; [reflexivity|].
    rewrite sub_from_shift, IH. reflexivity.
Qed.

Lemma clean_squeeze desc :
  Westpac.clean desc = squeeze (S (length desc)) desc.
Proof.
  unfold Westpac.clean, re_sub, finditer. apply sub_blanks_squeeze.
Qed.

Lemma length_lstrip s : length (lstrip s) + lead s = length s.
Proof.
  induction s as [|a s IH]; simpl; auto.
  destruct (is_space a); simpl; lia.
Qed.

Lemma lstrip_starts_clean s : starts_clean (lstrip s).
Proof.
  induction s as [|a s IH]; simpl; auto.
  destruct (is_space a) eqn:E; simpl; auto.
Qed.

Lemma lstrip_id s : starts_clean s -> lstrip s = s.
Proof. destruct s as [|a s]; simpl; auto. now intros ->. Qed.

Lemma lead_clean s : starts_clean s -> lead s = 0.
Proof. destruct s as [|a s]; simpl; auto. now intros ->. Qed.

Lemma ends_clean_cons a s : s <> [] -> (ends_clean (a :: s) <-> ends_clean s).
Proof. destruct s; [contradiction|]. simpl. tauto. Qed.

Lemma ends_clean_snoc l a : ends_clean (l ++ [a]) <-> is_space a = false.
Proof.
  induction l as [|b l IH]; simpl; [tauto|].
  rewrite <- IH. destruct (l ++ [a]) eqn:E; [|tauto].
  destruct l; discriminate.
Qed.

Lemma ends_clean_rev s : ends_clean s <-> starts_clean (rev s).
Proof.
  destruct (rev s) as [|a t] eqn:E.
  - apply (f_equal (@rev ascii)) in E. rewrite rev_involutive in E.
    subst. simpl. tauto.
  - apply (f_equal (@rev ascii)) in E. rewrite rev_involutive in E.
    subst. simpl. apply ends_clean_snoc.
Qed.

Lemma lstrip_snoc l a :
  is_space a = false -> exists l1, lstrip (l ++ [a]) = l1 ++ [a].
Proof.
  intros Ha. induction l as [|b l IH]; simpl.
  - rewrite Ha. now exists [].
  - destruct (is_space b); auto. now exists (b :: l).
Qed.

(** [strip] leaves a text that is clean at both ends alone, and its
    result is clean at both ends. *)
Lemma strip_id s : starts_clean s -> ends_clean s -> strip s = s.
Proof.
  intros Hs He. unfold strip, rstrip. rewrite (@lstrip_id s Hs).
  apply ends_clean_rev in He. rewrite (@lstrip_id (rev s) He).
  apply rev_involutive.
Qed.

Lemma strip_clean x : starts_clean (strip x) /\ ends_clean (strip x).
Proof.
  unfold strip, rstrip. split.
  - assert (Hy := lstrip_starts_clean x).
    destruct (lstrip x) as [|a y]; simpl; auto.
    simpl in Hy. destruct (@lstrip_snoc (rev y) a Hy) as [l1 ->].
    rewrite rev_app_distr. simpl. exact Hy.
  - apply ends_clean_rev. rewrite rev_involutive.
    apply lstrip_starts_clean.
Qed.

Lemma space_not_numeric a : is_space a = true -> is_numeric_char a = false.
Proof.
  intros H. ascii_cases a; vm_compute in H; try discriminate H; reflexivity.
Qed.

Lemma squeeze_nil fuel : squeeze fuel [] = [].
Proof. destruct fuel; reflexivity. Qed.

Lemma squeeze_step fuel s :
  squeeze (S fuel) s
  = if 2 <=? lead s then " "%char :: squeeze fuel (lstrip s)
    else match s with
         | [] => []
         | a :: s' => a :: squeeze fuel s'
         end.
Proof. reflexivity. Qed.

Lemma squeeze_not_nil fuel s : s <> [] -> squeeze fuel s <> [].
Proof.
  intros Hs. destruct fuel; [exact Hs|]. rewrite squeeze_step.
  destruct (2 <=? lead s); [discriminate|].
  destruct s; [contradiction|discriminate].
Qed.

Lemma squeeze_starts_clean fuel s :
  starts_clean s -> starts_clean (squeeze fuel s).
Proof.
  intros Hs. destruct fuel; [exact Hs|]. rewrite squeeze_step.
  rewrite (@lead_clean s Hs). simpl. destruct s; simpl; auto.
Qed.

Lemma single_spaced_cons a r :
  (is_space a = false \/ starts_clean r) -> single_spaced r ->
  single_spaced (a :: r).
Proof.
  intros H Hr. simpl. split; auto.
  destruct r as [|b r']; auto. simpl in H.
  intros [Ha Hb]. destruct H; congruence.
Qed.

Lemma squeeze_single_spaced fuel :
  forall s, length s <= fuel -> single_spaced (squeeze fuel s).
Proof.
  induction fuel as [|fuel IH]; intros s Hlen.
  - destruct s; [exact I|simpl in Hlen; lia].
  - rewrite squeeze_step. destruct (2 <=? lead s) eqn:E.
    + apply Nat.leb_le in E. assert (Hl := length_lstrip s).
      apply single_spaced_cons.
      * right. apply squeeze_starts_clean, lstrip_starts_clean.
      * apply IH. lia.
    + apply Nat.leb_gt in E. destruct s as [|a s']; [exact I|].
      simpl in Hlen. apply single_spaced_cons; [|apply IH; lia].
      simpl in E. destruct (is_space a); [|now left].
      right. apply squeeze_starts_clean.
      destruct s' as [|b s'']; simpl; auto.
      simpl in E. destruct (is_space b); [lia|reflexivity].
Qed.

Lemma lstrip_ends_clean s :
  s <> [] -> ends_clean s -> lstrip s <> [] /\ ends_clean (lstrip s).
Proof.
  induction s as [|a s IH]; intros Hs He; [contradiction|].
  simpl. destruct (is_space a) eqn:Ea.
  - destruct s as [|b s']; [simpl in He; congruence|].
    apply IH; [discriminate|]. exact He.
  - split; [discriminate|exact He].
Qed.

Lemma squeeze_ends_clean fuel :
  forall s, length s <= fuel -> ends_clean s -> ends_clean (squeeze fuel s).
Proof.
  induction fuel as [|fuel IH]; intros s Hlen He; [exact He|].
  rewrite squeeze_step. destruct (2 <=? lead s) eqn:E.
  - apply Nat.leb_le in E. assert (Hl := length_lstrip s).
    assert (Hs : s <> []) by (destruct s; [simpl in E; lia|discriminate]).
    destruct (lstrip_ends_clean Hs He) as [Hn Hc].
    apply ends_clean_cons; [now apply squeeze_not_nil|].
    apply IH; [lia|exact Hc].
  - destruct s as [|a s']; [exact I|]. simpl in Hlen.
    destruct s' as [|b s''].
    + rewrite squeeze_nil. exact He.
    + apply ends_clean_cons; [apply squeeze_not_nil; discriminate|].
      apply IH; [simpl in *; lia|exact He].
Qed.

Lemma forallb_lstrip_numeric s :
  forallb is_numeric_char s = true -> lead s = 0.
Proof.
  destruct s as [|a s]; simpl; auto. intros H.
  apply andb_true_iff in H. destruct H as [Ha _].
  destruct (is_space a) eqn:E; auto.
  apply space_not_numeric in E. congruence.
Qed.

Lemma squeeze_numeric fuel :
  forall s, forallb is_numeric_char (squeeze fuel s) = true ->
            forallb is_numeric_char s = true.
Proof.
  induction fuel as [|fuel IH]; intros s H; [exact H|].
  rewrite squeeze_step in H. destruct (2 <=? lead s).
  - simpl in H. discriminate H.
  - destruct s as [|a s']; auto. simpl in *.
    apply andb_true_iff in H. destruct H as [Ha H].
    rewrite Ha. simpl. now apply IH.
Qed.

(** The description of line 60: cleaning a text that is not empty, not
    numeric and trimmed gives a tidy text. *)
Lemma clean_tidy desc :
  desc <> [] -> isnumeric desc = false -> starts_clean desc ->
  ends_clean desc -> tidy (Westpac.clean desc).
Proof.
  intros Hn Hnum Hs He. rewrite clean_squeeze.
  set (r := squeeze (S (length desc)) desc).
  assert (Hr : r <> []) by now apply squeeze_not_nil.
  repeat split; auto.
  - destruct r as [|a r'] eqn:Er; [contradiction|].
    unfold isnumeric. destruct (forallb is_numeric_char (a :: r')) eqn:E; auto.
    rewrite <- Er in E. apply squeeze_numeric in E.
    destruct desc; [contradiction|]. unfold isnumeric in Hnum. congruence.
  - apply strip_id.
    + now apply squeeze_starts_clean.
    + apply squeeze_ends_clean; auto.
  - apply squeeze_single_spaced. auto.
Qed.

(** Lines 41-45 give such a text. *)
Lemma raw_description_clean rest_of_line amount_str :
  let desc := Westpac.raw_description rest_of_line amount_str in
  desc <> [] /\ isnumeric desc = false /\ starts_clean desc /\
  ends_clean desc.
Proof.
  unfold Westpac.raw_description.
  set (d := strip (slice_to rest_of_line (rfind amount_str rest_of_line))).
  destruct (strip_clean (slice_to rest_of_line
                           (rfind amount_str rest_of_line))) as [Hs He].
  fold d in Hs, He.
  destruct d as [|a d'] eqn:Ed.
  - vm_compute. repeat split; auto; discriminate.
  - destruct (isnumeric (a :: d')) eqn:En.
    + vm_compute. repeat split; auto; discriminate.
    + repeat split; auto. discriminate.
Qed.

Lemma westpac_step_tidy uuid4 acc line :
  Forall (fun t => tidy (description t)) acc ->
  when_done (Forall (fun t => tidy (description t)))
            (Westpac.step uuid4 acc line).
Proof.
  intros Hacc. unfold Westpac.step.
  destruct (re_match Westpac.line_start_pattern line) as [m|]; simpl; auto.
  destruct (findall1 Westpac.amount_pattern (grp 2 m)) as [|tok toks];
    simpl; auto.
  destruct (strptime fmt_d_b_y (grp 1 m)); simpl; auto.
  destruct (float _); simpl; auto.
  apply Forall_app. split; auto. constructor; [|constructor]. simpl.
  destruct (raw_description_clean (grp 2 m) (last (tok :: toks) []))
    as (H1 & H2 & H3 & H4).
  now apply clean_tidy.
Qed.

(** C8, as the code has it.  The Westpac script is the one that cleans its
    descriptions: every record it prints has a description that is trimmed,
    has no run of two or more blanks, is not empty and is not made of digits
    only, because the placeholder "-" stands in for a text that is empty or
    numeric after trimming. *)
Theorem westpac_descriptions_tidy :
  (forall (uuid4 : nat -> pystr) pages ts,
     Westpac.parse uuid4 pages = Done ts ->
     forall t, In t ts -> tidy (description t)) /\
  (forall rest_of_line amount_str,
     let cut :=
       strip (slice_to rest_of_line (rfind amount_str rest_of_line)) in
     cut = [] \/ isnumeric cut = true ->
     Westpac.clean (Westpac.raw_description rest_of_line amount_str)
     = py "-").
Proof.
  split.
  - intros uuid4 pages ts Hts t Hin.
    assert (H : when_done (Forall (fun t => tidy (description t)))
                  (Westpac.parse uuid4 pages)).
    { unfold Westpac.parse. apply for_each_inv; [|constructor].
      intros acc n _ Hacc. unfold Westpac.page_step.
      destruct (nth_error pages n) as [[|c text]|]; simpl; auto.
      apply for_each_inv; auto.
      intros acc' line _. apply westpac_step_tidy. }
    rewrite Hts in H. simpl in H.
    now apply (proj1 (Forall_forall _ _) H).
  - intros rest_of_line amount_str cut H. unfold Westpac.raw_description.
    fold cut. destruct cut as [|a cut']; [reflexivity|].
    destruct H as [H|H]; [discriminate H|]. now rewrite H.
Qed.

(** A page 2 in the layout-preserving form, with blanks in runs, and a row
    whose text is a number. *)
Lemma westpac_descriptions_tidy_witness :
  (forall t,
     In t [mk_txn (sample_uuid4 0) (py "2024-01-01") (py "Coffee Shop 4.50")
                  (- (100 # 1))%Q;
           mk_txn (sample_uuid4 1) (py "2024-02-02") (py "-")
                  (- (5 # 1))%Q] ->
     tidy (description t)) /\
  Westpac.clean (Westpac.raw_description (py "123  5.00") (py "5.00"))
  = py "-".
Proof.
  destruct westpac_descriptions_tidy as [H1 H2]. split.
  - apply (H1 sample_uuid4
             [py ""; py "";
              py "  1 Jan 24   Coffee    Shop   4.50   100.00" ++ [newline]
              ++ py " 2 feb 24  123  5.00"]).
    vm_compute. reflexivity.
  - apply H2. right. vm_compute. reflexivity.
Defined.

(** C8 as stated fails for the other scripts: the CBA script prints the
    row "4 March 2024 7.00" with the empty description. *)
Lemma cba_empty_description :
  exists t,
    Cba.parse sample_uuid4 [py "4 March 2024 7.00"] = Done [t] /\
    description t = [].
Proof.
  eexists. split; [vm_compute; reflexivity|reflexivity].
Qed.

(** ** Balance rows and signs of the CBA script (C7, C1, C2) *)



(** A pattern that starts with [^] matches at the start of the text or
    nowhere: [search] finds what [match] finds. *)
Lemma scan_bol r fuel :
  forall i s, 0 < i -> scan (Cat Bol r) fuel i s = [].
Proof.
  induction fuel as [|fuel IH]; intros i s Hi; [reflexivity|].
  cbn [scan]. unfold match_at. cbn [run].
  destruct (Nat.eqb_spec i 0) as [->|_]; [lia|].
  destruct s as [|a s']; [reflexivity|]. apply IH. lia.
Qed.

Lemma search_bol r s : re_search (Cat Bol r) s = re_match (Cat Bol r) s.
Proof.
  unfold re_search, finditer, re_match. cbn [scan].
  destruct (match_at (Cat Bol r) 0 s) as [[e c]|]; [reflexivity|].
  destruct s as [|a s']; [reflexivity|].
  rewrite scan_bol by lia. reflexivity.
Qed.

Lemma cba_search_start s :
  re_search Cba.date_pattern s = re_match Cba.date_pattern s.
Proof. exact (search_bol _ s). Qed.





Lemma last_in {A : Type} (l : list A) (d : A) : l <> [] -> In (last l d) l.
Proof.
  induction l as [|a l IH]; [contradiction|]. intros _.
  destruct l as [|b l']; [now left|].
  right. apply IH. discriminate.
Qed.

(** [float] accepts the tokens of the CBA amount pattern; a token without
    a leading minus sign has a value that is not negative. *)
Lemma cba_token_float tok :
  lang (Cat (Opt (chr "-")) decimal_token) tok ->
  float (remove_commas tok) = Some (token_value tok) /\
  (is_char "-" (hd " "%char tok) = false -> (0 <= token_value tok)%Q).
Proof.
  intros H. apply lang_cat_inv in H. destruct H as (w1 & w2 & -> & H1 & H2).
  assert (Hshape := decimal_token_shape H2).
  destruct Hshape as (d & pre & d1 & d2 & Hw2 & Hd & _).
  destruct (digit_not_mark d Hd) as (Hc & Hm & Hp & _).
  destruct (decimal_token_float H2) as [Hf Hv].
  inversion H1; subst.
  - (* the sign is there *)
    match goal with Hs : lang (chr "-") _ |- _ =>
      apply lang_cls_inv in Hs; destruct Hs as (a & -> & Ha) end.
    unfold is_char in Ha. apply Ascii.eqb_eq in Ha. subst a.
    split; [|intros Hhd; simpl in Hhd; vm_compute in Hhd; discriminate Hhd].
    unfold token_value.
    change (remove_commas (["-"%char] ++ (d :: pre) ++ ["."%char; d1; d2]))
      with ("-"%char
            :: remove_commas ((d :: pre) ++ ["."%char; d1; d2])).
    assert (Hu : unsigned_float
                   (remove_commas ((d :: pre) ++ ["."%char; d1; d2]))
                 = Some (token_value ((d :: pre) ++ ["."%char; d1; d2]))).
    { rewrite <- Hf. cbn [app remove_commas filter]. rewrite Hc.
      cbn [negb]. unfold float. now rewrite Hm, Hp. }
    unfold float. change (is_char "-" "-") with true. cbv iota.
    rewrite Hu. reflexivity.
  - (* no sign *)
    match goal with Hs : lang Eps _ |- _ => inversion Hs; subst end.
    simpl. split; auto.
Qed.

Lemma cba_last_amount_float rem tok :
  Cba.last_amount rem = Some tok ->
  float (remove_commas tok) = Some (token_value tok) /\
  (is_char "-" (hd " "%char tok) = false -> (0 <= token_value tok)%Q).
Proof.
  unfold Cba.last_amount. intros H.
  destruct (findall1 Cba.amount_pattern rem) as [|t ts] eqn:E;
    [discriminate|].
  assert (Hin : In (last (t :: ts) []) (t :: ts))
    by (apply last_in; discriminate).
  injection H as Htok. rewrite <- Htok.
  apply cba_token_float. apply (@findall1_lang _ rem).
  - simpl. tauto.
  - change (findall1 (Grp 1 (Cat (Opt (chr "-")) decimal_token)) rem)
      with (findall1 Cba.amount_pattern rem).
    rewrite E. exact Hin.
Qed.

Lemma westpac_token_float rest tok :
  In tok (findall1 Westpac.amount_pattern rest) ->
  float (remove_commas tok) = Some (token_value tok) /\
  (0 <= token_value tok)%Q.
Proof.
  intros H. apply money_float. apply (@findall1_lang _ rest); auto.
  simpl. tauto.
Qed.

Lemma negated_nonpos v : (0 <= v)%Q -> (v * (-1 # 1) <= 0)%Q.
Proof. unfold Qle, Qmult. simpl. lia. Qed.

(** A turn of the Westpac loop leaves the list as it is or appends a
    record whose sign follows "CRED VOUCHER". *)
Lemma westpac_step_sign (uuid4 : nat -> pystr) transactions line :
  Westpac.step uuid4 transactions line = Done transactions \/
  exists d desc a,
    Westpac.step uuid4 transactions line
    = Done (append uuid4 transactions d (Westpac.clean desc) a) /\
    (contains (py "CRED VOUCHER") desc = true -> (0 <= a)%Q) /\
    (contains (py "CRED VOUCHER") desc = false -> (a <= 0)%Q).
Proof.
  unfold Westpac.step.
  destruct (re_match Westpac.line_start_pattern line) as [m|];
    [|now left].
  destruct (findall1 Westpac.amount_pattern (grp 2 m)) as [|t ts] eqn:E;
    [now left|].
  destruct (strptime fmt_d_b_y (grp 1 m)) as [date_obj|]; [|now left].
  destruct (@westpac_token_float (grp 2 m) (last (t :: ts) []))
    as [Hf Hv].
  { rewrite E. apply last_in. discriminate. }
  rewrite Hf. right. eexists. eexists. eexists.
  split; [reflexivity|]. split; intros Hc; rewrite Hc; simpl.
  - exact Hv.
  - now apply negated_nonpos.
Qed.

(** A Westpac line that gives a record: the record in full.  The
    description tested for "CRED VOUCHER" is the one of lines 41-45, before
    the blanks are squeezed. *)
Lemma westpac_step_row (uuid4 : nat -> pystr) transactions line m date_obj :
  re_match Westpac.line_start_pattern line = Some m ->
  findall1 Westpac.amount_pattern (grp 2 m) <> [] ->
  strptime fmt_d_b_y (grp 1 m) = Some date_obj ->
  Westpac.step uuid4 transactions line
  = Done (append uuid4 transactions (strftime_iso date_obj)
            (Westpac.clean
               (Westpac.raw_description (grp 2 m)
                  (last (findall1 Westpac.amount_pattern (grp 2 m)) [])))
            (if contains (py "CRED VOUCHER")
                  (Westpac.raw_description (grp 2 m)
                     (last (findall1 Westpac.amount_pattern (grp 2 m)) []))
             then token_value
                    (last (findall1 Westpac.amount_pattern (grp 2 m)) [])
             else (token_value
                     (last (findall1 Westpac.amount_pattern (grp 2 m)) [])
                   * (-1 # 1))%Q)) /\
  (0 <= token_value (last (findall1 Westpac.amount_pattern (grp 2 m)) []))%Q.
Proof.
  intros Hm Hne Hd.
  destruct (@westpac_token_float (grp 2 m)
              (last (findall1 Westpac.amount_pattern (grp 2 m)) []))
    as [Hf Hv]; [now apply last_in|].
  split; [|exact Hv].
  unfold Westpac.step. rewrite Hm.
  remember (findall1 Westpac.amount_pattern (grp 2 m)) as found eqn:E.
  destruct found as [|t ts]; [contradiction|].
  rewrite Hd, Hf.
  destruct (contains (py "CRED VOUCHER")
              (Westpac.raw_description (grp 2 m) (last (t :: ts) [])));
    reflexivity.
Qed.

(** C1, as the code has it.  A balance row of the CBA script has the
    amount 0.  A dated CBA line that is no balance row gives a record too:
    with the amount 0 when the rest of the line holds no decimal token, and,
    when the last token has no sign, with the negated value of that token,
    which is negative or zero.  A Westpac line that gives a record gives
    the one with the description of lines 41-45 (the text before the last
    amount, trimmed, or the placeholder) with its blanks squeezed; the row
    is a credit exactly when that description, before the blanks are
    squeezed, holds "CRED VOUCHER": then the amount is the value of the
    last amount, positive or zero, else its negation, negative or zero.  So
    zero is not kept for the balance rows: any row with a token of value
    zero has it, and so has a dated CBA line without a token. *)
Theorem sign_rule :
  (forall (uuid4 : nat -> pystr) transactions l,
     Cba.is_balance_line (strip l) = true ->
     exists d desc,
       Cba.step uuid4 transactions l
       = Done (append uuid4 transactions d desc 0%Q)) /\
  (forall (uuid4 : nat -> pystr) transactions l date_match,
     Cba.is_balance_line (strip l) = false ->
     re_match Cba.date_pattern (strip l) = Some date_match ->
     match Cba.last_amount (Cba.remaining (strip l) date_match) with
     | Some tok =>
         exists desc a,
           Cba.step uuid4 transactions l
           = Done (append uuid4 transactions (Cba.date_iso date_match)
                     desc a) /\
           (is_char "-" (hd " "%char tok) = false ->
            a = (- token_value tok)%Q /\ (a <= 0)%Q)
     | None =>
         Cba.step uuid4 transactions l
         = Done (append uuid4 transactions (Cba.date_iso date_match)
                   (Cba.remaining (strip l) date_match) 0%Q)
     end) /\
  (forall (uuid4 : nat -> pystr) transactions line m date_obj,
     re_match Westpac.line_start_pattern line = Some m ->
     findall1 Westpac.amount_pattern (grp 2 m) <> [] ->
     strptime fmt_d_b_y (grp 1 m) = Some date_obj ->
     exists tok desc a,
       tok = last (findall1 Westpac.amount_pattern (grp 2 m)) [] /\
       desc = Westpac.raw_description (grp 2 m) tok /\
       Westpac.step uuid4 transactions line
       = Done (append uuid4 transactions (strftime_iso date_obj)
                 (Westpac.clean desc) a) /\
       (contains (py "CRED VOUCHER") desc = true ->
        a = token_value tok /\ (0 <= a)%Q) /\
       (contains (py "CRED VOUCHER") desc = false ->
        a = (token_value tok * (-1 # 1))%Q /\ (a <= 0)%Q)).
Proof.
  repeat split.
  - intros uuid4 transactions l Hb.
    unfold Cba.step. rewrite Hb. unfold Cba.balance_row. eauto.
  - intros uuid4 transactions l date_match Hb Hm.
    unfold Cba.step. rewrite Hb. unfold Cba.transaction_row. rewrite Hm.
    destruct (Cba.last_amount (Cba.remaining (strip l) date_match))
      as [tok|] eqn:E; [|reflexivity].
    destruct (cba_last_amount_float _ E) as [Hf Hv]. rewrite Hf.
    eexists. eexists. split; [reflexivity|].
    intros Hhd. split; [reflexivity|].
    apply Hv in Hhd. apply Qopp_le_compat in Hhd. exact Hhd.
  - intros uuid4 transactions line m date_obj Hm Hne Hd.
    destruct (@westpac_step_row uuid4 transactions line m date_obj Hm Hne Hd)
      as [Hs Hv].
    eexists. eexists. eexists.
    split; [reflexivity|]. split; [reflexivity|].
    split; [exact Hs|].
    split; intros Hc; rewrite Hc; split; auto.
    now apply negated_nonpos.
Qed.

(** A CBA balance row, a dated CBA line with the unsigned token 4.50, and
    a Westpac credit voucher of 20.00. *)
Lemma sign_rule_witness :
  (exists d desc,
     Cba.step sample_uuid4 [] (py "CLOSING BALANCE 950.10")
     = Done (append sample_uuid4 [] d desc 0%Q)) /\
  (exists desc a,
     Cba.step sample_uuid4 [] (py "12 March 2024 COFFEE 4.50")
     = Done (append sample_uuid4 [] (py "2024-03-12") desc a) /\
     a = (- (9 # 2))%Q /\ (a <= 0)%Q) /\
  (exists a,
     Westpac.step sample_uuid4 [] (py "3 Mar 24 CRED VOUCHER 20.00")
     = Done [mk_txn (sample_uuid4 0) (py "2024-03-03") (py "CRED VOUCHER") a]
     /\ a = (20 # 1)%Q /\ (0 <= a)%Q).
Proof.
  destruct sign_rule as (H1 & H2 & H3). repeat split.
  - apply (H1 sample_uuid4 [] (py "CLOSING BALANCE 950.10")). reflexivity.
  - assert (H := H2 sample_uuid4 [] (py "12 March 2024 COFFEE 4.50")
                   (mk_rmatch 0 13
                      [(3, py "2024"); (2, py "March"); (1, py "12")])
                   eq_refl eq_refl).
    change (Cba.last_amount
              (Cba.remaining (strip (py "12 March 2024 COFFEE 4.50"))
                 (mk_rmatch 0 13
                    [(3, py "2024"); (2, py "March"); (1, py "12")])))
      with (Some (py "4.50")) in H.
    destruct H as (desc & a & Hs & Ha).
    destruct (Ha eq_refl) as [Ha1 Ha2].
    exists desc, a. split; [exact Hs|]. split; [|exact Ha2].
    rewrite Ha1. reflexivity.
  - destruct (H3 sample_uuid4 [] (py "3 Mar 24 CRED VOUCHER 20.00")
                (mk_rmatch 0 27
                   [(2, py "CRED VOUCHER 20.00"); (1, py "3 Mar 24")])
                (mk_date 2024 3 3))
      as (tok & desc & a & Ht & Hdesc & Hs & Hc & _).
    + vm_compute. reflexivity.
    + vm_compute. discriminate.
    + vm_compute. reflexivity.
    + subst tok desc. destruct Hc as [Ha Hpos]; [vm_compute; reflexivity|].
      exists a. split; [|split; [|exact Hpos]].
      * rewrite Hs. vm_compute. reflexivity.
      * rewrite Ha. vm_compute. reflexivity.
Defined.

(** C1 as stated fails.  A row with a token of value zero has the amount
    zero in every script, here in the Westpac script; the CBA script gives
    the dated line "1 January 2024 HELLO", which is no balance row, the
    amount zero as well, and gives the line "3 March 2024 REFUND -5.00",
    whose last token has a minus sign, a positive amount. *)
Lemma zero_amount_off_balance :
  (exists t,
     Westpac.parse sample_uuid4 [py ""; py ""; py "2 Jan 24 FEE WAIVED 0.00"]
     = Done [t] /\
     description t = py "FEE WAIVED" /\ (amount t == 0)%Q) /\
  Cba.is_balance_line (py "1 January 2024 HELLO") = false /\
  (exists t,
     Cba.parse sample_uuid4 [py "1 January 2024 HELLO"] = Done [t] /\
     description t = py "HELLO" /\ (amount t == 0)%Q) /\
  (exists t,
     Cba.parse sample_uuid4 [py "3 March 2024 REFUND -5.00"] = Done [t] /\
     (0 < amount t)%Q).
Proof.
  split; [|split; [reflexivity|split]].
  - eexists. split; [vm_compute; reflexivity|]. split; reflexivity.
  - eexists. split; [vm_compute; reflexivity|]. split; reflexivity.
  - eexists. split; [vm_compute; reflexivity|]. reflexivity.
Qed.

(** ** Dates that are no calendar dates (C2) *)

Lemma strptime_valid fmt s d :
  strptime fmt s = Some d -> valid_date (year d) (month d) (day d) = true.
Proof.
  unfold strptime, strptime_fields. intros H.
  destruct (re_match fmt s) as [m|]; [|discriminate].
  destruct (Nat.eqb (m_end m) (length s)); [|discriminate].
  repeat match type of H with
         | context [match ?e with _ => _ end] =>
             destruct e eqn:?; try discriminate
         end;
    inversion H; subst; simpl; assumption.
Qed.

(** The scripts that check the date (local.py, and likewise the two Westpac
    scripts through [strptime]) print calendar dates only: a line whose date
    does not parse is skipped. *)
Lemma local_dates_valid m d :
  Local.parsed_date m = Some d ->
  exists date_obj,
    d = strftime_iso date_obj /\
    valid_date (year date_obj) (month date_obj) (day date_obj) = true.
Proof.
  unfold Local.parsed_date. intros H.
  destruct (strptime fmt_Y_m_d _) as [date_obj|] eqn:E; [|discriminate].
  inversion H; subst. exists date_obj. split; auto.
  now apply strptime_valid in E.
Qed.

(** C2, where the code departs from it.  The 31st of April is no calendar
    date.  local.py drops a line with that date and keeps the next line,
    as C2 says.  The CBA script does not check the date it assembles and
    prints the record with the date "2024-04-31"; the Amex script does the
    same with "2025-02-31"; and the ANZ script, whose [strptime] sits under
    the one [try] of the whole run, ends the run without any record although
    the first row is well formed. *)
Theorem invalid_date_not_dropped :
  valid_date 2024 4 31 = false /\
  Local.parse_lines sample_uuid4
    [py "31 Apr DR TEA 1.00"; py "12 Feb DR COFFEE 4.50"]
  = Done [mk_txn (sample_uuid4 0) (py "2023-02-12") (py "COFFEE")
                 (- (9 # 2))%Q] /\
  Cba.parse sample_uuid4 [py "31 April 2024 COFFEE 4.50"]
  = Done [mk_txn (sample_uuid4 0) (py "2024-04-31") (py "COFFEE")
                 (- (9 # 2))%Q] /\
  Amex.parse_lines sample_uuid4 [py "February31 TEA 1.00"]
  = Done [mk_txn (sample_uuid4 0) (py "2025-02-31") (py "TEA")
                 (- (1 # 1))%Q] /\
  Anz.parse sample_uuid4
    [py "01/02/2024 01/02/2024 1234 COFFEE SHOP 4.50 120.00" ++ [newline]
     ++ py "02/05/2024 31/04/2024 1234 TEA 1.00 119.00"]
  = Raised.
Proof.
  repeat split; vm_compute; reflexivity.
Qed.

(** ** Which runs can raise *)

Lemma for_each_total {A S : Type} (body : S -> A -> outcome S) xs :
  (forall acc x, exists acc', body acc x = Done acc') ->
  forall acc, exists r, for_each body xs acc = Done r.
Proof.
  intros Hbody. induction xs as [|x xs IH]; intros acc; simpl; eauto.
  destruct (Hbody acc x) as [acc' ->]. simpl. apply IH.
Qed.

(** The numerals that the CBA and the Westpac patterns take are numerals
    for [float] too: these two scripts print a list for every document. *)
Lemma cba_total uuid4 pages : exists ts, Cba.parse uuid4 pages = Done ts.
Proof.
  unfold Cba.parse. apply for_each_total. intros acc text.
  unfold Cba.page_step. destruct text as [|a text]; eauto.
  apply for_each_total. intros acc' l. unfold Cba.step.
  destruct (Cba.is_balance_line (strip l)); eauto.
  unfold Cba.transaction_row.
  destruct (re_match Cba.date_pattern (strip l)) as [m|]; eauto.
  destruct (Cba.last_amount (Cba.remaining (strip l) m)) as [tok|] eqn:E;
    eauto.
  destruct (cba_last_amount_float _ E) as [-> _]. eauto.
Qed.

Lemma westpac_total uuid4 pages :
  exists ts, Westpac.parse uuid4 pages = Done ts.
Proof.
  unfold Westpac.parse. apply for_each_total. intros acc n.
  unfold Westpac.page_step.
  destruct (nth_error pages n) as [[|a text]|]; eauto.
  apply for_each_total. intros acc' line.
  destruct (westpac_step_sign uuid4 acc' line)
    as [->|(d & desc & a0 & -> & _)]; eauto.
Qed.

Lemma card_settle_total uuid4 acc d desc line :
  exists acc',
    WestpacCard.settle uuid4 acc d desc (WestpacCard.amount_tokens line)
    = Done acc'.
Proof.
  unfold WestpacCard.settle.
  assert (Hf := fun tok => @amount_token_float line tok).
  destruct (WestpacCard.amount_tokens line) as [|a [|b [|c [|e l]]]];
    simpl; eauto.
  - destruct (_ || _).
    + destruct (Hf a (or_introl eq_refl)) as (-> & _ & Ha).
      destruct a; [contradiction|eauto].
    + destruct (Hf a (or_introl eq_refl)) as (-> & _ & Ha).
      destruct a; [contradiction|eauto].
  - destruct (Hf a (or_introl eq_refl)) as (-> & _ & Ha).
    destruct a; [contradiction|eauto].
Qed.

Lemma card_total uuid4 :
  forall fuel acc lines,
    exists ts, WestpacCard.loop uuid4 fuel acc lines = Done ts.
Proof.
  induction fuel as [|fuel IH]; intros acc [|l following]; simpl; eauto.
  destruct (re_match _ _) as [m|]; auto.
  destruct (option_map _ _) as [d|]; auto.
  unfold WestpacCard.assemble.
  destruct (WestpacCard.accumulate _ _) as [[parts al] rest].
  destruct (card_settle_total uuid4 acc d (join (py " ") parts) al)
    as [acc' ->].
  simpl. apply IH.
Qed.

(** local.py takes [[\d,.]+] for a numeral and calls [float] outside any
    [try]: a line such as "2 Feb DR bar 1.2.3" ends the run. *)
Lemma local_raises :
  Local.parse_lines sample_uuid4 [py "2 Feb DR bar 1.2.3"] = Raised.
Proof. vm_compute. reflexivity. Qed.

(** * Further properties of the scripts *)

(** ** Runs that never raise *)

Lemma re_match_sets r s m n :
  re_match r s = Some m -> sets n r = true -> group n (m_groups m) <> None.
Proof.
  unfold re_match. intros H Hn.
  destruct (match_at r 0 s) as [[e c]|] eqn:E; [|discriminate].
  inversion H; subst. simpl. now apply (@match_at_groups r 0 s e c n E).
Qed.

(** A group that takes part in the match holds a text of its body. *)
Lemma re_match_grp (P : pystr -> Prop) r s m n :
  groups_ok (fun k w => k = n -> P w) r -> sets n r = true ->
  re_match r s = Some m -> P (grp n m).
Proof.
  intros HG Hn H. unfold grp.
  assert (Hs := @re_match_sets r s m n H Hn).
  destruct (group n (m_groups m)) as [w|] eqn:E; [|contradiction].
  exact (@re_match_group _ r s m n w HG H E eq_refl).
Qed.

Lemma lang_lit k w : lang (Lit k) w -> w = k.
Proof.
  revert w. induction k as [|a k IH]; intros w H; simpl in H.
  - now inversion H.
  - destruct k as [|b k'].
    + apply lang_cls_inv in H. destruct H as (c & -> & Hc).
      unfold is_char in Hc. apply Ascii.eqb_eq in Hc. now subst.
    + apply lang_cat_inv in H. destruct H as (w1 & w2 & -> & H1 & H2).
      apply lang_cls_inv in H1. destruct H1 as (c & -> & Hc).
      unfold is_char in Hc. apply Ascii.eqb_eq in Hc. subst.
      now rewrite (IH _ H2).
Qed.

(** A text of the alternation of the keys of a dictionary is a key. *)
Lemma lang_alts_keys (d : list (pystr * pystr)) w :
  lang (Alts (map (fun kv => Lit (fst kv)) d)) w ->
  dict_lookup d w <> None.
Proof.
  induction d as [|[k v] d IH]; simpl; intros H.
  - apply lang_cls_inv in H. destruct H as (a & _ & Ha). discriminate.
  - destruct (list_eq_dec ascii_dec w k); [discriminate|].
    destruct d as [|kv d'].
    + simpl in H. apply lang_lit in H. contradiction.
    + change (lang (Alt (Lit k)
                      (Alts (map (fun kv => Lit (fst kv)) (kv :: d')))) w)
        in H.
      inversion H; subst.
      * match goal with Hl : lang (Lit k) w |- _ => apply lang_lit in Hl end.
        contradiction.
      * now apply IH.
Qed.

(** [float] accepts the amount group [\d+\.\d{2}] of the Amex pattern. *)
Lemma amex_amount_float w :
  lang (Seq [Plus digit; chr "."; Times 2 digit]) w ->
  exists v, float w = Some v /\ (0 <= v)%Q.
Proof.
  intros H. simpl in H.
  apply lang_cat_inv in H. destruct H as (ds & w' & -> & H1 & H2).
  apply lang_point_two in H2. destruct H2 as (d1 & d2 & -> & Hd1 & Hd2).
  assert (Hds : Forall (fun a => is_digit a = true) ds).
  { apply (lang_chars (fun a => is_digit a = true)) with (2 := H1).
    simpl. auto. }
  exists (decimal ds [d1; d2]). split; [|apply decimal_nonneg].
  apply float_point; auto.
  simpl. lia.
Qed.

Lemma amex_groups s m :
  re_match Amex.date_line_pattern s = Some m ->
  dict_lookup Amex.month_map (grp 1 m) <> None /\
  exists v, float (grp 4 m) = Some v /\ (0 <= v)%Q.
Proof.
  intros H. split.
  - apply (@re_match_grp
             (fun w => dict_lookup Amex.month_map w <> None)
             Amex.date_line_pattern s m 1); [|reflexivity|exact H].
    unfold Amex.date_line_pattern. cbn [Seq groups_ok].
    repeat split; try (intros; discriminate).
    intros w Hw _. now apply lang_alts_keys.
  - apply (@re_match_grp
             (fun w => exists v, float w = Some v /\ (0 <= v)%Q)
             Amex.date_line_pattern s m 4); [|reflexivity|exact H].
    unfold Amex.date_line_pattern. cbn [Seq groups_ok].
    repeat split; try (intros; discriminate).
    intros w Hw _. now apply amex_amount_float.
Qed.

Lemma amex_step_debit uuid4 acc line rest :
  debits acc ->
  exists acc', Amex.step uuid4 acc line rest = Done acc' /\ debits acc'.
Proof.
  intros Hacc. unfold Amex.step.
  destruct (re_match Amex.date_line_pattern (strip line)) as [m|] eqn:E;
    [|eauto].
  destruct (amex_groups _ E) as [Hm (v & Hf & Hv)]. rewrite Hf.
  destruct (dict_lookup Amex.month_map (grp 1 m)) as [mm|];
    [|contradiction].
  eexists. split; [reflexivity|]. now apply debits_append.
Qed.

Lemma amex_loop_debit uuid4 lines :
  forall acc, debits acc ->
  exists ts, Amex.loop uuid4 acc lines = Done ts /\ debits ts.
Proof.
  induction lines as [|line rest IH]; intros acc Hacc; simpl; eauto.
  destruct (amex_step_debit uuid4 line rest Hacc) as (acc' & -> & Hacc').
  simpl. now apply IH.
Qed.

(** X1. The Amex script prints a list for every sequence of lines: the month
    name it looks up is a key of [month_map] and the amount it converts is
    a numeral, because the pattern lets nothing else through.  Every record
    it prints is a debit: the amount is negative or zero. *)
Theorem amex_never_raises_all_debits :
  forall (uuid4 : nat -> pystr) (lines : list pystr),
  exists ts,
    Amex.parse_lines uuid4 lines = Done ts /\
    forall t, In t ts -> (amount t <= 0)%Q.
Proof.
  intros uuid4 lines.
  destruct (@amex_loop_debit uuid4 lines [] (Forall_nil _)) as (ts & H & Hd).
  exists ts. split; auto. now apply Forall_forall.
Qed.

(** X2. The CBA script prints a list for every document: what [amount_pattern]
    finds is a numeral for [float], with or without a minus sign. *)
Theorem cba_never_raises :
  forall (uuid4 : nat -> pystr) (pages : list pystr),
  exists ts, Cba.parse uuid4 pages = Done ts.
Proof. intros. apply cba_total. Qed.

(** X3. The Westpac script prints a list for every document: what
    [amount_pattern] finds is a numeral for [float] once the commas are
    gone, even when it holds commas only before the point. *)
Theorem westpac_never_raises :
  forall (uuid4 : nat -> pystr) (pages : list pystr),
  exists ts, Westpac.parse uuid4 pages = Done ts.
Proof. intros. apply westpac_total. Qed.

(** X4. The Westpac card script prints a list for every sequence of lines. *)
Theorem card_never_raises :
  forall (uuid4 : nat -> pystr) (lines : list pystr),
  exists ts, WestpacCard.parse_lines uuid4 lines = Done ts.
Proof. intros. apply card_total. Qed.

(** ** The ANZ script: every row or none *)

Lemma anz_rows_done uuid4 text ms :
  (forall m, In m ms -> In m (finditer Anz.pattern text)) ->
  Forall (fun m => strptime fmt_d_m_Y (grp 3 m) <> None) ms ->
  forall acc, exists ts,
    for_each (Anz.step uuid4) ms acc = Done ts /\
    length ts = length acc + length ms.
Proof.
  intros Hin Hok. induction Hok as [|m ms Hm _ IH]; intros acc; simpl.
  - exists acc. split; auto.
  - destruct (@anz_amount_group text m (Hin m (or_introl eq_refl)))
      as [Hf _].
    unfold Anz.step at 1. rewrite Hf.
    destruct (strptime fmt_d_m_Y (grp 3 m)) as [d|]; [|contradiction].
    simpl.
    destruct (IH (fun x Hx => Hin x (or_intror Hx))
                 (append uuid4 acc (strftime_iso d) (strip (grp 5 m))
                    match group 7 (m_groups m) with
                    | Some _ => token_value (grp 6 m)
                    | None => (- token_value (grp 6 m))%Q
                    end)) as (ts & Hts & Hlen).
    exists ts. split; auto. rewrite Hlen. unfold append.
    rewrite length_app. simpl. lia.
Qed.

Lemma anz_rows_raise uuid4 ms :
  Exists (fun m => strptime fmt_d_m_Y (grp 3 m) = None) ms ->
  forall acc, for_each (Anz.step uuid4) ms acc = Raised.
Proof.
  intros Hbad. induction Hbad as [m ms Hm|m ms _ IH]; intros acc; simpl.
  - unfold Anz.step at 1. now rewrite Hm.
  - destruct (Anz.step uuid4 acc m); simpl; auto.
Qed.

Lemma rows_all_dated (ms : list rmatch) :
  forallb (fun m => match strptime fmt_d_m_Y (grp 3 m) with
                    | Some _ => true
                    | None => false
                    end) ms = true ->
  Forall (fun m => strptime fmt_d_m_Y (grp 3 m) <> None) ms.
Proof.
  intros H. apply Forall_forall. intros m Hm.
  rewrite forallb_forall in H. specialize (H m Hm).
  destruct (strptime fmt_d_m_Y (grp 3 m)); [discriminate|discriminate H].
Qed.

Lemma rows_one_undated (ms : list rmatch) :
  existsb (fun m => match strptime fmt_d_m_Y (grp 3 m) with
                    | Some _ => false
                    | None => true
                    end) ms = true ->
  Exists (fun m => strptime fmt_d_m_Y (grp 3 m) = None) ms.
Proof.
  intros H. apply Exists_exists. apply existsb_exists in H.
  destruct H as (m & Hm & H). exists m. split; auto.
  destruct (strptime fmt_d_m_Y (grp 3 m)); [discriminate H|reflexivity].
Qed.

(** X5. The ANZ script converts the date of every matched row under the one
    [try] of the run.  When the transaction date of every matched row is a
    calendar date it prints one record per matched row; when the date of
    one matched row is not, it prints nothing at all and the run fails,
    whatever the other rows are. *)
Theorem anz_every_row_or_none :
  forall (uuid4 : nat -> pystr) (text : pystr),
    (Forall (fun m => strptime fmt_d_m_Y (grp 3 m) <> None)
            (finditer Anz.pattern text) ->
     exists ts,
       Anz.parse_text uuid4 text = Done ts /\
       length ts = length (finditer Anz.pattern text)) /\
    (Exists (fun m => strptime fmt_d_m_Y (grp 3 m) = None)
            (finditer Anz.pattern text) ->
     Anz.parse_text uuid4 text = Raised).
Proof.
  intros uuid4 text. split.
  - intros Hok.
    destruct (@anz_rows_done uuid4 text (finditer Anz.pattern text)
                (fun m H => H) Hok []) as (ts & Hts & Hlen).
    exists ts. split; auto.
  - intros Hbad. now apply anz_rows_raise.
Qed.

(** Two rows with calendar dates, and the same two rows followed by a row
    dated 31/04/2024. *)
Lemma anz_every_row_or_none_witness :
  (exists ts,
     Anz.parse_text sample_uuid4
       (py "01/02/2024 01/02/2024 1234 COFFEE SHOP 4.50 120.00" ++ [newline]
        ++ py "02/02/2024 02/02/2024 1234 SALARY 100.00CR 220.00")
     = Done ts /\ length ts = 2) /\
  Anz.parse_text sample_uuid4
    (py "01/02/2024 01/02/2024 1234 COFFEE SHOP 4.50 120.00" ++ [newline]
     ++ py "02/02/2024 02/02/2024 1234 SALARY 100.00CR 220.00" ++ [newline]
     ++ py "02/05/2024 31/04/2024 1234 TEA 1.00 219.00")
  = Raised.
Proof.
  split.
  - destruct (anz_every_row_or_none sample_uuid4
                (py "01/02/2024 01/02/2024 1234 COFFEE SHOP 4.50 120.00"
                 ++ [newline]
                 ++ py "02/02/2024 02/02/2024 1234 SALARY 100.00CR 220.00"))
      as [H _].
    apply H. apply rows_all_dated. vm_compute. reflexivity.
  - destruct (anz_every_row_or_none sample_uuid4
                (py "01/02/2024 01/02/2024 1234 COFFEE SHOP 4.50 120.00"
                 ++ [newline]
                 ++ py "02/02/2024 02/02/2024 1234 SALARY 100.00CR 220.00"
                 ++ [newline]
                 ++ py "02/05/2024 31/04/2024 1234 TEA 1.00 219.00"))
      as [_ H].
    apply H. apply rows_one_undated. vm_compute. reflexivity.
Defined.

(** ** The card script: transactions it loses *)

Lemma accumulate_no_amounts following :
  Forall (fun f => WestpacCard.is_amounts_line (strip f) = false)
         following ->
  forall parts,
    WestpacCard.accumulate parts following
    = (parts ++ map strip following, [], []).
Proof.
  intros H. induction H as [|f following Hf _ IH]; intros parts; simpl.
  - now rewrite app_nil_r.
  - rewrite Hf, IH, <- app_assoc. reflexivity.
Qed.

Lemma card_loop_nil uuid4 fuel acc :
  WestpacCard.loop uuid4 fuel acc [] = Done acc.
Proof. destruct fuel; reflexivity. Qed.

(** X6. An operative line that no amounts line follows gives no record, and
    every line after it is used up as description: no later operative line
    among them is looked at. *)
Theorem card_unfinished_transaction :
  forall (uuid4 : nat -> pystr) fuel transactions line m date_obj following,
    re_match WestpacCard.date_pattern (strip line) = Some m ->
    strptime fmt_d_m_y (grp 1 m) = Some date_obj ->
    Forall (fun f => WestpacCard.is_amounts_line (strip f) = false)
           following ->
    WestpacCard.loop uuid4 (S fuel) transactions (line :: following)
    = Done transactions.
Proof.
  intros uuid4 fuel transactions line m date_obj following Hm Hd Hf.
  simpl. rewrite Hm, Hd. simpl. unfold WestpacCard.assemble.
  rewrite accumulate_no_amounts by exact Hf.
  change (WestpacCard.amount_tokens []) with (@nil pystr).
  unfold WestpacCard.settle. simpl. apply card_loop_nil.
Qed.

(** A purchase whose amounts line holds one token only, then a complete
    transaction: the first operative line swallows them all. *)
Lemma card_unfinished_transaction_witness :
  WestpacCard.loop sample_uuid4 5 []
    [py "01/02/24 BOOKSHOP"; py "12.00"; py "02/02/24 CAFE";
     py "SYDNEY"; py "4.50"]
  = Done [].
Proof.
  eapply (@card_unfinished_transaction sample_uuid4 4 []
            (py "01/02/24 BOOKSHOP") _ _
            [py "12.00"; py "02/02/24 CAFE"; py "SYDNEY"; py "4.50"]).
  - vm_compute. reflexivity.
  - vm_compute. reflexivity.
  - repeat (constructor; [vm_compute; reflexivity|]). constructor.
Defined.

(** X7. An amounts line with four decimal tokens or more gives no record: the
    operative line, the description lines and the amounts line are used up
    and the loop goes on after them with the list as it was. *)
Theorem card_long_amounts_line_dropped :
  forall (uuid4 : nat -> pystr) fuel transactions line m date_obj
         frags amt rest,
    re_match WestpacCard.date_pattern (strip line) = Some m ->
    strptime fmt_d_m_y (grp 1 m) = Some date_obj ->
    Forall (fun f => WestpacCard.is_amounts_line (strip f) = false) frags ->
    4 <= length (WestpacCard.amount_tokens (strip amt)) ->
    WestpacCard.loop uuid4 (S fuel) transactions
      (line :: frags ++ amt :: rest)
    = WestpacCard.loop uuid4 fuel transactions rest.
Proof.
  intros uuid4 fuel transactions line m date_obj frags amt rest
         Hm Hd Hf Hlen.
  simpl. rewrite Hm, Hd. simpl. unfold WestpacCard.assemble.
  rewrite accumulate_until_amounts; auto.
  - unfold WestpacCard.settle, WestpacCard.slots.
    destruct (WestpacCard.amount_tokens (strip amt))
      as [|a [|b [|c [|e l]]]]; simpl in Hlen; try lia.
    reflexivity.
  - unfold WestpacCard.is_amounts_line. apply Nat.leb_le. lia.
Qed.

(** A purchase whose amounts line lists four amounts. *)
Lemma card_long_amounts_line_dropped_witness :
  WestpacCard.loop sample_uuid4 3 []
    (py "01/02/24 BOOKSHOP" :: [] ++ py "1.00 2.00 3.00 4.00"
     :: [py "next"])
  = WestpacCard.loop sample_uuid4 2 [] [py "next"].
Proof.
  eapply (@card_long_amounts_line_dropped sample_uuid4 2 []
            (py "01/02/24 BOOKSHOP") _ _
            [] (py "1.00 2.00 3.00 4.00") [py "next"]).
  - vm_compute. reflexivity.
  - vm_compute. reflexivity.
  - constructor.
  - vm_compute. repeat constructor.
Defined.

(** ** The dates of the two Westpac scripts *)

Lemma digit_val_le a : is_digit a = true -> (digit_val a <= 9)%N.
Proof.
  intros H. ascii_cases a; vm_compute in H; try discriminate H;
    vm_compute; discriminate.
Qed.

Lemma two_digits_le w : lang (Cat digit digit) w -> (int_of w <= 99)%N.
Proof.
  intros H. apply lang_cat_inv in H. destruct H as (w1 & w2 & -> & H1 & H2).
  apply lang_cls_inv in H1, H2.
  destruct H1 as (a & -> & Ha), H2 as (b & -> & Hb).
  apply digit_val_le in Ha, Hb. unfold int_of. cbn [app fold_left]. lia.
Qed.

(** A format with [%y] and without [%Y]: the year is read with the pivot
    of [_strptime], 69..99 in the 1900s and 00..68 in the 2000s. *)
Lemma strptime_pivot fmt s d :
  groups_ok (fun n w => (n = 5 -> False) /\
                        (n = 4 -> lang (Cat digit digit) w)) fmt ->
  strptime fmt s = Some d -> (1969 <= year d <= 2068)%N.
Proof.
  intros HG H. unfold strptime in H.
  destruct (re_match fmt s) as [m|] eqn:E; [|discriminate].
  destruct (Nat.eqb (m_end m) (length s)); [|discriminate].
  unfold strptime_fields in H.
  destruct (group 5 (m_groups m)) as [w5|] eqn:E5.
  - destruct (@re_match_group _ fmt s m 5 w5 HG E E5) as [F _].
    destruct (F eq_refl).
  - destruct (group 4 (m_groups m)) as [w4|] eqn:E4.
    + destruct (@re_match_group _ fmt s m 4 w4 HG E E4) as [_ F].
      assert (Hw := two_digits_le (F eq_refl)).
      repeat match type of H with
             | context [match ?e with _ => _ end] =>
                 destruct e eqn:?; try discriminate
             end;
        inversion H; subst; simpl;
        match goal with
        | Hc : (_ <=? _)%N = true |- _ => apply N.leb_le in Hc
        | Hc : (_ <=? _)%N = false |- _ => apply N.leb_gt in Hc
        end; lia.
    + discriminate H.
Qed.

Lemma fmt_d_m_y_groups :
  groups_ok (fun n w => (n = 5 -> False) /\
                        (n = 4 -> lang (Cat digit digit) w)) fmt_d_m_y.
Proof.
  unfold fmt_d_m_y, dir_d, dir_m, dir_y. cbn [Seq groups_ok].
  repeat split; intros; try discriminate; auto.
Qed.

Lemma fmt_d_b_y_groups :
  groups_ok (fun n w => (n = 5 -> False) /\
                        (n = 4 -> lang (Cat digit digit) w)) fmt_d_b_y.
Proof.
  unfold fmt_d_b_y, dir_d, dir_b, dir_y, Plus. cbn [Seq groups_ok].
  repeat split; intros; try discriminate; auto.
Qed.

Lemma digit_char_cases (k : N) :
  (k < 10)%N ->
  (k = 0 \/ k = 1 \/ k = 2 \/ k = 3 \/ k = 4 \/ k = 5 \/ k = 6 \/ k = 7 \/
   k = 8 \/ k = 9)%N.
Proof. lia. Qed.

Lemma digit_char_digit n : is_digit (digit_char n) = true.
Proof.
  unfold digit_char.
  assert (H : (n mod 10 < 10)%N) by (apply N.mod_lt; discriminate).
  apply digit_char_cases in H.
  repeat destruct H as [H|H]; rewrite H; reflexivity.
Qed.

(** From the year 1000 on the year takes four digits. *)
Lemma year_text_four y :
  (1000 <= y <= 9999)%N -> year_text y = pad4 y.
Proof.
  intros H. unfold year_text, pad4. cbn [drop_zeros].
  assert (Hlo : (1 <= y / 1000)%N) by (apply N.div_le_lower_bound; lia).
  assert (Hhi : (y / 1000 < 10)%N) by (apply N.Div0.div_lt_upper_bound; lia).
  unfold digit_char at 1. rewrite (N.mod_small (y / 1000) 10) by exact Hhi.
  destruct (digit_char_cases Hhi) as [C|C]; [rewrite C in Hlo; lia|].
  repeat destruct C as [C|C]; rewrite C; reflexivity.
Qed.

Lemma iso_shaped_strftime d :
  (1000 <= year d <= 9999)%N -> iso_shaped (strftime_iso d) = true.
Proof.
  intros H. unfold strftime_iso. rewrite year_text_four by exact H.
  unfold pad4, pad2, iso_shaped. cbn [app py String.list_ascii_of_string].
  cbn [forallb]. rewrite !digit_char_digit. reflexivity.
Qed.

Lemma dated_within_append uuid4 lo hi acc d desc a :
  dated_within lo hi acc ->
  valid_date (year d) (month d) (day d) = true ->
  (lo <= year d <= hi)%N -> (1000 <= year d <= 9999)%N ->
  dated_within lo hi (append uuid4 acc (strftime_iso d) desc a).
Proof.
  intros Hacc Hv Hy Hs. unfold dated_within, append.
  apply Forall_app. split; auto. constructor; [|constructor]. simpl.
  exists d. repeat split; auto; try lia. now apply iso_shaped_strftime.
Qed.

Lemma westpac_step_dated uuid4 acc line :
  dated_within 1969 2068 acc ->
  when_done (dated_within 1969 2068) (Westpac.step uuid4 acc line).
Proof.
  intros Hacc. unfold Westpac.step.
  destruct (re_match Westpac.line_start_pattern line) as [m|]; simpl; auto.
  destruct (findall1 Westpac.amount_pattern (grp 2 m)) as [|tok toks];
    simpl; auto.
  destruct (strptime fmt_d_b_y (grp 1 m)) as [d|] eqn:E; simpl; auto.
  destruct (float _); simpl; auto.
  assert (Hy := @strptime_pivot _ _ _ fmt_d_b_y_groups E).
  apply dated_within_append; auto; try lia.
  now apply strptime_valid in E.
Qed.

(** X8. Every record of the Westpac script carries a calendar date of the
    years 1969 to 2068, written as four digits, two digits and two digits
    with hyphens between: the line of any other date gives no record. *)
Theorem westpac_dates :
  forall (uuid4 : nat -> pystr) (pages : list pystr) (ts : list txn),
    Westpac.parse uuid4 pages = Done ts -> dated_within 1969 2068 ts.
Proof.
  intros uuid4 pages ts H.
  assert (Hinv : when_done (dated_within 1969 2068)
                           (Westpac.parse uuid4 pages)).
  { unfold Westpac.parse. apply for_each_inv; [|constructor].
    intros acc n _ Hacc. unfold Westpac.page_step.
    destruct (nth_error pages n) as [[|a text]|]; simpl; auto.
    apply for_each_inv; auto.
    intros acc' line _ Hacc'. now apply westpac_step_dated. }
  rewrite H in Hinv. exact Hinv.
Qed.

(** A line of 1999, a line of 2024 and a line dated the 31st of April. *)
Lemma westpac_dates_witness :
  exists ts,
    Westpac.parse sample_uuid4
      [py ""; py "";
       py "31 Dec 99  Coffee Shop  4.50  100.00" ++ [newline]
       ++ py "31 Apr 24  Tea  1.00  99.00" ++ [newline]
       ++ py " 2 feb 24  Books  5.00"]
    = Done ts /\ length ts = 2 /\ dated_within 1969 2068 ts.
Proof.
  eexists. split; [vm_compute; reflexivity|]. split; [reflexivity|].
  apply (@westpac_dates sample_uuid4
           [py ""; py "";
            py "31 Dec 99  Coffee Shop  4.50  100.00" ++ [newline]
            ++ py "31 Apr 24  Tea  1.00  99.00" ++ [newline]
            ++ py " 2 feb 24  Books  5.00"]).
  vm_compute. reflexivity.
Defined.

Lemma card_settle_dated uuid4 acc d desc amounts :
  dated_within 1969 2068 acc ->
  valid_date (year d) (month d) (day d) = true ->
  (1969 <= year d <= 2068)%N ->
  when_done (dated_within 1969 2068)
            (WestpacCard.settle uuid4 acc (strftime_iso d) desc amounts).
Proof.
  intros Hacc Hv Hy. unfold WestpacCard.settle.
  destruct (WestpacCard.slots amounts desc) as [debit credit].
  destruct debit as [|a debit], credit as [|b credit]; simpl; auto;
    destruct (float _); simpl; auto;
    apply dated_within_append; auto; lia.
Qed.

Lemma card_loop_dated uuid4 :
  forall fuel acc lines,
    dated_within 1969 2068 acc ->
    when_done (dated_within 1969 2068)
              (WestpacCard.loop uuid4 fuel acc lines).
Proof.
  induction fuel as [|fuel IH]; intros acc [|l following] Hacc; simpl; auto.
  destruct (re_match _ _) as [m|]; auto.
  destruct (strptime fmt_d_m_y (grp 1 m)) as [d|] eqn:E; simpl; auto.
  unfold WestpacCard.assemble.
  destruct (WestpacCard.accumulate _ _) as [[parts al] rest].
  assert (Hs := @card_settle_dated uuid4 acc d (join (py " ") parts)
                  (WestpacCard.amount_tokens al) Hacc
                  (strptime_valid _ _ E)
                  (@strptime_pivot _ _ _ fmt_d_m_y_groups E)).
  destruct (WestpacCard.settle _ _ _ _ _) as [acc'|]; simpl in *; auto.
Qed.

(** X9. Every record of the Westpac card script carries a calendar date of the
    years 1969 to 2068, written as four digits, two digits and two digits
    with hyphens between. *)
Theorem card_dates :
  forall (uuid4 : nat -> pystr) (lines : list pystr) (ts : list txn),
    WestpacCard.parse_lines uuid4 lines = Done ts ->
    dated_within 1969 2068 ts.
Proof.
  intros uuid4 lines ts H.
  assert (Hinv := @card_loop_dated uuid4 (length lines) [] lines
                    (Forall_nil _)).
  unfold WestpacCard.parse_lines in H. rewrite H in Hinv. exact Hinv.
Qed.

(** A purchase of 1970, and an operative line dated the 30th of February
    that is skipped. *)
Lemma card_dates_witness :
  exists ts,
    WestpacCard.parse_lines sample_uuid4
      [py "30/02/24 NOTHING"; py "01/02/70 BOOKSHOP"; py "SYDNEY";
       py "12.00 88.00"]
    = Done ts /\ length ts = 1 /\ dated_within 1969 2068 ts.
Proof.
  eexists. split; [vm_compute; reflexivity|]. split; [reflexivity|].
  apply (@card_dates sample_uuid4
           [py "30/02/24 NOTHING"; py "01/02/70 BOOKSHOP"; py "SYDNEY";
            py "12.00 88.00"]).
  vm_compute. reflexivity.
Defined.

(** ** The dates of local.py *)

Lemma rep_loop_keeps n0 g
    (body : nat -> pystr -> caps ->
            (nat -> pystr -> caps -> option (nat * caps)) ->
            option (nat * caps)) :
  (forall i s c k x, body i s c k = Some x ->
     exists i' s' c', group n0 c' = group n0 c /\ k i' s' c' = Some x) ->
  forall k n i s c x, rep_loop body g k n i s c = Some x ->
    exists i' s' c', group n0 c' = group n0 c /\ k i' s' c' = Some x.
Proof.
  intros Hbody k n.
  induction n as [|n IH]; intros i s c x H; simpl in H.
  - exists i, s, c. split; [reflexivity|exact H].
  - assert (Hturn : forall y,
              body i s c
                (fun i' s' c' =>
                   if i <? i' then rep_loop body g k n i' s' c' else None)
              = Some y ->
              exists i' s' c',
                group n0 c' = group n0 c /\ k i' s' c' = Some y).
    { intros y Hy. apply Hbody in Hy.
      destruct Hy as (i1 & s1 & c1 & Hc1 & Hy).
      destruct (i <? i1); [|discriminate].
      apply IH in Hy. destruct Hy as (i2 & s2 & c2 & Hc2 & Hy).
      exists i2, s2, c2. split; auto. congruence. }
    destruct g.
    + destruct (body i s c _) as [y|] eqn:E.
      * inversion H; subst. now apply Hturn.
      * exists i, s, c. split; [reflexivity|exact H].
    + destruct (k i s c) as [y|] eqn:E.
      * inversion H; subst. exists i, s, c. split; [reflexivity|exact E].
      * now apply Hturn.
Qed.

(** A pattern leaves the groups it does not have as they were. *)
Lemma run_keeps n r :
  mentions n r = false ->
  forall i s c k x, run r i s c k = Some x ->
    exists i' s' c', group n c' = group n c /\ k i' s' c' = Some x.
Proof.
  induction r as [|p|r1 IH1 r2 IH2|r1 IH1 r2 IH2|g r1 IH1|m r1 IH1| |];
    simpl; intros Hn i s c k x H.
  - eauto.
  - destruct s as [|a s']; [discriminate|].
    destruct (p a); [|discriminate]. eauto.
  - apply orb_false_iff in Hn. destruct Hn as [Hn1 Hn2].
    apply (IH1 Hn1) in H. destruct H as (i1 & s1 & c1 & Hc1 & H).
    apply (IH2 Hn2) in H. destruct H as (i2 & s2 & c2 & Hc2 & H).
    exists i2, s2, c2. split; auto. congruence.
  - apply orb_false_iff in Hn. destruct Hn as [Hn1 Hn2].
    destruct (run r1 i s c k) as [y|] eqn:E.
    + inversion H; subst. now apply (IH1 Hn1) in E.
    + now apply (IH2 Hn2) in H.
  - apply (@rep_loop_keeps n g (run r1)) in H; [exact H|].
    intros i0 s0 c0 k0 x0 H0. now apply (IH1 Hn) in H0.
  - apply orb_false_iff in Hn. destruct Hn as [Hn1 Hn2].
    apply (IH1 Hn2) in H. destruct H as (i1 & s1 & c1 & Hc1 & H).
    exists i1, s1, ((m, firstn (i1 - i) s) :: c1). split; auto.
    simpl. rewrite Hn1. exact Hc1.
  - destruct (Nat.eqb i 0); [|discriminate]. eauto.
  - destruct (at_eol s); [|discriminate]. eauto.
Qed.

(** [%Y] at the head of a format reads the four digits the text starts
    with. *)
Lemma strptime_year_first a b c d rest dt :
  is_digit a = true -> is_digit b = true ->
  is_digit c = true -> is_digit d = true ->
  strptime fmt_Y_m_d (a :: b :: c :: d :: rest) = Some dt ->
  year dt = int_of [a; b; c; d].
Proof.
  intros Ha Hb Hc Hd H. unfold strptime, re_match, match_at in H.
  destruct (run fmt_Y_m_d 0 (a :: b :: c :: d :: rest) [] accept)
    as [[e caps0]|] eqn:E; [|discriminate].
  cbn [m_end m_groups] in H.
  destruct (Nat.eqb e _); [|discriminate].
  change fmt_Y_m_d
    with (Cat (Grp 5 (Cat (Cls is_digit)
                        (Cat (Cls is_digit)
                           (Cat (Cls is_digit) (Cls is_digit)))))
              (Seq [chr "-"; dir_m; chr "-"; dir_d])) in E.
  remember (Seq [chr "-"; dir_m; chr "-"; dir_d]) as tail eqn:Htail.
  cbn [run] in E. rewrite Ha, Hb, Hc, Hd in E. cbn [Nat.sub firstn] in E.
  subst tail. apply run_keeps with (n := 5) in E; [|reflexivity].
  destruct E as (i' & s' & c' & Hg & E).
  unfold accept in E. injection E as _ Heq. subst caps0.
  unfold strptime_fields in H. rewrite Hg in H. cbn [group Nat.eqb] in H.
  repeat match type of H with
         | context [match ?e with _ => _ end] =>
             destruct e eqn:?; try discriminate
         end;
    inversion H; subst; reflexivity.
Qed.

Lemma local_parsed_date m ds :
  Local.parsed_date m = Some ds ->
  exists d,
    ds = strftime_iso d /\
    valid_date (year d) (month d) (day d) = true /\ year d = 2023%N.
Proof.
  unfold Local.parsed_date. intros H.
  destruct (strptime fmt_Y_m_d _) as [d|] eqn:E; [|discriminate].
  inversion H; subst. exists d. repeat split.
  - now apply strptime_valid in E.
  - unfold Local.year_fallback in E.
    cbn [py String.list_ascii_of_string app] in E.
    now apply strptime_year_first in E.
Qed.

Lemma local_append_dated uuid4 acc m ds desc a :
  dated_within 2023 2023 acc ->
  Local.parsed_date m = Some ds ->
  dated_within 2023 2023 (append uuid4 acc ds desc a).
Proof.
  intros Hacc H. apply local_parsed_date in H.
  destruct H as (d & -> & Hv & Hy).
  apply dated_within_append; auto; lia.
Qed.

Lemma local_primary_dated uuid4 acc line :
  dated_within 2023 2023 acc ->
  when_done (dated_within 2023 2023) (Local.primary_step uuid4 acc line).
Proof.
  intros Hacc. unfold Local.primary_step.
  destruct (re_match Local.date_pattern (strip line)) as [m|]; simpl; auto.
  destruct (Local.parsed_date m) as [ds|] eqn:E; simpl; auto.
  destruct (group 5 (m_groups m)); [|destruct (group 6 (m_groups m))];
    simpl; auto; destruct (float _); simpl; auto;
    now apply local_append_dated with m.
Qed.

Lemma local_fallback_dated uuid4 acc line :
  dated_within 2023 2023 acc ->
  when_done (dated_within 2023 2023) (Local.fallback_step uuid4 acc line).
Proof.
  intros Hacc. unfold Local.fallback_step.
  destruct (re_match Local.fallback_pattern (strip line)) as [m|];
    simpl; auto.
  destruct (Local.parsed_date m) as [ds|] eqn:E; simpl; auto.
  destruct (float _); simpl; auto.
  now apply local_append_dated with m.
Qed.

(** X10. Every record of local.py, from the primary pass or from the fallback
    pass, carries a calendar date of the year 2023, written as four digits,
    two digits and two digits with hyphens between; a line such as one of
    the 29th of February gives no record. *)
Theorem local_dates :
  forall (uuid4 : nat -> pystr) (lines : list pystr) (ts : list txn),
    Local.parse_lines uuid4 lines = Done ts -> dated_within 2023 2023 ts.
Proof.
  intros uuid4 lines ts H.
  assert (Hinv : when_done (dated_within 2023 2023)
                           (Local.parse_lines uuid4 lines)).
  { unfold Local.parse_lines, Local.primary_pass.
    assert (H1 : when_done (dated_within 2023 2023)
                   (for_each (Local.primary_step uuid4) lines [])).
    { apply for_each_inv; [|constructor].
      intros acc l _ Hacc. now apply local_primary_dated. }
    destruct (for_each (Local.primary_step uuid4) lines []) as [[|t l]|];
      simpl in *; auto.
    apply for_each_inv; [|constructor].
    intros acc l _ Hacc. now apply local_fallback_dated. }
  rewrite H in Hinv. exact Hinv.
Qed.

(** A line of the 29th of February, which 2023 does not have, and a line
    of the 28th. *)
Lemma local_dates_witness :
  exists ts,
    Local.parse_lines sample_uuid4
      [py "29 Feb DR rent 10.00"; py "28 Feb DR rent 10.00"]
    = Done ts /\ length ts = 1 /\ dated_within 2023 2023 ts.
Proof.
  eexists. split; [vm_compute; reflexivity|]. split; [reflexivity|].
  apply (@local_dates sample_uuid4
           [py "29 Feb DR rent 10.00"; py "28 Feb DR rent 10.00"]).
  vm_compute. reflexivity.
Defined.

(** ** Rows that are never lost *)

Lemma amex_loop_count uuid4 lines :
  forall acc, exists ts,
    Amex.loop uuid4 acc lines = Done ts /\
    length ts
    = length acc + length (matched_lines Amex.date_line_pattern lines).
Proof.
  induction lines as [|line rest IH]; intros acc; simpl.
  - exists acc. split; auto.
  - unfold Amex.step at 1, matches.
    destruct (re_match Amex.date_line_pattern (strip line)) as [m|] eqn:E.
    + destruct (amex_groups _ E) as [Hm (v & Hf & Hv)]. rewrite Hf.
      destruct (dict_lookup Amex.month_map (grp 1 m)) as [mm|];
        [|contradiction].
      simpl.
      match goal with
      | |- context [Amex.loop uuid4 ?a rest] =>
          destruct (IH a) as (ts & Hts & Hlen)
      end.
      exists ts. split; auto. rewrite Hlen. unfold append.
      rewrite length_app. simpl. lia.
    + simpl. apply IH.
Qed.

(** X11. The Amex script prints one record for every line that matches
    [date_line_pattern] once trimmed, whatever its day and month are and
    whatever the lines around it are: looking at the next line for a
    reference does not use that line up, and no date is checked. *)
Theorem amex_one_record_per_line :
  forall (uuid4 : nat -> pystr) (lines : list pystr),
  exists ts,
    Amex.parse_lines uuid4 lines = Done ts /\
    length ts = length (matched_lines Amex.date_line_pattern lines).
Proof.
  intros uuid4 lines.
  destruct (amex_loop_count uuid4 lines []) as (ts & H & Hlen).
  exists ts. split; auto.
Qed.

Lemma cba_step_count uuid4 acc l :
  exists acc',
    Cba.step uuid4 acc l = Done acc' /\
    length acc' = length acc + length (cba_rows [l]).
Proof.
  unfold Cba.step, cba_rows, matches. cbn [filter].
  destruct (Cba.is_balance_line (strip l)); cbn [orb].
  - eexists. split; [reflexivity|]. unfold Cba.balance_row, append.
    rewrite length_app. simpl. lia.
  - unfold Cba.transaction_row.
    destruct (re_match Cba.date_pattern (strip l)) as [m|].
    + destruct (Cba.last_amount (Cba.remaining (strip l) m)) as [tok|] eqn:E.
      * destruct (cba_last_amount_float _ E) as [-> _].
        eexists. split; [reflexivity|]. unfold append.
        rewrite length_app. simpl. lia.
      * eexists. split; [reflexivity|]. unfold append.
        rewrite length_app. simpl. lia.
    + exists acc. split; [reflexivity|simpl; lia].
Qed.

Lemma cba_lines_count uuid4 lines :
  forall acc, exists ts,
    for_each (Cba.step uuid4) lines acc = Done ts /\
    length ts = length acc + length (cba_rows lines).
Proof.
  induction lines as [|l lines IH]; intros acc; simpl.
  - exists acc. split; auto.
  - destruct (cba_step_count uuid4 acc l) as (acc' & -> & Hlen). simpl.
    destruct (IH acc') as (ts & Hts & Hlen').
    exists ts. split; auto. rewrite Hlen', Hlen. unfold cba_rows. simpl.
    destruct (_ || _); simpl; lia.
Qed.

(** X12. The CBA script prints one record for every balance line and for every
    other line that starts with a date, whether the date is a calendar
    date or not and whether the line holds an amount or not. *)
Theorem cba_one_record_per_row :
  forall (uuid4 : nat -> pystr) (lines : list pystr),
  exists ts,
    Cba.parse_lines uuid4 lines = Done ts /\
    length ts = length (cba_rows lines).
Proof.
  intros uuid4 lines.
  destruct (cba_lines_count uuid4 lines []) as (ts & H & Hlen).
  exists ts. split; auto.
Qed.

(** ** The CBA script: a signed token *)

Lemma cba_token_minus tok :
  lang (Cat (Opt (chr "-")) decimal_token) tok ->
  is_char "-" (hd " "%char tok) = true ->
  (token_value tok <= 0)%Q.
Proof.
  intros H Hhd. apply lang_cat_inv in H.
  destruct H as (w1 & w2 & -> & H1 & H2).
  assert (Hshape := decimal_token_shape H2).
  destruct Hshape as (d & pre & d1 & d2 & Hw2 & Hd & _).
  destruct (digit_not_mark d Hd) as (Hc & Hm & Hp & _).
  destruct (decimal_token_float H2) as [Hf Hv].
  inversion H1; subst.
  - match goal with Hs : lang (chr "-") _ |- _ =>
      apply lang_cls_inv in Hs; destruct Hs as (a & -> & Ha) end.
    unfold is_char in Ha. apply Ascii.eqb_eq in Ha. subst a.
    assert (Hu : unsigned_float
                   (remove_commas ((d :: pre) ++ ["."%char; d1; d2]))
                 = Some (token_value ((d :: pre) ++ ["."%char; d1; d2]))).
    { rewrite <- Hf. cbn [app remove_commas filter]. rewrite Hc.
      cbn [negb]. unfold float. now rewrite Hm, Hp. }
    unfold token_value at 1.
    change (remove_commas (["-"%char] ++ (d :: pre) ++ ["."%char; d1; d2]))
      with ("-"%char
            :: remove_commas ((d :: pre) ++ ["."%char; d1; d2])).
    unfold float. change (is_char "-" "-") with true. cbv iota.
    rewrite Hu. cbn [option_map].
    revert Hv. generalize (token_value ((d :: pre) ++ ["."%char; d1; d2])).
    intros v Hv. unfold Qle, Qopp in *. simpl in *. lia.
  - match goal with Hs : lang Eps _ |- _ => inversion Hs; subst end.
    simpl in Hhd. rewrite Hm in Hhd. discriminate Hhd.
Qed.

(** X13. When the last amount of a dated CBA line is written with a minus sign,
    the record has the value of the token without its sign: [float] reads
    the sign and line 82 negates the result, so the amount is positive or
    zero. *)
Theorem cba_minus_sign_flipped :
  forall (uuid4 : nat -> pystr) (transactions : list txn) (l : pystr)
         (m : rmatch) (tok : pystr),
    Cba.is_balance_line (strip l) = false ->
    re_match Cba.date_pattern (strip l) = Some m ->
    Cba.last_amount (Cba.remaining (strip l) m) = Some tok ->
    is_char "-" (hd " "%char tok) = true ->
    Cba.step uuid4 transactions l
    = Done (append uuid4 transactions (Cba.date_iso m)
              (strip (slice_to (Cba.remaining (strip l) m)
                        (rfind tok (Cba.remaining (strip l) m))))
              (- token_value tok)%Q) /\
    (0 <= - token_value tok)%Q.
Proof.
  intros uuid4 transactions l m tok Hb Hm Htok Hsign.
  unfold Cba.step. rewrite Hb. unfold Cba.transaction_row.
  rewrite Hm, Htok.
  destruct (cba_last_amount_float _ Htok) as [-> _]. split; auto.
  assert (Hle : (token_value tok <= 0)%Q).
  { apply cba_token_minus; auto.
    unfold Cba.last_amount in Htok.
    destruct (findall1 Cba.amount_pattern (Cba.remaining (strip l) m))
      as [|t ts] eqn:E; [discriminate|].
    assert (Hin : In (last (t :: ts) []) (t :: ts))
      by (apply last_in; discriminate).
    injection Htok as Htok. rewrite <- Htok.
    apply (@findall1_lang _ (Cba.remaining (strip l) m)).
    - simpl. tauto.
    - change (findall1 (Grp 1 (Cat (Opt (chr "-")) decimal_token))
                (Cba.remaining (strip l) m))
        with (findall1 Cba.amount_pattern (Cba.remaining (strip l) m)).
      rewrite E. exact Hin. }
  revert Hle. generalize (token_value tok). intros v Hv.
  unfold Qle, Qopp in *. simpl in *. lia.
Qed.

(** A refund written [-5.00]. *)
Lemma cba_minus_sign_flipped_witness :
  Cba.step sample_uuid4 [] (py "1 January 2024 REFUND -5.00")
  = Done [mk_txn (sample_uuid4 0) (py "2024-01-01") (py "REFUND") (5 # 1)%Q]
  /\ (0 <= 5 # 1)%Q.
Proof.
  apply (@cba_minus_sign_flipped sample_uuid4 []
           (py "1 January 2024 REFUND -5.00")
           (mk_rmatch 0 14 [(3, py "2024"); (2, py "January"); (1, py "1")])
           (py "-5.00")).
  - vm_compute. reflexivity.
  - vm_compute. reflexivity.
  - vm_compute. reflexivity.
  - vm_compute. reflexivity.
Defined.

(** ** The CBA script reads page by page *)

Lemma content_after_append uuid4 uuid4' pre a b d desc x :
  content_after pre a b ->
  content_after pre (append uuid4 a d desc x) (append uuid4' b d desc x).
Proof.
  unfold content_after, append. intros H.
  rewrite !map_app, H, app_assoc. reflexivity.
Qed.

Lemma cba_step_after uuid4 pre a b l :
  content_after pre a b ->
  rel_out (content_after pre) (Cba.step uuid4 a l) (Cba.step uuid4 b l).
Proof.
  intros H. unfold Cba.step, Cba.transaction_row, Cba.balance_row.
  repeat match goal with
         | |- context [match ?e with _ => _ end] => destruct e
         end;
    simpl; auto using content_after_append.
Qed.

Lemma cba_page_after uuid4 pre a b text :
  content_after pre a b ->
  rel_out (content_after pre) (Cba.page_step uuid4 a text)
          (Cba.page_step uuid4 b text).
Proof.
  intros H. unfold Cba.page_step. destruct text; simpl; auto.
  apply for_each_rel; auto. intros; now apply cba_step_after.
Qed.

Lemma cba_pages_total uuid4 pages :
  forall acc, exists ts, for_each (Cba.page_step uuid4) pages acc = Done ts.
Proof.
  apply for_each_total. intros acc text.
  unfold Cba.page_step. destruct text as [|a text]; eauto.
  destruct (cba_lines_count uuid4 (splitlines (a :: text)) acc)
    as (ts & H & _).
  eauto.
Qed.

(** X14. The CBA script reads a document page by page and carries nothing from
    one page to the next but the list: the records of a document are,
    identifiers apart, the records of its first pages followed by the
    records of the pages after them. *)
Theorem cba_pages_compose :
  forall (uuid4 : nat -> pystr) (pages1 pages2 : list pystr),
  exists ts1 ts2 ts,
    Cba.parse uuid4 pages1 = Done ts1 /\
    Cba.parse uuid4 pages2 = Done ts2 /\
    Cba.parse uuid4 (pages1 ++ pages2) = Done ts /\
    map content ts = map content ts1 ++ map content ts2.
Proof.
  intros uuid4 pages1 pages2. unfold Cba.parse.
  destruct (cba_pages_total uuid4 pages1 []) as (ts1 & H1).
  destruct (cba_pages_total uuid4 pages2 []) as (ts2 & H2).
  destruct (cba_pages_total uuid4 pages2 ts1) as (ts & H).
  exists ts1, ts2, ts. repeat split; auto.
  - rewrite for_each_app, H1. exact H.
  - assert (Hrel : rel_out (content_after (map content ts1))
                     (for_each (Cba.page_step uuid4) pages2 ts1)
                     (for_each (Cba.page_step uuid4) pages2 [])).
    { apply for_each_rel.
      - intros a b x Hab. now apply cba_page_after.
      - unfold content_after. simpl. now rewrite app_nil_r. }
    rewrite H, H2 in Hrel. exact Hrel.
Qed.

(** ** Trimmed descriptions *)

Lemma strip_strip s : strip (strip s) = strip s.
Proof. destruct (strip_clean s). now apply strip_id. Qed.

Lemma trimmed_append uuid4 acc d desc a :
  trimmed_descriptions acc ->
  trimmed_descriptions (append uuid4 acc d (strip desc) a).
Proof.
  intros H. unfold trimmed_descriptions, append.
  apply Forall_app. split; auto. constructor; [|constructor].
  simpl. apply strip_strip.
Qed.

Lemma local_primary_trimmed uuid4 acc line :
  trimmed_descriptions acc ->
  when_done trimmed_descriptions (Local.primary_step uuid4 acc line).
Proof.
  intros H. unfold Local.primary_step.
  repeat match goal with
         | |- context [match ?e with _ => _ end] => destruct e
         end;
    simpl; auto using trimmed_append.
Qed.

Lemma local_fallback_trimmed uuid4 acc line :
  trimmed_descriptions acc ->
  when_done trimmed_descriptions (Local.fallback_step uuid4 acc line).
Proof.
  intros H. unfold Local.fallback_step.
  repeat match goal with
         | |- context [match ?e with _ => _ end] => destruct e
         end;
    simpl; auto using trimmed_append.
Qed.

Lemma anz_step_trimmed uuid4 acc m :
  trimmed_descriptions acc ->
  when_done trimmed_descriptions (Anz.step uuid4 acc m).
Proof.
  intros H. unfold Anz.step.
  destruct (strptime _ _); simpl; auto.
  destruct (float _); simpl; auto using trimmed_append.
Qed.

Lemma cba_step_trimmed uuid4 acc l :
  trimmed_descriptions acc ->
  when_done trimmed_descriptions (Cba.step uuid4 acc l).
Proof.
  intros H. unfold Cba.step.
  destruct (Cba.is_balance_line (strip l)).
  - unfold Cba.balance_row.
    destruct (contains (py "OPENING") (strip l));
      [change (py "OPENING BALANCE") with (strip (py "OPENING BALANCE"))
      |change (py "CLOSING BALANCE") with (strip (py "CLOSING BALANCE"))];
      cbn [when_done]; now apply trimmed_append.
  - unfold Cba.transaction_row, Cba.remaining.
    destruct (re_match _ _) as [m|]; simpl; auto.
    destruct (Cba.last_amount _); simpl; auto using trimmed_append.
    destruct (float _); simpl; auto using trimmed_append.
Qed.

(** X15. The descriptions that local.py, the ANZ script and the CBA script
    print are trimmed: none starts or ends with a blank.  (The Amex script
    and the card script join texts and give no such promise.) *)
Theorem descriptions_trimmed :
  (forall (uuid4 : nat -> pystr) lines ts,
      Local.parse_lines uuid4 lines = Done ts -> trimmed_descriptions ts) /\
  (forall (uuid4 : nat -> pystr) text ts,
      Anz.parse_text uuid4 text = Done ts -> trimmed_descriptions ts) /\
  (forall (uuid4 : nat -> pystr) pages ts,
      Cba.parse uuid4 pages = Done ts -> trimmed_descriptions ts).
Proof.
  repeat split.
  - intros uuid4 lines ts H.
    assert (Hinv : when_done trimmed_descriptions
                             (Local.parse_lines uuid4 lines)).
    { unfold Local.parse_lines, Local.primary_pass.
      assert (H1 : when_done trimmed_descriptions
                     (for_each (Local.primary_step uuid4) lines [])).
      { apply for_each_inv; [|constructor].
        intros acc l _ Hacc. now apply local_primary_trimmed. }
      destruct (for_each (Local.primary_step uuid4) lines []) as [[|t l]|];
        simpl in *; auto.
      apply for_each_inv; [|constructor].
      intros acc l _ Hacc. now apply local_fallback_trimmed. }
    rewrite H in Hinv. exact Hinv.
  - intros uuid4 text ts H.
    assert (Hinv : when_done trimmed_descriptions
                             (Anz.parse_text uuid4 text)).
    { unfold Anz.parse_text. apply for_each_inv; [|constructor].
      intros acc m _ Hacc. now apply anz_step_trimmed. }
    rewrite H in Hinv. exact Hinv.
  - intros uuid4 pages ts H.
    assert (Hinv : when_done trimmed_descriptions (Cba.parse uuid4 pages)).
    { unfold Cba.parse. apply for_each_inv; [|constructor].
      intros acc text _ Hacc. unfold Cba.page_step.
      destruct text; simpl; auto.
      apply for_each_inv; auto.
      intros acc' l _ Hacc'. now apply cba_step_trimmed. }
    rewrite H in Hinv. exact Hinv.
Qed.

(** A line of each of the three scripts with blanks around the
    description. *)
Lemma descriptions_trimmed_witness :
  (exists ts,
     Local.parse_lines sample_uuid4 [py "28 Feb DR   rent   10.00"]
     = Done ts /\ length ts = 1 /\ trimmed_descriptions ts) /\
  (exists ts,
     Anz.parse_text sample_uuid4
       (py "01/02/2024 01/02/2024 1234   COFFEE SHOP   4.50 120.00")
     = Done ts /\ length ts = 1 /\ trimmed_descriptions ts) /\
  (exists ts,
     Cba.parse sample_uuid4 [py "1 January 2024   REFUND   5.00"]
     = Done ts /\ length ts = 1 /\ trimmed_descriptions ts).
Proof.
  destruct descriptions_trimmed as (H1 & H2 & H3). repeat split.
  - eexists. split; [vm_compute; reflexivity|]. split; [reflexivity|].
    apply (H1 sample_uuid4 [py "28 Feb DR   rent   10.00"]).
    vm_compute. reflexivity.
  - eexists. split; [vm_compute; reflexivity|]. split; [reflexivity|].
    apply (H2 sample_uuid4
             (py "01/02/2024 01/02/2024 1234   COFFEE SHOP   4.50 120.00")).
    vm_compute. reflexivity.
  - eexists. split; [vm_compute; reflexivity|]. split; [reflexivity|].
    apply (H3 sample_uuid4 [py "1 January 2024   REFUND   5.00"]).
    vm_compute. reflexivity.
Defined.

(** ** The shape of the dates that are not checked *)

Lemma upto2_digits w :
  lang (Upto2 digit) w ->
  exists a b, zfill2 w = [a; b] /\ is_digit a = true /\ is_digit b = true.
Proof.
  intros H. unfold Upto2, Opt in H.
  apply lang_cat_inv in H. destruct H as (w1 & w2 & -> & H1 & H2).
  apply lang_cls_inv in H1. destruct H1 as (a & -> & Ha).
  inversion H2; subst.
  - match goal with Hs : lang digit _ |- _ =>
      apply lang_cls_inv in Hs; destruct Hs as (b & -> & Hb) end.
    exists a, b. repeat split; auto.
  - match goal with Hs : lang Eps _ |- _ => inversion Hs; subst end.
    exists "0"%char, a. repeat split; auto.
Qed.

Lemma four_digits w :
  lang (Times 4 digit) w ->
  exists a b c d, w = [a; b; c; d] /\ forallb is_digit [a; b; c; d] = true.
Proof.
  intros H. cbn [Times] in H.
  apply lang_cat_inv in H. destruct H as (w1 & w' & -> & H1 & H).
  apply lang_cat_inv in H. destruct H as (w2 & w'' & -> & H2 & H).
  apply lang_cat_inv in H. destruct H as (w3 & w4 & -> & H3 & H4).
  apply lang_cls_inv in H1, H2, H3, H4.
  destruct H1 as (a & -> & Ha), H2 as (b & -> & Hb),
           H3 as (c & -> & Hc), H4 as (d & -> & Hd).
  exists a, b, c, d. split; auto. simpl. now rewrite Ha, Hb, Hc, Hd.
Qed.

Lemma month_value_digits v :
  In v (map snd Amex.month_map) ->
  exists a b, v = [a; b] /\ is_digit a = true /\ is_digit b = true.
Proof.
  intros H. cbv [Amex.month_map pairs map fst snd py
                 String.list_ascii_of_string] in H.
  repeat (destruct H as [<-|H];
          [eexists; eexists; repeat split; reflexivity|]).
  destruct H.
Qed.

Lemma dict_lookup_in d k v :
  dict_lookup d k = Some v -> In v (map snd d).
Proof.
  induction d as [|[k' v'] d IH]; simpl; [discriminate|].
  destruct (list_eq_dec ascii_dec k k'); auto.
  intros H. inversion H; subst. now left.
Qed.

Lemma dict_get_in d k v :
  dict_get d k v = v \/ In (dict_get d k v) (map snd d).
Proof.
  induction d as [|[k' v'] d IH]; simpl; auto.
  destruct (list_eq_dec ascii_dec k k'); auto. destruct IH; auto.
Qed.

Lemma amex_dated_shaped d : amex_dated d -> iso_shaped d = true.
Proof.
  intros (mm & day & Hmm & Hday & ->).
  apply month_value_digits in Hmm. destruct Hmm as (m1 & m2 & -> & Hm1 & Hm2).
  apply upto2_digits in Hday. destruct Hday as (a & b & -> & Ha & Hb).
  simpl. rewrite Hm1, Hm2, Ha, Hb. reflexivity.
Qed.

Lemma cba_dated_shaped d : cba_dated d -> iso_shaped d = true.
Proof.
  intros (year & mm & day & Hy & Hmm & Hday & ->).
  apply four_digits in Hy. destruct Hy as (a & b & c & e & -> & Hdig).
  assert (Hm : exists m1 m2,
             mm = [m1; m2] /\ is_digit m1 = true /\ is_digit m2 = true).
  { destruct Hmm as [->|H].
    - exists "0"%char, "1"%char. repeat split; reflexivity.
    - now apply month_value_digits in H. }
  destruct Hm as (m1 & m2 & -> & Hm1 & Hm2).
  apply upto2_digits in Hday. destruct Hday as (d1 & d2 & -> & Hd1 & Hd2).
  simpl in Hdig. repeat rewrite andb_true_iff in Hdig.
  destruct Hdig as (Ha & Hb & Hc & He & _).
  simpl. rewrite Ha, Hb, Hc, He, Hm1, Hm2, Hd1, Hd2. reflexivity.
Qed.

Lemma amex_step_dated uuid4 acc line rest :
  Forall (fun t => amex_dated (date t)) acc ->
  when_done (Forall (fun t => amex_dated (date t)))
            (Amex.step uuid4 acc line rest).
Proof.
  intros Hacc. unfold Amex.step.
  destruct (re_match Amex.date_line_pattern (strip line)) as [m|] eqn:E;
    [|exact Hacc].
  destruct (dict_lookup Amex.month_map (grp 1 m)) as [mm|] eqn:Em;
    destruct (float (grp 4 m)); try exact I.
  cbn [when_done].
  apply dict_lookup_in in Em.
  assert (Hd : lang (Upto2 digit) (grp 2 m)).
  { apply (@re_match_grp (fun w => lang (Upto2 digit) w)
             Amex.date_line_pattern (strip line) m 2);
      [|reflexivity|exact E].
    unfold Amex.date_line_pattern. cbn [Seq groups_ok].
    repeat split; try (intros; discriminate).
    intros w Hw _. exact Hw. }
  unfold append. apply Forall_app. split; auto.
  constructor; [|constructor]. cbn [date].
  exists mm, (grp 2 m). repeat split; auto.
Qed.

(** X16. Every date the Amex script prints is 2025, a hyphen, a value of
    [month_map], a hyphen, and the day that [date_line_pattern] took, one
    or two characters of [\d], padded with a zero to two characters; so
    it starts with 2025- and matches [\d\d\d\d-\d\d-\d\d], with [\d] as the
    pattern of the script reads it.  The day is not checked, and it is
    printed in the digits it was written in: in the texts of this file
    (code points below U+0100) these are 0 to 9. *)
Theorem amex_date_shape :
  forall (uuid4 : nat -> pystr) (lines : list pystr),
  exists ts,
    Amex.parse_lines uuid4 lines = Done ts /\
    Forall (fun t => amex_dated (date t) /\ iso_shaped (date t) = true) ts.
Proof.
  intros uuid4 lines. unfold Amex.parse_lines.
  assert (H : forall acc,
             Forall (fun t => amex_dated (date t)) acc ->
             exists ts,
               Amex.loop uuid4 acc lines = Done ts /\
               Forall (fun t => amex_dated (date t)) ts).
  { induction lines as [|line rest IH]; intros acc Hacc; simpl; eauto.
    assert (Hs := @amex_step_dated uuid4 acc line rest Hacc).
    destruct (@amex_step_debit uuid4 [] line rest (Forall_nil _))
      as (x & Hx & _).
    destruct (Amex.step uuid4 acc line rest) as [acc'|] eqn:E.
    - simpl. apply IH. exact Hs.
    - exfalso. revert E Hx. unfold Amex.step.
      destruct (re_match _ _); [|discriminate].
      destruct (float _); [|discriminate].
      destruct (dict_lookup _ _); discriminate. }
  destruct (H [] (Forall_nil _)) as (ts & Hts & Hd).
  exists ts. split; [exact Hts|].
  apply Forall_forall. intros t Ht.
  assert (Hdt := proj1 (Forall_forall _ _) Hd t Ht).
  split; [exact Hdt|now apply amex_dated_shaped].
Qed.

Lemma cba_match_dated s m :
  re_match Cba.date_pattern s = Some m -> cba_dated (Cba.date_iso m).
Proof.
  intros H. unfold Cba.date_iso.
  exists (grp 3 m), (dict_get Cba.MONTH_MAP (grp 2 m) (py "01")), (grp 1 m).
  repeat split.
  - apply (@re_match_grp (fun w => lang (Times 4 digit) w)
             Cba.date_pattern s m 3); [|reflexivity|exact H].
    unfold Cba.date_pattern. cbn [Seq groups_ok].
    repeat split; try (intros; discriminate).
    intros w Hw _. exact Hw.
  - apply dict_get_in.
  - apply (@re_match_grp (fun w => lang (Upto2 digit) w)
             Cba.date_pattern s m 1); [|reflexivity|exact H].
    unfold Cba.date_pattern. cbn [Seq groups_ok].
    repeat split; try (intros; discriminate).
    intros w Hw _. exact Hw.
Qed.

Lemma cba_step_dated uuid4 acc l :
  Forall (fun t => cba_dated (date t) \/
                   date t = [] /\ amount t = 0%Q) acc ->
  when_done (Forall (fun t => cba_dated (date t) \/
                              date t = [] /\ amount t = 0%Q))
            (Cba.step uuid4 acc l).
Proof.
  intros Hacc. unfold Cba.step.
  destruct (Cba.is_balance_line (strip l)).
  - unfold Cba.balance_row, append. cbn [when_done].
    apply Forall_app. split; auto. constructor; [|constructor].
    cbn [date amount]. rewrite cba_search_start.
    destruct (re_match Cba.date_pattern (strip l)) as [m|] eqn:E; auto.
    left. now apply cba_match_dated in E.
  - unfold Cba.transaction_row.
    destruct (re_match Cba.date_pattern (strip l)) as [m|] eqn:E;
      [|exact Hacc].
    apply cba_match_dated in E.
    destruct (Cba.last_amount _); [destruct (float _); [|exact I]|];
      cbn [when_done]; unfold append; apply Forall_app; split; auto;
      (constructor; [now left|constructor]).
Qed.

(** X17. Every date the CBA script prints is the year that [date_pattern]
    took, four characters of [\d], a hyphen, a value of [MONTH_MAP] or the
    default 01, a hyphen, and the day that the pattern took, padded with a
    zero to two characters; so it matches [\d\d\d\d-\d\d-\d\d], with [\d]
    as the pattern of the script reads it, whether it is a calendar date or
    not.  The one exception is a balance row without a date at its start:
    it has the empty date and the amount zero.  Year and day are printed
    in the digits they were written in: in the texts of this file (code
    points below U+0100) these are 0 to 9. *)
Theorem cba_date_shape :
  forall (uuid4 : nat -> pystr) (pages : list pystr),
  exists ts,
    Cba.parse uuid4 pages = Done ts /\
    Forall (fun t => cba_dated (date t) /\ iso_shaped (date t) = true \/
                     date t = [] /\ amount t = 0%Q) ts.
Proof.
  intros uuid4 pages.
  destruct (cba_pages_total uuid4 pages []) as (ts & H).
  exists ts. split; [exact H|].
  assert (Hinv : when_done
                   (Forall (fun t => cba_dated (date t) \/
                                     date t = [] /\ amount t = 0%Q))
                   (Cba.parse uuid4 pages)).
  { unfold Cba.parse. apply for_each_inv; [|constructor].
    intros acc text _ Hacc. unfold Cba.page_step.
    destruct text; [exact Hacc|].
    apply for_each_inv; auto.
    intros acc' l _ Hacc'. now apply cba_step_dated. }
  unfold Cba.parse in Hinv. rewrite H in Hinv. cbn [when_done] in Hinv.
  apply Forall_forall. intros t Ht.
  destruct (proj1 (Forall_forall _ _) Hinv t Ht) as [Hd|Hd]; [left|now right].
  split; [exact Hd|now apply cba_dated_shaped].
Qed.

(** ** local.py: the Money Out column takes the first numeral *)

Lemma wins_le_trans (k1 k2 k3 : kont) :
  wins_le k1 k2 -> wins_le k2 k3 -> wins_le k1 k3.
Proof.
  intros H12 H23 i s c c' H. apply (H23 i s c c'). now apply (H12 i s c c).
Qed.

Lemma rep_loop_wins
    (body : nat -> pystr -> caps -> kont -> option (nat * caps)) g
    (k k' : kont) :
  (forall k1 k1' : kont, wins_le k1 k1' ->
     forall i s c c', body i s c k1 <> None -> body i s c' k1' <> None) ->
  wins_le k k' ->
  forall n i s c c',
    rep_loop body g k n i s c <> None -> rep_loop body g k' n i s c' <> None.
Proof.
  intros Hbody Hk. induction n as [|n IH]; intros i s c c' H; simpl in *.
  - now apply (Hk i s c c').
  - assert (Hturn :
      body i s c
        (fun i' s' c' =>
           if i <? i' then rep_loop body g k n i' s' c' else None) <> None ->
      body i s c'
        (fun i' s' c' =>
           if i <? i' then rep_loop body g k' n i' s' c' else None)
      <> None).
    { apply Hbody. intros i' s' c1 c1' H1.
      destruct (i <? i'); [now apply (IH i' s' c1 c1')|contradiction]. }
    destruct g.
    + destruct (body i s c' _) eqn:E'; [discriminate|].
      destruct (body i s c _) eqn:E.
      * exfalso. apply Hturn; [discriminate|reflexivity].
      * now apply (Hk i s c c').
    + destruct (k' i s c') eqn:E'; [discriminate|].
      destruct (k i s c) eqn:E.
      * exfalso. apply (Hk i s c c'); [rewrite E; discriminate|exact E'].
      * now apply Hturn.
Qed.

(** Whether a pattern finds a match depends on what follows it through
    its success only, and not on the groups. *)
Lemma run_wins r :
  forall k k' : kont, wins_le k k' ->
  forall i s c c', run r i s c k <> None -> run r i s c' k' <> None.
Proof.
  induction r as [|p|r1 IH1 r2 IH2|r1 IH1 r2 IH2|g r1 IH1|m r1 IH1| |];
    intros k k' Hk i s c c' H; cbn [run] in *.
  - now apply (Hk i s c c').
  - destruct s as [|a s']; [contradiction|].
    destruct (p a); [now apply (Hk (S i) s' c c')|contradiction].
  - revert H. apply IH1. intros i' s' c1 c1'. now apply IH2.
  - destruct (run r1 i s c' k') eqn:E'; [discriminate|].
    destruct (run r1 i s c k) eqn:E.
    + exfalso. apply (IH1 k k' Hk i s c c'); [rewrite E; discriminate|].
      exact E'.
    + now apply (IH2 k k' Hk i s c c').
  - revert H. apply rep_loop_wins; auto.
  - revert H. apply IH1. intros i' s' c1 c1'. apply Hk.
  - destruct (Nat.eqb i 0); [now apply (Hk i s c c')|contradiction].
  - destruct (at_eol s); [now apply (Hk i s c c')|contradiction].
Qed.

Lemma blind_accept : blind accept.
Proof. intros i s c c' _. discriminate. Qed.

Lemma blind_at_end : blind at_end.
Proof.
  intros i s c c'. unfold at_end.
  apply run_wins. exact blind_accept.
Qed.

Lemma after_blanks_le (k k' : kont) :
  wins_le k k' -> wins_le (after_blanks k) (after_blanks k').
Proof. intros H i s c c'. unfold after_blanks. now apply run_wins. Qed.

Lemma grp_le r n n' (k k' : kont) i s c c' :
  wins_le k k' ->
  run (Grp n r) i s c k <> None -> run (Grp n' r) i s c' k' <> None.
Proof.
  intros Hk. cbn [run]. apply run_wins.
  intros i' s' c1 c1'. apply Hk.
Qed.

Lemma run_opt r i s c (k : kont) :
  run (Opt r) i s c k
  = match run r i s c k with
    | Some x => Some x
    | None => k i s c
    end.
Proof. reflexivity. Qed.

(** The numeral of one column is as good as the numeral of another. *)
Lemma with_numeral_le n n' (k k' : kont) :
  wins_le k k' -> wins_le (with_numeral n k) (with_numeral n' k').
Proof.
  intros Hk i s c c'. unfold with_numeral. rewrite !run_opt.
  destruct (run (Grp n' (Plus num_char)) i s c' k') eqn:E';
    [discriminate|].
  destruct (run (Grp n (Plus num_char)) i s c k) eqn:E; intros H.
  - exfalso.
    apply (@grp_le (Plus num_char) n n' k k' i s c c' Hk);
      [rewrite E; discriminate|exact E'].
  - now apply (Hk i s c c').
Qed.

(** An optional part and a run of blanks may take nothing. *)
Lemma le_with_numeral n (k : kont) : blind k -> wins_le k (with_numeral n k).
Proof.
  intros Hk i s c c' H. unfold with_numeral. rewrite run_opt.
  destruct (run _ i s c' _); [discriminate|]. now apply (Hk i s c c').
Qed.

Lemma le_after_blanks (k : kont) : blind k -> wins_le k (after_blanks k).
Proof.
  intros Hk i s c c' H. unfold after_blanks. cbn [run].
  destruct (length s); cbn [rep_loop]; [now apply (Hk i s c c')|].
  destruct (run space i s c' _); [discriminate|]. now apply (Hk i s c c').
Qed.

Lemma after_blanks_clean (k : kont) i a u c :
  is_space a = false -> after_blanks k i (a :: u) c = k i (a :: u) c.
Proof.
  intros Ha. unfold after_blanks, space. cbn [run length rep_loop].
  now rewrite Ha.
Qed.

Lemma after_blanks_blank (k : kont) i a u c :
  is_space a = true ->
  after_blanks k i (a :: u) c
  = match after_blanks k (S i) u c with
    | Some x => Some x
    | None => k i (a :: u) c
    end.
Proof.
  intros Ha. unfold after_blanks, space. cbn [run length rep_loop].
  rewrite Ha. assert (Hlt : (i <? S i) = true) by (apply Nat.ltb_lt; lia).
  now rewrite Hlt.
Qed.

Lemma blank_no_numeral a :
  is_space a = true -> is_digit a || is_char "," a || is_char "." a = false.
Proof.
  intros H. ascii_cases a; vm_compute in H; try discriminate H; reflexivity.
Qed.

Lemma with_numeral_blank n (k : kont) i a u c :
  is_space a = true -> with_numeral n k i (a :: u) c = k i (a :: u) c.
Proof.
  intros Ha. unfold with_numeral, Opt, Plus, num_char. cbn [run].
  now rewrite (blank_no_numeral a Ha).
Qed.

Lemma shift_at_end : blank_shift at_end.
Proof.
  intros i a u c c' Ha. unfold at_end, accept. cbn [run at_eol].
  destruct u; [discriminate|contradiction].
Qed.

Lemma shift_after_blanks (k : kont) :
  blind k -> blank_shift k -> blank_shift (after_blanks k).
Proof.
  intros Hb Hs i a u c c' Ha. rewrite after_blanks_blank by exact Ha.
  destruct (after_blanks k (S i) u c) eqn:E.
  - intros _. apply (after_blanks_le Hb (S i) u c c').
    rewrite E. discriminate.
  - intros H. apply (le_after_blanks Hb (S i) u c c').
    now apply (Hs i a u c c).
Qed.

Lemma shift_with_numeral n (k : kont) :
  blind k -> blank_shift k -> blank_shift (with_numeral n k).
Proof.
  intros Hb Hs i a u c c' Ha. rewrite with_numeral_blank by exact Ha.
  intros H. apply (le_with_numeral n Hb (S i) u c c').
  now apply (Hs i a u c c).
Qed.

Lemma blind_tail7 : blind (after_blanks at_end).
Proof. apply after_blanks_le, blind_at_end. Qed.

Lemma blind_tail6 :
  blind (after_blanks (with_numeral 7 (after_blanks at_end))).
Proof. apply after_blanks_le, with_numeral_le, blind_tail7. Qed.

Lemma blind_tail5 :
  blind (after_blanks
           (with_numeral 6 (after_blanks (with_numeral 7
                                            (after_blanks at_end))))).
Proof. apply after_blanks_le, with_numeral_le, blind_tail6. Qed.

Lemma blind_local_tail : blind local_tail.
Proof. apply with_numeral_le, blind_tail5. Qed.

Lemma shift_local_tail : blank_shift local_tail.
Proof.
  unfold local_tail.
  apply shift_with_numeral; [exact blind_tail5|].
  apply shift_after_blanks; [apply with_numeral_le, blind_tail6|].
  apply shift_with_numeral; [exact blind_tail6|].
  apply shift_after_blanks; [apply with_numeral_le, blind_tail7|].
  apply shift_with_numeral; [exact blind_tail7|].
  apply shift_after_blanks; [exact blind_at_end|].
  exact shift_at_end.
Qed.

(** What follows the Balance column is as good as what follows the Money
    In column, and that as good as what follows the Money Out column. *)
Lemma tail7_le_tail6 :
  wins_le (after_blanks at_end)
          (after_blanks (with_numeral 7 (after_blanks at_end))).
Proof.
  apply after_blanks_le.
  apply wins_le_trans with (after_blanks at_end).
  - apply le_after_blanks, blind_at_end.
  - apply le_with_numeral, blind_tail7.
Qed.

Lemma tail6_le_tail5 :
  wins_le (after_blanks (with_numeral 7 (after_blanks at_end)))
          (after_blanks
             (with_numeral 6 (after_blanks (with_numeral 7
                                              (after_blanks at_end))))).
Proof. apply after_blanks_le, with_numeral_le, tail7_le_tail6. Qed.

(** At a character that is no blank the tail sets group 5: a numeral that
    the Money In or the Balance column could take is one the Money Out
    column takes first. *)
Lemma local_tail_clean i a u c x :
  is_space a = false ->
  local_tail i (a :: u) c = Some x -> group 5 (snd x) <> None.
Proof.
  intros Ha H. unfold local_tail, with_numeral at 1 in H.
  rewrite run_opt in H.
  destruct (run (Grp 5 (Plus num_char)) i (a :: u) c _) as [y|] eqn:E5.
  - inversion H; subst y. apply run_groups in E5.
    destruct E5 as (i1 & s1 & c1 & _ & Hs & E5).
    apply (@run_groups (Rep true space)) in E5.
    destruct E5 as (i2 & s2 & c2 & Hle & _ & E5).
    assert (H2 : group 5 c2 <> None) by (apply Hle, Hs; reflexivity).
    clear - E5 H2. revert E5.
    change (with_numeral 6 (after_blanks (with_numeral 7
                                            (after_blanks at_end)))
              i2 s2 c2 = Some x -> group 5 (snd x) <> None).
    unfold with_numeral at 1. intros E.
    apply (@run_groups (Opt (Grp 6 (Plus num_char)))) in E.
    destruct E as (i3 & s3 & c3 & Hle3 & _ & E).
    apply (@run_groups (Rep true space)) in E.
    destruct E as (i4 & s4 & c4 & Hle4 & _ & E).
    apply (@run_groups (Opt (Grp 7 (Plus num_char)))) in E.
    destruct E as (i5 & s5 & c5 & Hle5 & _ & E).
    apply (@run_groups (Rep true space)) in E.
    destruct E as (i6 & s6 & c6 & Hle6 & _ & E).
    unfold at_end in E. apply (@run_groups Eol) in E.
    destruct E as (i7 & s7 & c7 & Hle7 & _ & E).
    unfold accept in E. inversion E; subst. simpl.
    apply Hle7, Hle6, Hle5, Hle4, Hle3, H2.
  - exfalso.
    rewrite after_blanks_clean in H by exact Ha.
    unfold with_numeral at 1 in H. rewrite run_opt in H.
    destruct (run (Grp 6 (Plus num_char)) i (a :: u) c _) as [y|] eqn:E6.
    + apply (@grp_le (Plus num_char) 6 5 _ _ i (a :: u) c c tail6_le_tail5);
        [rewrite E6; discriminate|exact E5].
    + rewrite after_blanks_clean in H by exact Ha.
      unfold with_numeral at 1 in H. rewrite run_opt in H.
      destruct (run (Grp 7 (Plus num_char)) i (a :: u) c _) as [y|] eqn:E7.
      * apply (@grp_le (Plus num_char) 7 5 _ _ i (a :: u) c c
                 (wins_le_trans tail7_le_tail6 tail6_le_tail5));
          [rewrite E7; discriminate|exact E5].
      * rewrite after_blanks_clean in H by exact Ha.
        unfold at_end, accept in H. cbn [run at_eol] in H.
        destruct u; [|discriminate].
        destruct (is_char newline a) eqn:En; [|discriminate].
        unfold is_char in En. apply Ascii.eqb_eq in En. subst a.
        vm_compute in Ha. discriminate Ha.
Qed.

Lemma ends_clean_tail a u : u <> [] -> ends_clean (a :: u) -> ends_clean u.
Proof. intros Hu. now apply ends_clean_cons. Qed.

(** The greedy [\s+] before the tail: the match it returns comes from the
    tail at a character that is no blank. *)
Lemma local_blanks_then_tail :
  forall n i u c x,
    length u <= n -> u <> [] -> ends_clean u ->
    rep_loop (run space) true local_tail n i u c = Some x ->
    group 5 (snd x) <> None.
Proof.
  induction n as [|n IH]; intros i u c x Hlen Hu Hclean H.
  - destruct u; [contradiction|simpl in Hlen; lia].
  - destruct u as [|a u]; [contradiction|].
    cbn [rep_loop] in H. unfold space at 1 in H. cbn [run] in H.
    destruct (is_space a) eqn:Ha.
    + assert (Hlt : (i <? S i) = true) by (apply Nat.ltb_lt; lia).
      rewrite Hlt in H.
      assert (Hu' : u <> []).
      { intros ->. simpl in Hclean. congruence. }
      destruct (rep_loop (run space) true local_tail n (S i) u c)
        as [y|] eqn:E.
      * inversion H; subst y.
        apply (IH (S i) u c x); auto.
        -- simpl in Hlen. lia.
        -- now apply ends_clean_tail with a.
      * exfalso.
        assert (Hs : local_tail (S i) u c <> None).
        { apply (shift_local_tail i a u c c Ha). rewrite H. discriminate. }
        revert E. destruct n as [|n']; cbn [rep_loop].
        -- exact Hs.
        -- destruct (run space (S i) u c _); [discriminate|exact Hs].
    + now apply (@local_tail_clean i a u c x).
Qed.

Lemma run_cat_split r1 r2 i s c (k : kont) x :
  run (Cat r1 r2) i s c k = Some x ->
  exists w s' c', s = w ++ s' /\ run r2 (i + length w) s' c' k = Some x.
Proof.
  cbn [run]. intros H.
  apply (run_sound (fun _ _ => True) r1 (groups_ok_True r1)) in H.
  destruct H as (w & s' & c' & Hs & _ & _ & H). eauto.
Qed.

Lemma ends_clean_app l v : v <> [] -> ends_clean (l ++ v) -> ends_clean v.
Proof.
  intros Hv. induction l as [|b l IH]; simpl app; auto.
  intros H. apply IH. revert H. apply ends_clean_cons.
  destruct l; simpl; [exact Hv|discriminate].
Qed.

(** On a line without a blank at its end, a match of [date_pattern] has
    its group 5: [money_out] is never [None]. *)
Lemma local_money_out s m :
  ends_clean s ->
  re_match Local.date_pattern s = Some m -> group 5 (m_groups m) <> None.
Proof.
  intros Hclean H. unfold re_match, match_at in H.
  destruct (run Local.date_pattern 0 s [] accept) as [[e c0]|] eqn:E;
    [|discriminate].
  inversion H; subst m. cbn [m_groups]. clear H.
  enough (Hgen : forall c i s0,
             (exists pre, s = pre ++ s0) ->
             run Local.date_pattern i s0 c accept = Some (e, c0) ->
             group 5 c0 <> None)
    by (apply (Hgen [] 0 s); [exists []; reflexivity|exact E]).
  clear E. intros c i s0 Hsuf E.
  unfold Local.date_pattern in E. cbn [Seq] in E.
  do 8 (apply run_cat_split in E;
        destruct E as (w & s1 & c1 & Hs & E);
        destruct Hsuf as (pre & Hsuf); rewrite Hs, app_assoc in Hsuf;
        remember (i + length w) as i1 eqn:Hi in *; clear Hi;
        assert (Hsuf' : exists pre, s = pre ++ s1) by eauto;
        clear Hsuf Hs w pre i c s0;
        rename Hsuf' into Hsuf, c1 into c, s1 into s0, i1 into i).
  unfold Plus at 1 in E. cbn [run] in E. unfold space at 1 in E.
  cbn [run] in E.
  destruct s0 as [|a u]; [discriminate|].
  destruct (is_space a) eqn:Ha; [|discriminate].
  destruct Hsuf as (pre & Hsuf).
  assert (Hu : u <> []).
  { intros ->. rewrite Hsuf in Hclean.
    apply ends_clean_snoc in Hclean. congruence. }
  assert (Hcu : ends_clean u).
  { rewrite Hsuf in Hclean.
    change (a :: u) with ([a] ++ u) in Hclean. rewrite app_assoc in Hclean.
    now apply ends_clean_app in Hclean. }
  change (group 5 (snd (e, c0)) <> None).
  apply (@local_blanks_then_tail (length u) (S i) u c (e, c0));
    auto.
Qed.

Lemma local_money_out_text s m w :
  re_match Local.date_pattern s = Some m ->
  group 5 (m_groups m) = Some w -> Forall no_minus w.
Proof.
  intros H E.
  set (G := fun (n : nat) (w : pystr) => n = 5 -> Forall no_minus w).
  assert (HG : groups_ok G Local.date_pattern).
  { unfold G. simpl. repeat split; try (intros; discriminate).
    intros v Hv _. apply (lang_chars no_minus) with (2 := Hv).
    exact num_char_no_minus. }
  exact (@re_match_group G _ _ _ _ _ HG H E eq_refl).
Qed.

Lemma primary_step_debits u acc line :
  debits acc -> when_done debits (Local.primary_step u acc line).
Proof.
  intros Hacc. unfold Local.primary_step.
  destruct (re_match Local.date_pattern (strip line)) as [m|] eqn:Em;
    [|exact Hacc].
  destruct (Local.parsed_date m); [|exact Hacc].
  destruct (group 5 (m_groups m)) as [money_out|] eqn:E5.
  - destruct (float (remove_commas money_out)) as [v|] eqn:Ef; [|exact I].
    cbn [when_done]. apply debits_append; auto.
    apply (float_no_minus (w := money_out)); auto.
    now apply local_money_out_text with (s := strip line) (m := m).
  - exfalso. revert E5. apply local_money_out with (s := strip line); auto.
    apply strip_clean.
Qed.

(** X18. In local.py a line that matches [date_pattern] always has its Money
    Out group: the first numeral after the description goes to [money_out]
    whatever column it stood in, so the amount is the negated [money_out]
    and neither [money_in] nor the [continue] of line 82 is ever reached. *)
Theorem local_money_in_never_read :
  forall (uuid4 : nat -> pystr) (transactions : list txn) (line : pystr)
         (m : rmatch),
    re_match Local.date_pattern (strip line) = Some m ->
    exists money_out,
      group 5 (m_groups m) = Some money_out /\
      forall d,
        Local.parsed_date m = Some d ->
        Local.primary_step uuid4 transactions line
        = match float (remove_commas money_out) with
          | Some v =>
              Done (append uuid4 transactions d (strip (grp 4 m)) (- v)%Q)
          | None => Raised
          end.
Proof.
  intros uuid4 transactions line m Hm.
  destruct (group 5 (m_groups m)) as [money_out|] eqn:E5.
  - exists money_out. split; auto. intros d Hd.
    unfold Local.primary_step. rewrite Hm, Hd, E5. reflexivity.
  - exfalso. revert E5. apply local_money_out with (s := strip line); auto.
    apply strip_clean.
Qed.

(** A salary of 500.00 on a CR line: the numeral is taken as Money Out. *)
Lemma local_money_in_never_read_witness :
  exists money_out,
    money_out = py "500.00" /\
    Local.primary_step sample_uuid4 [] (py "28 Feb CR salary 500.00")
    = match float (remove_commas money_out) with
      | Some v =>
          Done (append sample_uuid4 [] (py "2023-02-28") (py "salary")
                       (- v)%Q)
      | None => Raised
      end.
Proof.
  destruct (@local_money_in_never_read sample_uuid4 []
              (py "28 Feb CR salary 500.00")
              (mk_rmatch 0 23
                 [(5, py "500.00"); (4, py "salary"); (3, py "CR");
                  (2, py "Feb"); (1, py "28")]))
    as (money_out & Hg & Hstep).
  - vm_compute. reflexivity.
  - exists money_out. split.
    + cbn [m_groups group Nat.eqb] in Hg. now inversion Hg.
    + apply (Hstep (py "2023-02-28")). vm_compute. reflexivity.
Defined.

(** X19. Every record of local.py is a debit, in the primary pass as in the
    fallback pass: no amount is positive, whatever the type code of the
    line and whatever column the numeral stood in. *)
Theorem local_all_debits :
  forall (uuid4 : nat -> pystr) (lines : list pystr) (ts : list txn),
    Local.parse_lines uuid4 lines = Done ts -> debits ts.
Proof.
  intros uuid4 lines ts H.
  assert (Hinv : when_done debits (Local.parse_lines uuid4 lines)).
  { unfold Local.parse_lines, Local.primary_pass.
    assert (H1 : when_done debits
                   (for_each (Local.primary_step uuid4) lines [])).
    { apply for_each_inv; [|constructor].
      intros acc l _ Hacc. now apply primary_step_debits. }
    destruct (for_each (Local.primary_step uuid4) lines []) as [[|t l]|];
      simpl in *; auto.
    apply for_each_inv; [|constructor].
    intros acc l _ Hacc. now apply fallback_step_debits. }
  rewrite H in Hinv. exact Hinv.
Qed.

(** A CR line with one numeral and a DR line with two. *)
Lemma local_all_debits_witness :
  exists ts,
    Local.parse_lines sample_uuid4
      [py "28 Feb CR salary 500.00"; py "1 Mar DR rent 10.00 490.00"]
    = Done ts /\ length ts = 2 /\ debits ts.
Proof.
  eexists. split; [vm_compute; reflexivity|]. split; [reflexivity|].
  apply (@local_all_debits sample_uuid4
           [py "28 Feb CR salary 500.00"; py "1 Mar DR rent 10.00 490.00"]).
  vm_compute. reflexivity.
Defined.
